(** * Rotary sample holder controller

    A shallow embedding of [arduino_controller.py] (class
    [ArduinoController]) and [sample_holder_controller.py] (class
    [SampleHolderController]), and the properties of the command
    protocol and of the position model proved about them.

    Conventions of the embedding.
    - Python numbers ([int] and [float]) are exact rationals [Q], and
      the methods compute with them exactly. The arithmetic of [sample],
      [step] and [move] with every operation rounded to binary64 is
      [Binary64]; the properties that depend on a number the code
      computes are stated on the range [Exact], where the two are shown
      to agree.
    - A Python object that comes from the device (a decoded JSON value)
      is a [json]; [JNull] is Python's [None].
    - A method is a function from the object's state to an outcome and
      the state left behind; an exception leaves the mutations made
      before it in place.
    - The serial port is a [Serial] record: what the device will deliver
      to the successive calls of [read()] is a finite script, after which
      every read times out empty; everything written and read is logged
      on [wire]. A command is logged with its name and its arguments,
      not as the text [run[ name, arg, .. ]] they are formatted into.
    - [json.loads] is a parameter, the class [JsonDecoder].
    - The [while] loop of [read_response] runs on a budget of iterations
      computed from the script and [read_attempts]; [read_response_total]
      shows that the budget is never exhausted. *)

From Stdlib Require Import ZArith QArith Qround Qabs Qpower List String Bool Lia Lqa Sorted.
From Stdlib Require Import Strings.Byte Strings.Ascii.
Import ListNotations.

Set Warnings "-register-all".

(** ** Python values and exceptions *)

Module Py.

Inductive json : Type :=
| JNull
| JBool (b : bool)
| JNum (q : Q)
| JStr (s : string)
| JArr (l : list json)
| JObj (kv : list (string * json)).

Inductive exn : Type :=
| PortNotOpenError                 (* pyserial: write or read on a closed port *)
| InvalidBaudrate                  (* pyserial: ValueError 'Not a valid baudrate: ..' *)
| ReadTimeout (buf : list byte)    (* RuntimeError 'Data read timed out with response: ..' *)
| JSONDecodeError                  (* json.loads rejects the bytes *)
| KeyError (k : string)
| TypeError
| ZeroDivisionError
| CommandFailed (command : json)   (* RuntimeError 'Command failed: ..' *)
| ConfigurationLocked              (* RuntimeError 'Can not change .. while connected' *)
| NotEnabled                       (* RuntimeError 'Motor is not enabled.' *)
| InvalidSample (samples : Z)      (* ValueError 'Invalid sample number. ..' *)
| LoopBudget.                      (* the bound put on a [while] loop was reached *)

Inductive outcome (A : Type) : Type :=
| Ok (a : A)
| Raise (e : exn).

Arguments Ok {A} a.
Arguments Raise {A} e.

(** A method over an object of type [S]. *)
Definition M (S A : Type) : Type := S -> outcome A * S.

Definition ret {S A} (a : A) : M S A := fun s => (Ok a, s).

Definition raise {S A} (e : exn) : M S A := fun s => (Raise e, s).

Definition bind {S A B} (m : M S A) (k : A -> M S B) : M S B :=
  fun s => match m s with
           | (Ok a, s') => k a s'
           | (Raise e, s') => (Raise e, s')
           end.

Definition gets {S A} (f : S -> A) : M S A := fun s => (Ok (f s), s).

Definition modify {S} (f : S -> S) : M S unit := fun s => (Ok tt, f s).

(** A pure computation that may raise. *)
Definition lift {S A} (o : outcome A) : M S A := fun s => (o, s).

(** [d[k]] for a decoded value [d]. *)
Fixpoint assoc (k : string) (kv : list (string * json)) : option json :=
  match kv with
  | [] => None
  | (k', v) :: kv' => if String.eqb k k' then Some v else assoc k kv'
  end.

Definition getitem (d : json) (k : string) : outcome json :=
  match d with
  | JObj kv => match assoc k kv with
               | Some v => Ok v
               | None => Raise (KeyError k)
               end
  | _ => Raise TypeError
  end.

(** [k in d.keys()]. *)
Definition has_key (k : string) (kv : list (string * json)) : bool :=
  match assoc k kv with Some _ => true | None => false end.

(** [v == s] for a string literal [s]. *)
Definition eq_str (v : json) (s : string) : bool :=
  match v with
  | JStr s' => String.eqb s' s
  | _ => false
  end.

(** The numeric value of an operand of [+], [/] or [%]; [bool] is a
    subclass of [int], every other non-number raises [TypeError]. *)
Definition as_num (v : json) : outcome Q :=
  match v with
  | JNum q => Ok q
  | JBool b => Ok (if b then 1 else 0)%Q
  | _ => Raise TypeError
  end.

(** [x / y], true division: the exact quotient, which Python rounds
    to binary64. *)
Definition truediv (x y : Q) : outcome Q :=
  if Qeq_bool y 0 then Raise ZeroDivisionError else Ok (x / y)%Q.

(** [x % y], of the sign of [y]: the exact remainder, which is
    Python's on [int]s and on the [float]s whose sum and remainder are
    binary64 numbers. *)
Definition mod_ (x y : Q) : outcome Q :=
  if Qeq_bool y 0 then Raise ZeroDivisionError
  else Ok (x - inject_Z (Qfloor (x / y)) * y)%Q.

(** [x % y] on [int]s. *)
Definition imod (x y : Z) : outcome Z :=
  if (y =? 0)%Z then Raise ZeroDivisionError else Ok (x mod y)%Z.

(** [x > y]. *)
Definition gt (x y : Q) : bool := negb (Qle_bool x y).

(** The truth value of [v] in an [if]. *)
Definition truthy (v : json) : bool :=
  match v with
  | JNull => false
  | JBool b => b
  | JNum q => negb (Qeq_bool q 0)
  | JStr s => negb (String.eqb s "")
  | JArr l => match l with [] => false | _ => true end
  | JObj kv => match kv with [] => false | _ => true end
  end.

End Py.

Export Py.

Declare Scope py_scope.
Delimit Scope py_scope with py.
Notation "x <- c1 ;; c2" := (bind c1 (fun x => c2))
  (at level 61, c1 at next level, right associativity) : py_scope.
Notation "c1 ;; c2" := (bind c1 (fun _ => c2))
  (at level 61, right associativity) : py_scope.
Open Scope py_scope.

(** ** The serial port ([serial.Serial]) *)

(** A command as it goes on the wire: the text
    [run[ name, arg1, arg2, .. ]] followed by the terminator when one is
    set.  The arguments are kept as values, not as their text. *)
Record frame : Type := Frame {
  cmd_name : string;
  cmd_args : list json;
  cmd_term : option string
}.

Inductive event : Type :=
| Wrote (f : frame)
| ReadBytes (b : list byte).

Record Serial : Type := MkSerial {
  baudrate : Q;
  is_open : bool;
  pending : list (option byte);   (* outcome of the reads to come; [None]: the read times out *)
  wire : list event               (* what went over the port so far, oldest first *)
}.

Module SerialPort.

Definition log (e : event) (rest : list (option byte)) (s : Serial) : Serial :=
  {| baudrate := baudrate s; is_open := is_open s;
     pending := rest; wire := wire s ++ [e] |}.

(** The attribute [baudrate] after an assignment that its setter
    accepts. *)
Definition set_baudrate (b : Q) (s : Serial) : Serial :=
  {| baudrate := b; is_open := is_open s;
     pending := pending s; wire := wire s |}.

Definition write (f : frame) : M Serial unit :=
  fun s =>
    if is_open s
    then (Ok tt, log (Wrote f) (pending s) s)
    else (Raise PortNotOpenError, s).

(** [read()], that is [read(size=1)]: the next byte, or [b''] when the
    timeout elapses. *)
Definition read : M Serial (list byte) :=
  fun s =>
    if is_open s
    then match pending s with
         | Some b :: rest => (Ok [b], log (ReadBytes [b]) rest s)
         | None :: rest => (Ok [], log (ReadBytes []) rest s)
         | [] => (Ok [], log (ReadBytes []) [] s)
         end
    else (Raise PortNotOpenError, s).

End SerialPort.

(** ** [json.loads] *)

(** The decoder of the standard library, a parameter of the development:
    [None] when it raises on the bytes. *)
Class JsonDecoder : Type := json_loads : list byte -> option json.

(** ** class ArduinoController *)

Record ArduinoController : Type := MkArduino {
  port_ : string;                   (* self.__port *)
  baud_ : Q;                        (* self.__baud *)
  timeout_ : Q;                     (* self.__timeout *)
  inst : Serial;                    (* self.__inst *)
  debug : bool;
  read_attempts : Z;
  termination_char : option string
}.

Module Arduino.

Definition with_inst (f : Serial -> Serial) (a : ArduinoController) : ArduinoController :=
  {| port_ := port_ a; baud_ := baud_ a; timeout_ := timeout_ a; inst := f (inst a);
     debug := debug a; read_attempts := read_attempts a;
     termination_char := termination_char a |}.

(** A method of [self.__inst] called from a method of [self]. *)
Definition on_inst {A} (m : M Serial A) : M ArduinoController A :=
  fun a => let (r, s) := m (inst a) in (r, with_inst (fun _ => s) a).

(** [__init__]; [device] is the port object [serial.Serial()] creates. *)
Definition init (device : Serial) (port : string) (baud timeout : Q)
    (read_attempts : Z) (termination_char : option string) : ArduinoController :=
  {| port_ := port; baud_ := baud; timeout_ := timeout; inst := device;
     debug := false; read_attempts := read_attempts;
     termination_char := termination_char |}.

(** *** [read_response] *)

Record loop_vars : Type := MkVars {
  curr : option (list byte);   (* [None] before the first read *)
  resp : list byte;
  resp_len : nat;
  attempts : Z
}.

Definition close_brace : byte := x7d.

(** [curr != b'}'] *)
Definition not_close (c : option (list byte)) : bool :=
  match c with
  | Some [b] => negb (Byte.eqb b close_brace)
  | _ => true
  end.

(** The [while] loop; [budget] bounds the number of iterations. *)
Fixpoint read_loop (budget : nat) (v : loop_vars) : M ArduinoController loop_vars :=
  fun self =>
    if not_close (curr v) && (attempts v <? read_attempts self)%Z then
      match budget with
      | O => (Raise LoopBudget, self)
      | S budget' =>
          match on_inst SerialPort.read self with
          | (Raise e, self') => (Raise e, self')
          | (Ok c, self') =>
              let resp' := (resp v ++ c)%list in
              let attempts' :=
                if Nat.eqb (List.length resp') (resp_len v)
                then (attempts v + 1)%Z else attempts v in
              read_loop budget'
                {| curr := Some c; resp := resp'; resp_len := List.length resp';
                   attempts := attempts' |} self'
          end
      end
    else (Ok v, self).

(** An iteration consumes a scripted read or, once the script is over,
    adds one to [attempts]. *)
Definition budget_of (self : ArduinoController) : nat :=
  List.length (pending (inst self)) + Z.to_nat (read_attempts self).

(** The write of [run]: the command with the terminator of [self]. *)
Definition write_command (name : string) (args : list json) : M ArduinoController unit :=
  tc <- gets termination_char ;;
  on_inst (SerialPort.write {| cmd_name := name; cmd_args := args; cmd_term := tc |}).

Section Decoder.

Context {decoder : JsonDecoder}.

Definition read_response : M ArduinoController json :=
  fun self =>
    (v <- read_loop (budget_of self)
            {| curr := None; resp := []; resp_len := List.length (@nil byte); attempts := 0 |} ;;
     ra <- gets read_attempts ;;
     if (attempts v =? ra)%Z then raise (ReadTimeout (resp v))
     else match json_loads (resp v) with
          | Some j => ret j
          | None => raise JSONDecodeError
          end) self.

(** *** [run] *)

Definition run (name : string) (args : list json) : M ArduinoController json :=
  write_command name args ;;
  resp <- read_response ;;
  status <- lift (getitem resp "status") ;;
  if eq_str status "error" then
    command <- lift (getitem resp "command") ;;
    raise (CommandFailed command)
  else
    match resp with
    | JObj keys =>
        match assoc "response" keys, assoc "id" keys with
        | Some r, Some i => ret (JObj [("response"%string, r); ("id"%string, i)])
        | Some r, None => ret r
        | None, Some i => ret i
        | None, None => ret JNull
        end
    | _ => raise TypeError
    end.

(** *** The properties [baud] and [timeout] *)

(** The class defines no attribute [is_connected] (the property that
    tells whether the port is open is [connected]), so
    [self.is_connected()] goes through [__getattr__] and runs the command
    [is_connected] on the device. *)
Definition is_connected : M ArduinoController json := run "is_connected" [].

Definition get_baud : M ArduinoController Q := gets baud_.

(** [accepted]: what the setter of the port's [baudrate] makes of the
    rate. pyserial validates it and raises for a rate it cannot use, a
    negative one for instance; the client has stored the rate by then. *)
Definition set_baud (accepted : outcome unit) (b : Q) : M ArduinoController unit :=
  c <- is_connected ;;
  if truthy c then raise ConfigurationLocked
  else
    modify (fun a =>
      {| port_ := port_ a; baud_ := b; timeout_ := timeout_ a; inst := inst a;
         debug := debug a; read_attempts := read_attempts a;
         termination_char := termination_char a |}) ;;
    lift accepted ;;
    modify (with_inst (SerialPort.set_baudrate b)).

Definition get_timeout : M ArduinoController Q := gets baud_.

(** The last statement calls the attribute [timeout] of the port, a
    number or [None], which raises [TypeError]. *)
Definition set_timeout (t : Q) : M ArduinoController unit :=
  c <- is_connected ;;
  if truthy c then raise ConfigurationLocked
  else
    modify (fun a =>
      {| port_ := port_ a; baud_ := baud_ a; timeout_ := t; inst := inst a;
         debug := debug a; read_attempts := read_attempts a;
         termination_char := termination_char a |}) ;;
    raise TypeError.

End Decoder.

End Arduino.

(** ** class SampleHolderController( arduino.ArduinoController ) *)

Record SampleHolderController : Type := MkHolder {
  base : ArduinoController;   (* the attributes of the parent class *)
  samples : Z;
  position : json;            (* current motor position, [JNull] when unknown *)
  SPR : json;
  DEFAULT_SPR : Q
}.

Module Holder.

Definition with_base (f : ArduinoController -> ArduinoController)
    (h : SampleHolderController) : SampleHolderController :=
  {| base := f (base h); samples := samples h; position := position h;
     SPR := SPR h; DEFAULT_SPR := DEFAULT_SPR h |}.

Definition set_position (p : json) (h : SampleHolderController) : SampleHolderController :=
  {| base := base h; samples := samples h; position := p;
     SPR := SPR h; DEFAULT_SPR := DEFAULT_SPR h |}.

(** An inherited method called on [self]. *)
Definition inherited {A} (m : M ArduinoController A) : M SampleHolderController A :=
  fun h => let (r, a) := m (base h) in (r, with_base (fun _ => a) h).

Definition newline : string := String "010"%char EmptyString.

(** [__init__], with the defaults [samples = 10], [spr = 200],
    [baud = 9600], [timeout = 10] left to the caller. *)
Definition init (device : Serial) (port : string) (samples : Z) (spr baud timeout : Q)
    : SampleHolderController :=
  {| base := Arduino.init device port baud timeout 3 (Some newline);
     samples := samples; position := JNull; SPR := JNull; DEFAULT_SPR := spr |}.

(** The property [sample], in exact arithmetic; [Binary64.sample] is
    its arithmetic on [float]s. *)
Definition sample : M SampleHolderController (option Z) :=
  pos <- gets position ;;
  match pos with
  | JNull => ret None
  | _ =>
      spr <- gets SPR ;;
      n <- gets samples ;;
      spr' <- lift (as_num spr) ;;
      s_width <- lift (truediv spr' (inject_Z n)) ;;
      offset <- lift (truediv s_width 2) ;;
      pos' <- lift (as_num pos) ;;
      sample <- lift (truediv (pos' + offset) s_width) ;;
      ret (Some (Qfloor sample))
  end.

Section Decoder.

Context {decoder : JsonDecoder}.

Definition enable : M SampleHolderController unit :=
  inherited (Arduino.run "enable" []) ;;
  pos <- inherited (Arduino.run "get_pos" []) ;;
  modify (set_position pos).

Definition home : M SampleHolderController unit :=
  inherited (Arduino.run "home" []) ;;
  modify (set_position (JNum 0)).

Definition is_enabled : M SampleHolderController bool :=
  resp <- inherited (Arduino.run "is_enabled" []) ;;
  ret (eq_str resp "1").

Definition move (steps : Q) : M SampleHolderController unit :=
  en <- is_enabled ;;
  if negb en then raise NotEnabled
  else
    inherited (Arduino.run "move" [JNum steps]) ;;
    pos <- gets position ;;
    pos' <- lift (as_num pos) ;;
    spr <- gets SPR ;;
    spr' <- lift (as_num spr) ;;
    new <- lift (mod_ (pos' + steps) spr') ;;
    modify (set_position (JNum new)).

Definition step (num : Z) : M SampleHolderController unit :=
  spr <- gets SPR ;;
  n <- gets samples ;;
  spr' <- lift (as_num spr) ;;
  s_width <- lift (truediv spr' (inject_Z n)) ;;
  move (inject_Z num * s_width).

(** The distance [goto] hands to [step], from the current sample [cur]. *)
Definition goto_steps (num cur n : Z) : outcome Z :=
  match imod (num - cur) n with
  | Raise e => Raise e
  | Ok steps =>
      match truediv (inject_Z n) 2 with
      | Raise e => Raise e
      | Ok half => Ok (if gt (inject_Z steps) half then (steps - n)%Z else steps)
      end
  end.

Definition goto (num : Z) : M SampleHolderController unit :=
  n <- gets samples ;;
  if ((num <? 0) || (num >? n))%Z then raise (InvalidSample n)
  else
    cur <- sample ;;
    match cur with
    | None => raise TypeError
    | Some cur' =>
        steps <- lift (goto_steps num cur' n) ;;
        step steps
    end.

Definition offset (num : Q) : M SampleHolderController unit :=
  pos <- gets position ;;
  move num ;;
  inherited (Arduino.run "offset" [JNum (- num)]) ;;
  modify (set_position pos).

(** The operations that change the motor position. *)
Inductive operation : Type :=
| Enable
| Home
| Move (steps : Q)
| Step (num : Z)
| Goto (num : Z)
| Offset (num : Q).

Definition perform (o : operation) : M SampleHolderController unit :=
  match o with
  | Enable => enable
  | Home => home
  | Move steps => move steps
  | Step num => step num
  | Goto num => goto num
  | Offset num => offset num
  end.

End Decoder.

End Holder.

(** ** A device for the examples *)

(** The replies of a firmware, as the text it sends and as the value
    [json.loads] makes of it: an object with the keys [status] and
    [command] and, when the command returns one, [response]. *)
Module Firmware.

Definition quoted (s : string) : list byte :=
  (x22 :: list_byte_of_string s ++ [x22])%list.

Definition member (k : string) (v : list byte) : list byte :=
  (quoted k ++ x3a :: v)%list.

Record reply : Type := Reply {
  r_status : string;
  r_command : string;
  r_response : option (list byte * json)   (* the payload, as text and decoded *)
}.

Definition text (r : reply) : list byte :=
  (x7b :: member "status" (quoted (r_status r))
       ++ x2c :: member "command" (quoted (r_command r))
       ++ match r_response r with
          | Some (v, _) => x2c :: member "response" v
          | None => []
          end
       ++ [x7d])%list.

Definition value (r : reply) : json :=
  JObj ([("status"%string, JStr (r_status r)); ("command"%string, JStr (r_command r))]
        ++ match r_response r with
           | Some (_, j) => [("response"%string, j)]
           | None => []
           end)%list.

Definition ok (command : string) : reply :=
  {| r_status := "ok"; r_command := command; r_response := None |}.

Definition ok_str (command s : string) : reply :=
  {| r_status := "ok"; r_command := command; r_response := Some (quoted s, JStr s) |}.

Definition failed (command : string) : reply :=
  {| r_status := "error"; r_command := command; r_response := None |}.

Definition catalogue : list reply :=
  [ ok "home"; ok "move"; ok "offset"; ok "is_connected";
    ok_str "is_enabled" "1"; ok_str "is_enabled" "0";
    failed "move" ].

Fixpoint bytes_eqb (a b : list byte) : bool :=
  match a, b with
  | [], [] => true
  | x :: a', y :: b' => Byte.eqb x y && bytes_eqb a' b'
  | _, _ => false
  end.

(** [json.loads] on the texts of the catalogue. *)
Definition loads : JsonDecoder :=
  fun bs =>
    match find (fun r => bytes_eqb (text r) bs) catalogue with
    | Some r => Some (value r)
    | None => None
    end.

(** The reads that deliver the replies [rs] one byte at a time, without
    a gap. *)
Definition stream (rs : list reply) : list (option byte) :=
  flat_map (fun r => map Some (text r)) rs.

(** An open port on which the device will send [script]. *)
Definition device (script : list (option byte)) : Serial :=
  {| baudrate := 9600; is_open := true; pending := script; wire := [] |}.

(** A connected holder at [pos], with 200 steps per revolution unless
    said otherwise. *)
Definition holder (n : Z) (spr : Q) (pos : json) (script : list (option byte))
    : SampleHolderController :=
  {| base := Arduino.init (device script) "COM4" 9600 10 3 (Some Holder.newline);
     samples := n; position := pos; SPR := JNum spr; DEFAULT_SPR := 200 |}.

(** The commands written so far. *)
Definition sent (s : Serial) : list (string * list json) :=
  flat_map (fun e => match e with
                     | Wrote f => [(cmd_name f, cmd_args f)]
                     | ReadBytes _ => []
                     end) (wire s).

(** The number of calls of [read()] so far. *)
Definition reads (s : Serial) : nat :=
  List.length (filter (fun e => match e with ReadBytes _ => true | Wrote _ => false end)
                      (wire s)).

End Firmware.

(** ** The results the specification describes *)

Module Spec.

(** What [invoke] gives for a decoded response with the fields [status]
    and [command] and the optional fields [response] and [id]: a command
    error naming the echoed command when the status is [error], else both
    payloads as a pair, the one present, or no value. *)
Definition invoke_result (status command : json) (response id : option json)
    : outcome json :=
  if eq_str status "error" then Raise (CommandFailed command)
  else match response, id with
       | Some r, Some i => Ok (JObj [("response"%string, r); ("id"%string, i)])
       | Some r, None => Ok r
       | None, Some i => Ok i
       | None, None => Ok JNull
       end.

(** The distance of [goto]: forward by [(num - cur) mod n], or the
    shorter way back when that exceeds half of [n]. *)
Definition shortest (num cur n : Z) : Z :=
  let d := ((num - cur) mod n)%Z in
  if (n <? 2 * d)%Z then (d - n)%Z else d.

(** The nearest-sample index without reduction modulo the sample count. *)
Definition sector (p spr : Q) (n : Z) : Z :=
  Qfloor ((p + spr / inject_Z n / 2) / (spr / inject_Z n)).

(** The reads of a decode cycle. What a read adds to the buffer: *)
Definition bytes_of (o : option byte) : list byte :=
  match o with Some b => [b] | None => [] end.

Definition received (l : list (option byte)) : list byte := flat_map bytes_of l.

Definition is_idle (o : option byte) : bool :=
  match o with None => true | Some _ => false end.

Definition is_close (o : option byte) : bool :=
  match o with Some b => Byte.eqb b Arduino.close_brace | None => false end.

(** The number of reads among [l] that add nothing. *)
Definition idles (l : list (option byte)) : nat := List.length (filter is_idle l).

(** No read of [l] delivers the closing brace. *)
Definition no_close (l : list (option byte)) : bool :=
  forallb (fun o => negb (is_close o)) l.

(** The number of reads that add nothing before the closing brace
    arrives; [None] when the script ends without one, after which the
    port stays idle for ever. *)
Fixpoint idle_before_close (l : list (option byte)) : option nat :=
  match l with
  | [] => None
  | o :: l' =>
      if is_close o then Some O
      else match idle_before_close l' with
           | Some k => Some (if is_idle o then S k else k)
           | None => None
           end
  end.

(** The idle reads reach the limit [ra] before a closing brace. *)
Definition limit_reached (ra : Z) (l : list (option byte)) : Prop :=
  match idle_before_close l with
  | Some k => (ra <= Z.of_nat k)%Z
  | None => True
  end.

(** The client after the reads [done] have been made, with [rest] still
    to come. *)
Definition consumed (done rest : list (option byte)) (a : ArduinoController)
    : ArduinoController :=
  Arduino.with_inst
    (fun s => {| baudrate := baudrate s; is_open := is_open s;
                 pending := rest;
                 wire := wire s ++ map (fun o => ReadBytes (bytes_of o)) done |})
    a.

(** What the next call of [read()] meets: the head of the script, or an
    idle port once the script is over. *)
Definition next (l : list (option byte)) : option byte * list (option byte) :=
  match l with
  | [] => (None, [])
  | o :: rest => (o, rest)
  end.

(** The loop variables after one more read [o]. *)
Definition after_read (o : option byte) (v : Arduino.loop_vars) : Arduino.loop_vars :=
  {| Arduino.curr := Some (bytes_of o);
     Arduino.resp := Arduino.resp v ++ bytes_of o;
     Arduino.resp_len := List.length (Arduino.resp v ++ bytes_of o);
     Arduino.attempts := if is_idle o then (Arduino.attempts v + 1)%Z
                         else Arduino.attempts v |}.

(** [json.loads( resp )] as the last statement of [read_response]. *)
Definition decoded {decoder : JsonDecoder} (buf : list byte) : outcome json :=
  match json_loads buf with
  | Some j => Ok j
  | None => Raise JSONDecodeError
  end.

(** The variables of [read_response] before the loop. *)
Definition start : Arduino.loop_vars :=
  {| Arduino.curr := None; Arduino.resp := []; Arduino.resp_len := 0;
     Arduino.attempts := 0 |}.

(** A position in the range of one revolution. *)
Definition in_revolution (v : json) (spr : Q) : Prop :=
  exists p : Q, v = JNum p /\ 0 <= p /\ p < spr.

(** A number with an integral value. *)
Definition integral (q : Q) : Prop := exists z : Z, q == inject_Z z.

(** The position [move] stores. *)
Definition wrapped (p steps spr : Q) : Q :=
  (p + steps) - inject_Z (Qfloor ((p + steps) / spr)) * spr.

(** The longest run of consecutive reads that added nothing. *)
Fixpoint idle_run (cur best : nat) (w : list event) : nat :=
  match w with
  | [] => Nat.max cur best
  | ReadBytes [] :: w' => idle_run (S cur) best w'
  | _ :: w' => idle_run O (Nat.max cur best) w'
  end.

Definition longest_idle_run (w : list event) : nat := idle_run O O w.

End Spec.

(** ** Where the arithmetic of the code is exact *)

(** The numbers of the code are Python's [int]s, which are exact, and
    [float]s, which are binary64: [/] gives a [float], and [+], [*] and
    [%] give one as soon as an operand is one. The embedding computes
    with the exact rationals, and the two agree on the integers of
    moderate size. When the position, the steps and [SPR] are integers
    of magnitude at most [2^48] and [SPR] is a whole multiple of the
    sample count, the width [SPR / samples] is an integer, the half
    width, the sums and the remainders the code forms are multiples of
    [1/2] below [2^52], which binary64 represents and its operations
    return unrounded, and the one quotient that is rounded,
    [( position + offset ) / s_width] in [sample], is a multiple of
    [1 / (2 * s_width)], too far from the next integer for the rounding
    to reach it: this is [binary64_sample_is_exact],
    [binary64_move_is_exact] and [binary64_goto_is_exact]. Elsewhere the code rounds and the
    embedding does not, as in [binary64_sample_rounds_on_a_boundary]:
    with 6 samples and 200 steps per revolution the width is
    [33.333333333333336] for the code. *)
Module Exact.

Definition limit : Z := 2 ^ 48.

(** An integer of magnitude at most [limit], as an [int] or a [float]. *)
Definition small_int (q : Q) : Prop :=
  exists z : Z, q == inject_Z z /\ (- limit <= z <= limit)%Z.

(** The revolution is [n] sectors of a whole number of steps each. *)
Definition whole_sectors (spr : Q) (n : Z) : Prop :=
  exists w : Z, spr == inject_Z (n * w).

(** The motor position the specification describes: an integer in the
    half-open range [[0, spr)]. *)
Definition step_of_revolution (v : json) (spr : Q) : Prop :=
  exists p : Q, v = JNum p /\ Spec.integral p /\ 0 <= p /\ p < spr.

End Exact.

(** ** Binary64 *)

(** The arithmetic of [sample], [step] and [move] as the code runs it on
    [float]s: every operation gives what a rounding [fl] to binary64
    makes of the exact result. An [int] operand is converted to a
    [float] first, which does not change it below [2^53]. *)
Module Binary64.

(** [m * 2^e]. *)
Definition scaled (m e : Z) : Q := inject_Z m * 2 ^ e.

(** The binary64 numbers: a mantissa of 53 bits and the exponents from
    the least subnormal to the greatest normal number. *)
Definition representable (q : Q) : Prop :=
  exists m e : Z, (Z.abs m < 2 ^ 53)%Z /\ (-1074 <= e <= 971)%Z /\ q == scaled m e.

(** What is used of the rounding: it leaves the binary64 numbers as
    they are and it is monotone, as rounding to nearest is. *)
Record rounding (fl : Q -> Q) : Prop := Rounding {
  fixes : forall q : Q, representable q -> fl q == q;
  monotone : forall x y : Q, x <= y -> fl x <= fl y
}.

(** The greatest [e] with [2^e <= |q|], for [q] other than zero. *)
Definition exponent (q : Q) : Z :=
  let e := (Z.log2 (Z.abs (Qnum q)) - Z.log2 (Zpos (Qden q)))%Z in
  if Qle_bool (2 ^ e) (Qabs q) then e else (e - 1)%Z.

(** The nearest integer, the even one of two that are as near. *)
Definition rint (s : Q) : Z :=
  let f := Qfloor s in
  match Qcompare (s - inject_Z f) (1 # 2) with
  | Lt => f
  | Gt => (f + 1)%Z
  | Eq => if Z.even f then f else (f + 1)%Z
  end.

(** The binary64 numbers next to [q] are the multiples of [2^grid q]. *)
Definition grid (q : Q) : Z := Z.max (exponent q - 52) (-1074).

(** Rounding to nearest, ties to even, the rounding of Python's
    [float] arithmetic: to 53 bits of mantissa, or to the multiples of
    the least subnormal number. The overflow, above the greatest
    binary64 number, is left out. *)
Definition nearest (q : Q) : Q :=
  if Qeq_bool q 0 then 0 else scaled (rint (q / 2 ^ grid q)) (grid q).

Section Operations.

Variable fl : Q -> Q.

(** The body of the property [sample] for a known position. *)
Definition sample (position SPR : Q) (samples : Z) : Z :=
  let s_width := fl (SPR / inject_Z samples) in
  let offset := fl (s_width / 2) in
  let sample := fl (fl (position + offset) / s_width) in
  Qfloor sample.

(** [num*( self.SPR/ self.samples )] in [step]. *)
Definition steps (num : Z) (SPR : Q) (samples : Z) : Q :=
  fl (inject_Z num * fl (SPR / inject_Z samples)).

(** The integer part, towards zero. *)
Definition truncate (q : Q) : Z := if Qle_bool 0 q then Qfloor q else Qceiling q.

(** [fmod( x, y )] of the C library: the remainder of the division
    truncated towards zero, a binary64 number that needs no rounding. *)
Definition fmod (x y : Q) : Q := x - inject_Z (truncate (x / y)) * y.

(** [x % y] on [float]s, for [y] other than zero: [fmod( x, y )], to
    which [y] is added when it is not zero and not of the sign of [y]. *)
Definition rem (x y : Q) : Q :=
  let m := fmod x y in
  if Qeq_bool m 0 then 0
  else if xorb (negb (Qle_bool 0 y)) (negb (Qle_bool 0 m)) then fl (m + y) else m.

(** [( self.position + steps )% self.SPR] in [move]. *)
Definition moved (position steps SPR : Q) : Q := rem (fl (position + steps)) SPR.

End Operations.

End Binary64.

(** ** Connecting and disconnecting *)

(** [connect], [disconnect] and [connected] of the two classes. The
    outcome of a connection is its own type, for the two errors these
    methods raise themselves and the one of [serial.Serial.open()]. The
    attributes [port] and [timeout] that [connect] sets on the port
    object are not part of [Serial], and the delay of three seconds has
    no counterpart. *)
Inductive connection : Type :=
| Connected
| AlreadyConnected        (* RuntimeError 'Already connected' *)
| CannotOpen              (* serial.SerialException raised by open() *)
| DefaultSPR (spr : Q).   (* RuntimeError 'Could not get steps per rotation. ..' *)

Module ArduinoLink.

(** The property [connected]. *)
Definition connected (a : ArduinoController) : bool := is_open (inst a).

(** [available]: whether the system lets the port be opened. *)
Definition connect (available : bool) (a : ArduinoController)
    : connection * ArduinoController :=
  if is_open (inst a) then (AlreadyConnected, a)
  else
    let a' := Arduino.with_inst (SerialPort.set_baudrate (baud_ a)) a in
    if available
    then (Connected,
          Arduino.with_inst
            (fun s => {| baudrate := baudrate s; is_open := true;
                         pending := pending s; wire := wire s |}) a')
    else (CannotOpen, a').

Definition disconnect (a : ArduinoController) : ArduinoController :=
  Arduino.with_inst
    (fun s => {| baudrate := baudrate s; is_open := false;
                 pending := pending s; wire := wire s |}) a.

End ArduinoLink.

Module HolderLink.

Definition set_SPR (v : json) (h : SampleHolderController) : SampleHolderController :=
  {| base := base h; samples := samples h; position := position h;
     SPR := v; DEFAULT_SPR := DEFAULT_SPR h |}.

Section Decoder.

Context {decoder : JsonDecoder}.

(** [self.get_spr()] is [self.run( 'get_spr' )], through [__getattr__];
    the bare [except] takes every exception. *)
Definition connect (available : bool) (h : SampleHolderController)
    : connection * SampleHolderController :=
  match ArduinoLink.connect available (base h) with
  | (Connected, a) =>
      match Arduino.run "get_spr" [] a with
      | (Ok v, a') => (Connected, set_SPR v (Holder.with_base (fun _ => a') h))
      | (Raise _, a') =>
          (DefaultSPR (DEFAULT_SPR h),
           set_SPR (JNum (DEFAULT_SPR h)) (Holder.with_base (fun _ => a') h))
      end
  | (other, a) => (other, Holder.with_base (fun _ => a) h)
  end.

(** [disconnect] is inherited. *)
Definition disconnect (h : SampleHolderController) : SampleHolderController :=
  Holder.with_base ArduinoLink.disconnect h.

(** Calls in sequence, up to the first that raises. *)
Fixpoint perform_all (ops : list Holder.operation) : M SampleHolderController unit :=
  match ops with
  | [] => ret tt
  | o :: rest => Holder.perform o ;; perform_all rest
  end.

End Decoder.

End HolderLink.

(** ** More of the wire and of the example device *)

Module Wire.

(** The commands written so far, with their terminators. *)
Definition frames (s : Serial) : list frame :=
  flat_map (fun e => match e with
                     | Wrote f => [f]
                     | ReadBytes _ => []
                     end) (wire s).

(** [a'] is [a] after some exchanges: the settings are the same and
    every command written since carries the terminator of [a]. *)
Definition continues (a a' : ArduinoController) : Prop :=
  port_ a' = port_ a /\ baud_ a' = baud_ a /\ timeout_ a' = timeout_ a /\
  read_attempts a' = read_attempts a /\
  termination_char a' = termination_char a /\
  is_open (inst a') = is_open (inst a) /\
  baudrate (inst a') = baudrate (inst a) /\
  exists new : list frame,
    frames (inst a') = (frames (inst a) ++ new)%list /\
    Forall (fun f => cmd_term f = termination_char a) new.

(** [h'] is [h] after some operations: same sample count, [SPR] and
    default [SPR], and a client that continues the one before. *)
Definition same_holder (h h' : SampleHolderController) : Prop :=
  samples h' = samples h /\ SPR h' = SPR h /\ DEFAULT_SPR h' = DEFAULT_SPR h /\
  continues (base h) (base h').

(** A reply with a number as payload, written in decimal digits. *)
Definition ok_num (command digits : string) (n : Z) : Firmware.reply :=
  {| Firmware.r_status := "ok"; Firmware.r_command := command;
     Firmware.r_response := Some (list_byte_of_string digits, JNum (inject_Z n)) |}.

Definition catalogue : list Firmware.reply :=
  (Firmware.catalogue
   ++ [ Firmware.ok "enable"; Firmware.failed "offset"; Firmware.failed "get_spr";
        ok_num "get_spr" "400" 400; ok_num "get_pos" "450" 450;
        ok_num "is_enabled" "1" 1 ])%list.

(** [json.loads] on the texts of this catalogue. *)
Definition loads : JsonDecoder :=
  fun bs =>
    match find (fun r => Firmware.bytes_eqb (Firmware.text r) bs) catalogue with
    | Some r => Some (Firmware.value r)
    | None => None
    end.

(** [json.loads] on the one text [{}]. *)
Definition loads_empty_object : JsonDecoder :=
  fun bs => if Firmware.bytes_eqb bs [x7b; x7d] then Some (JObj []) else None.

End Wire.

(** ** class SampleHolderInterface: the target of [step] *)

(** The part of [SampleHolderInterface.step] between the guard on
    [is_enabled] and the call of [goto]: from the list [occupied] of the
    checked sample numbers, the current [sample] of the holder and the
    number of occupied positions to step, the sample handed to [goto].
    The current sample is a number (the position is known) and [step] an
    integer (the button has been translated to -1 or 1). *)
Module Interface.

Inductive stepped : Type :=
| NoSamples            (* the warning 'No samples are occupied.', and return *)
| ValueError           (* raised by list.index *)
| IndexError           (* raised by a subscript out of range *)
| Goto (target : Z).   (* self.goto( new ) *)

(** [l.index( x )] *)
Fixpoint index (x : Z) (l : list Z) : option nat :=
  match l with
  | [] => None
  | y :: l' => if (y =? x)%Z then Some O else option_map S (index x l')
  end.

(** [l.sort()] on integers *)
Fixpoint insert (x : Z) (l : list Z) : list Z :=
  match l with
  | [] => [x]
  | y :: l' => if (x <=? y)%Z then x :: l else y :: insert x l'
  end.

Fixpoint sort (l : list Z) : list Z :=
  match l with
  | [] => []
  | x :: l' => insert x (sort l')
  end.

(** [l[ k ]] for [k >= 0] *)
Definition item (l : list Z) (k : Z) : option Z := nth_error l (Z.to_nat k).

Definition step_target (occupied : list Z) (sample step : Z) : stepped :=
  match occupied with
  | [] => NoSamples
  | _ =>
      let len := Z.of_nat (List.length occupied) in
      let finish (curr : nat) (step : Z) :=
        match item occupied ((Z.of_nat curr + step) mod len) with
        | Some new => Goto new
        | None => IndexError
        end in
      match index sample occupied with
      | Some curr => finish curr step
      | None =>
          let occ := sort (occupied ++ [sample]) in
          let sign := if (step >? 0)%Z then 1%Z else if (step <? 0)%Z then (-1)%Z else 0%Z in
          match index sample occ with
          | None => ValueError
          | Some i =>
              match item occ ((Z.of_nat i + sign) mod Z.of_nat (List.length occ)) with
              | None => IndexError
              | Some near =>
                  match index near occupied with
                  | None => ValueError
                  | Some curr => finish curr (step + - sign * 1)%Z
                  end
              end
          end
      end
  end.

End Interface.

(** * Properties *)

Import Firmware.
Import Spec.

(** The combinators of [M] unfolded. *)
Ltac unfold_py :=
  unfold bind, gets, modify, lift, ret, raise in *.

(** Linear arithmetic over [Q] with the halves written as products. *)
Ltac halve :=
  repeat match goal with
         | |- context [?x / 2] => change (x / 2) with (x * (1 # 2))
         | H : context [?x / 2] |- _ => change (x / 2) with (x * (1 # 2)) in H
         end.

Ltac qlra := halve; lra.

(** ** [run] *)

Section RunResult.

Context {decoder : JsonDecoder}.

Lemma run_unfold (name : string) (args : list json) (self : ArduinoController) :
  Arduino.run name args self =
  match Arduino.write_command name args self with
  | (Ok _, self1) =>
      match Arduino.read_response self1 with
      | (Ok resp, self2) =>
          match getitem resp "status" with
          | Ok status =>
              if eq_str status "error" then
                match getitem resp "command" with
                | Ok command => (Raise (CommandFailed command), self2)
                | Raise e => (Raise e, self2)
                end
              else
                match resp with
                | JObj keys =>
                    (match assoc "response" keys, assoc "id" keys with
                     | Some r, Some i =>
                         Ok (JObj [("response"%string, r); ("id"%string, i)])
                     | Some r, None => Ok r
                     | None, Some i => Ok i
                     | None, None => Ok JNull
                     end, self2)
                | _ => (Raise TypeError, self2)
                end
          | Raise e => (Raise e, self2)
          end
      | (Raise e, self2) => (Raise e, self2)
      end
  | (Raise e, self1) => (Raise e, self1)
  end.
Proof.
  unfold Arduino.run. unfold_py.
  destruct (Arduino.write_command name args self) as [[[]|e] self1]; [|reflexivity].
  destruct (Arduino.read_response self1) as [[resp|e] self2]; [|reflexivity].
  destruct (getitem resp "status") as [status|e]; [|reflexivity].
  destruct (eq_str status "error").
  - destruct (getitem resp "command"); reflexivity.
  - destruct resp; try reflexivity.
    destruct (assoc "response" kv), (assoc "id" kv); reflexivity.
Qed.

(** C6. When the response decoded for an invocation is an object with
    the fields [status] and [command], [run] raises the command error
    naming the echoed command if the status is [error], and otherwise
    returns the pair of [response] and [id] when both keys are present,
    the value of the one present, and [None] when neither is. *)
Theorem run_returns_invoke_result :
  forall (name : string) (args : list json) (self self1 self2 : ArduinoController)
         (kv : list (string * json)) (status command : json),
    Arduino.write_command name args self = (Ok tt, self1) ->
    Arduino.read_response self1 = (Ok (JObj kv), self2) ->
    assoc "status" kv = Some status ->
    assoc "command" kv = Some command ->
    Arduino.run name args self =
      (Spec.invoke_result status command (assoc "response" kv) (assoc "id" kv), self2).
Proof.
  intros name args self self1 self2 kv status command Hw Hr Hs Hc.
  rewrite run_unfold, Hw, Hr. simpl. rewrite Hs, Hc.
  unfold Spec.invoke_result.
  destruct (eq_str status "error"); [reflexivity|].
  destruct (assoc "response" kv), (assoc "id" kv); reflexivity.
Qed.

End RunResult.

Lemma run_returns_invoke_result_witness :
  fst (@Arduino.run loads "move" [JNum 5]
         (base (holder 10 200 (JNum 50) (stream [failed "move"]))))
  = Raise (CommandFailed (JStr "move")).
Proof.
  set (self := base (holder 10 200 (JNum 50) (stream [failed "move"]))).
  set (self1 := snd (Arduino.write_command "move" [JNum 5] self)).
  set (self2 := snd (@Arduino.read_response loads self1)).
  rewrite (@run_returns_invoke_result loads "move" [JNum 5] self self1 self2
             [("status"%string, JStr "error"); ("command"%string, JStr "move")]
             (JStr "error") (JStr "move")).
  - reflexivity.
  - reflexivity.
  - vm_compute. reflexivity.
  - reflexivity.
  - reflexivity.
Defined.

(** ** Arithmetic of the sectors *)

Lemma Qfloor_div_ge (y w : Q) (k : Z) :
  0 < w -> inject_Z k * w <= y -> (k <= Qfloor (y / w))%Z.
Proof.
  intros Hw Hk.
  rewrite <- (Qfloor_Z k). apply Qfloor_resp_le.
  apply Qle_shift_div_l; assumption.
Qed.

Lemma Qfloor_div_lt (y w : Q) (k : Z) :
  0 < w -> y < inject_Z (k + 1) * w -> (Qfloor (y / w) <= k)%Z.
Proof.
  intros Hw Hk.
  assert (H : (Qfloor (y / w) < k + 1)%Z).
  { rewrite Zlt_Qlt. eapply Qle_lt_trans; [apply Qfloor_le|].
    apply Qlt_shift_div_r; assumption. }
  lia.
Qed.

Lemma Qfloor_div_eq (y w : Q) (k : Z) :
  0 < w -> inject_Z k * w <= y -> y < inject_Z (k + 1) * w -> Qfloor (y / w) = k.
Proof.
  intros Hw H1 H2.
  pose proof (Qfloor_div_ge y w k Hw H1). pose proof (Qfloor_div_lt y w k Hw H2). lia.
Qed.

Lemma width_pos (spr : Q) (n : Z) : 0 < spr -> (0 < n)%Z -> 0 < spr / inject_Z n.
Proof.
  intros Hs Hn. apply Qlt_shift_div_l.
  - change 0 with (inject_Z 0). rewrite <- Zlt_Qlt. exact Hn.
  - rewrite Qmult_0_l. exact Hs.
Qed.

Lemma width_times (spr : Q) (n : Z) :
  (0 < n)%Z -> inject_Z n * (spr / inject_Z n) == spr.
Proof.
  intros Hn. field. intro H.
  assert (Hlt : 0 < inject_Z n) by (change 0 with (inject_Z 0); rewrite <- Zlt_Qlt; exact Hn).
  rewrite H in Hlt. discriminate Hlt.
Qed.

Lemma Qeq_bool_pos (x : Q) : 0 < x -> Qeq_bool x 0 = false.
Proof.
  intros Hx. destruct (Qeq_bool x 0) eqn:E; [|reflexivity].
  apply Qeq_bool_eq in E. rewrite E in Hx. discriminate Hx.
Qed.

(** ** Integers of moderate size *)

Lemma small_int_inject (z : Z) :
  (- Exact.limit <= z <= Exact.limit)%Z -> Exact.small_int (inject_Z z).
Proof. intros Hz. exists z. split; [reflexivity|exact Hz]. Qed.

Lemma small_int_integral (q : Q) : Exact.small_int q -> integral q.
Proof. intros (z & Hz & _). exists z. exact Hz. Qed.

Lemma whole_sectors_inject (n w : Z) : Exact.whole_sectors (inject_Z (n * w)) n.
Proof. exists w. reflexivity. Qed.

(** ** The property [sample] *)

Lemma sample_state (self : SampleHolderController) : snd (Holder.sample self) = self.
Proof.
  unfold Holder.sample. unfold_py.
  destruct (position self); try reflexivity;
    destruct (as_num (SPR self)); try reflexivity;
    destruct (truediv _ (inject_Z (samples self))) as [w|]; try reflexivity;
    destruct (truediv w 2); try reflexivity;
    simpl; try destruct (truediv _ w); reflexivity.
Qed.

Lemma sample_number (self : SampleHolderController) (p spr : Q) :
  position self = JNum p -> SPR self = JNum spr -> 0 < spr -> (0 < samples self)%Z ->
  Holder.sample self = (Ok (Some (Spec.sector p spr (samples self))), self).
Proof.
  intros Hp Hs Hspr Hn.
  pose proof (width_pos spr (samples self) Hspr Hn) as Hw.
  unfold Holder.sample. unfold_py. rewrite Hp, Hs. simpl.
  unfold truediv at 1.
  rewrite Qeq_bool_pos
    by (change 0 with (inject_Z 0); rewrite <- Zlt_Qlt; exact Hn).
  unfold truediv at 1. simpl Qeq_bool.
  unfold truediv. rewrite (Qeq_bool_pos _ Hw). reflexivity.
Qed.

Lemma sector_range (p spr : Q) (n : Z) :
  0 < spr -> (0 < n)%Z -> 0 <= p -> p < spr ->
  (0 <= Spec.sector p spr n <= n)%Z.
Proof.
  intros Hspr Hn H0 H1.
  pose proof (width_pos spr n Hspr Hn) as Hw.
  pose proof (width_times spr n Hn) as Hnw.
  unfold Spec.sector. set (w := spr / inject_Z n) in *.
  split.
  - apply Qfloor_div_ge; [exact Hw|]. change (inject_Z 0) with 0. qlra.
  - apply Qfloor_div_lt; [exact Hw|].
    rewrite inject_Z_plus, Qmult_plus_distr_l, Hnw. change (inject_Z 1) with 1. qlra.
Qed.

Lemma sector_last (p spr : Q) (n : Z) :
  0 < spr -> (0 < n)%Z -> spr - spr / inject_Z n / 2 <= p -> p < spr ->
  Spec.sector p spr n = n.
Proof.
  intros Hspr Hn H0 H1.
  pose proof (width_pos spr n Hspr Hn) as Hw.
  pose proof (width_times spr n Hn) as Hnw.
  unfold Spec.sector. set (w := spr / inject_Z n) in *.
  apply Qfloor_div_eq; [exact Hw| |].
  - rewrite Hnw. qlra.
  - rewrite inject_Z_plus, Qmult_plus_distr_l, Hnw. change (inject_Z 1) with 1. qlra.
Qed.

(** C1, as the code has it. For an integral motor position [p] and an
    [SPR > 0] that is a whole multiple of [samples > 0], both of
    magnitude at most [2^48], the property [sample] is
    [floor((p + width/2) / width)] with [width = SPR / samples], without
    a reduction modulo [samples]: for [0 <= p < SPR] it lies in
    [[0, samples]], and it is [samples] itself on the last half sector,
    [SPR - width/2 <= p < SPR]. *)
Theorem sample_is_unreduced_sector :
  forall (self : SampleHolderController) (p spr : Q),
    position self = JNum p -> SPR self = JNum spr ->
    0 < spr -> (0 < samples self)%Z ->
    Exact.small_int p -> Exact.small_int spr ->
    Exact.whole_sectors spr (samples self) ->
    Holder.sample self = (Ok (Some (Spec.sector p spr (samples self))), self) /\
    (0 <= p -> p < spr ->
       (0 <= Spec.sector p spr (samples self) <= samples self)%Z) /\
    (spr - spr / inject_Z (samples self) / 2 <= p -> p < spr ->
       Spec.sector p spr (samples self) = samples self).
Proof.
  intros self p spr Hp Hs Hspr Hn _ _ _.
  split; [apply sample_number; assumption|].
  split; intros H0 H1.
  - apply sector_range; assumption.
  - apply sector_last; assumption.
Qed.

Lemma sample_is_unreduced_sector_witness :
  Holder.sample (holder 10 200 (JNum 195) []) =
    (Ok (Some 10%Z), holder 10 200 (JNum 195) []).
Proof.
  destruct (sample_is_unreduced_sector (holder 10 200 (JNum 195) []) 195 200
              eq_refl eq_refl eq_refl eq_refl
              (small_int_inject 195 ltac:(vm_compute; split; discriminate))
              (small_int_inject 200 ltac:(vm_compute; split; discriminate))
              (whole_sectors_inject 10 20)) as (Hsample & _ & Hlast).
  rewrite Hsample. rewrite Hlast; [reflexivity| |]; vm_compute; congruence.
Defined.

(** C1 as it is stated fails at position 195 with 10 samples and 200
    steps per revolution: the property is 10, which is neither
    [floor(205/20) mod 10 = 0] nor below the sample count. *)
Lemma sample_at_195_is_not_reduced :
  let self := holder 10 200 (JNum 195) [] in
  fst (Holder.sample self) = Ok (Some 10%Z) /\
  fst (Holder.sample self)
    <> Ok (Some ((Qfloor ((195 + 200 / 10 / 2) / (200 / 10))) mod 10)%Z) /\
  ~ (exists s : Z, fst (Holder.sample self) = Ok (Some s) /\ (0 <= s < 10)%Z).
Proof.
  vm_compute. split; [reflexivity|]. split.
  - intro H. discriminate H.
  - intros (s & Hs & _ & Hlt). inversion Hs; subst. discriminate Hlt.
Qed.

(** ** [goto] *)

Lemma half_le (a n : Z) : inject_Z a <= inject_Z n / 2 <-> (2 * a <= n)%Z.
Proof.
  unfold Qle, Qdiv, Qmult, Qinv, inject_Z. cbn -[Z.mul]. lia.
Qed.

Lemma goto_steps_shortest (num cur n : Z) :
  (0 < n)%Z -> Holder.goto_steps num cur n = Ok (Spec.shortest num cur n).
Proof.
  intros Hn. unfold Holder.goto_steps, imod, Spec.shortest.
  destruct (Z.eqb_spec n 0) as [E|_]; [lia|].
  unfold truediv. change (Qeq_bool 2 0) with false. cbv iota.
  unfold gt. set (d := ((num - cur) mod n)%Z).
  destruct (Qle_bool (inject_Z d) (inject_Z n / 2)) eqn:E; cbn [negb];
    destruct (Z.ltb_spec n (2 * d)) as [H|H]; try reflexivity; exfalso.
  - apply Qle_bool_iff, half_le in E. lia.
  - assert (Qle_bool (inject_Z d) (inject_Z n / 2) = true) as E'
        by (apply Qle_bool_iff, half_le; assumption).
    congruence.
Qed.

Lemma shortest_bound (num cur n : Z) :
  (0 < n)%Z -> (2 * Z.abs (Spec.shortest num cur n) <= n)%Z.
Proof.
  intros Hn. unfold Spec.shortest.
  pose proof (Z.mod_pos_bound (num - cur) n Hn) as Hd.
  destruct (Z.ltb_spec n (2 * ((num - cur) mod n))); lia.
Qed.

Section Goto.

Context {decoder : JsonDecoder}.

Lemma goto_delegates (self : SampleHolderController) (num cur : Z) :
  (0 < samples self)%Z ->
  (0 <= num <= samples self)%Z ->
  fst (Holder.sample self) = Ok (Some cur) ->
  Holder.goto num self = Holder.step (Spec.shortest num cur (samples self)) self.
Proof.
  intros Hn Hnum Hcur.
  unfold Holder.goto. unfold_py.
  destruct (Z.ltb_spec num 0); [lia|].
  destruct (Z.gtb_spec num (samples self)); [lia|]. simpl.
  pose proof (sample_state self) as Hst.
  destruct (Holder.sample self) as [r st]. simpl in Hcur, Hst. subst r st.
  rewrite goto_steps_shortest by exact Hn. reflexivity.
Qed.

(** C4. From the current sample [cur], [goto num] with
    [0 <= num <= samples] hands to [step] the distance
    [d = (num - cur) mod samples], less [samples] when [d] exceeds
    [samples / 2]; the distance handed over is at most [samples / 2] in
    absolute value. *)
Theorem goto_takes_shortest_path :
  forall (self : SampleHolderController) (num cur : Z),
    (0 < samples self)%Z ->
    (0 <= num <= samples self)%Z ->
    fst (Holder.sample self) = Ok (Some cur) ->
    Holder.goto_steps num cur (samples self)
      = Ok (Spec.shortest num cur (samples self)) /\
    Holder.goto num self = Holder.step (Spec.shortest num cur (samples self)) self /\
    inject_Z (Z.abs (Spec.shortest num cur (samples self)))
      <= inject_Z (samples self) / 2.
Proof.
  intros self num cur Hn Hnum Hcur.
  split; [apply goto_steps_shortest, Hn|].
  split; [apply goto_delegates; assumption|].
  apply half_le, shortest_bound, Hn.
Qed.

End Goto.

Lemma goto_takes_shortest_path_witness :
  let self := holder 10 200 (JNum 40)
                (stream [ok_str "is_enabled" "1"; ok "move"]) in
  fst (Holder.sample self) = Ok (Some 2%Z) /\
  @Holder.goto loads 8 self = @Holder.step loads (-4) self /\
  sent (inst (base (snd (@Holder.goto loads 8 self))))
    = [("is_enabled"%string, []); ("move"%string, [JNum (inject_Z (-4) * (200 / 10))])].
Proof.
  intros self.
  destruct (@goto_takes_shortest_path loads self 8 2) as (_ & Hgoto & _).
  - reflexivity.
  - split; discriminate.
  - reflexivity.
  - split; [reflexivity|]. split; [exact Hgoto|].
    vm_compute. reflexivity.
Defined.

(** ** [read_response] *)

Lemma consumed_consumed (d1 r1 d2 r2 : list (option byte)) (a : ArduinoController) :
  consumed d2 r2 (consumed d1 r1 a) = consumed (d1 ++ d2) r2 a.
Proof.
  unfold consumed, Arduino.with_inst. simpl.
  rewrite map_app, app_assoc. reflexivity.
Qed.

Lemma read_next (self : ArduinoController) :
  is_open (inst self) = true ->
  Arduino.on_inst SerialPort.read self =
    (Ok (bytes_of (fst (next (pending (inst self))))),
     consumed [fst (next (pending (inst self)))] (snd (next (pending (inst self)))) self).
Proof.
  intros Hopen. unfold Arduino.on_inst, SerialPort.read. rewrite Hopen.
  destruct (pending (inst self)) as [|[b|] rest]; reflexivity.
Qed.

Lemma read_closed (self : ArduinoController) :
  is_open (inst self) = false ->
  fst (Arduino.on_inst SerialPort.read self) = Raise PortNotOpenError.
Proof.
  intros Hclosed. unfold Arduino.on_inst, SerialPort.read. rewrite Hclosed. reflexivity.
Qed.

Lemma length_app_bytes (r : list byte) (o : option byte) :
  Nat.eqb (List.length (r ++ bytes_of o)) (List.length r) = is_idle o.
Proof.
  rewrite length_app. destruct o; simpl.
  - apply Nat.eqb_neq. lia.
  - apply Nat.eqb_eq. lia.
Qed.

Lemma read_loop_iter (budget : nat) (v : Arduino.loop_vars) (self : ArduinoController) :
  is_open (inst self) = true ->
  Arduino.not_close (Arduino.curr v) = true ->
  (Arduino.attempts v < read_attempts self)%Z ->
  Arduino.resp_len v = List.length (Arduino.resp v) ->
  Arduino.read_loop (S budget) v self =
    Arduino.read_loop budget
      (after_read (fst (next (pending (inst self)))) v)
      (consumed [fst (next (pending (inst self)))] (snd (next (pending (inst self)))) self).
Proof.
  intros Hopen Hcurr Hatt Hlen.
  cbn [Arduino.read_loop]. rewrite Hcurr.
  destruct (Z.ltb_spec (Arduino.attempts v) (read_attempts self)) as [_|]; [|lia].
  cbn [andb]. rewrite (read_next self Hopen).
  rewrite Hlen, length_app_bytes. reflexivity.
Qed.

Lemma read_loop_exit (budget : nat) (v : Arduino.loop_vars) (self : ArduinoController) :
  Arduino.not_close (Arduino.curr v) = false \/
    (read_attempts self <= Arduino.attempts v)%Z ->
  Arduino.read_loop budget v self = (Ok v, self).
Proof.
  intros H.
  assert (E : Arduino.not_close (Arduino.curr v)
              && (Arduino.attempts v <? read_attempts self)%Z = false).
  { destruct H as [H|H]; [rewrite H; reflexivity|].
    apply andb_false_iff. right. apply Z.ltb_ge. exact H. }
  destruct budget; cbn [Arduino.read_loop]; rewrite E; reflexivity.
Qed.

Lemma consumed_nothing (self : ArduinoController) :
  consumed [] (pending (inst self)) self = self.
Proof.
  destruct self as [p b t [sb so spend sw] d ra tc].
  unfold consumed, Arduino.with_inst. simpl. rewrite app_nil_r. reflexivity.
Qed.

Lemma received_app (l1 l2 : list (option byte)) :
  received (l1 ++ l2) = (received l1 ++ received l2)%list.
Proof. unfold received. apply flat_map_app. Qed.

Lemma received_idle (k : nat) : received (repeat None k) = [].
Proof. induction k; [reflexivity|exact IHk]. Qed.

Lemma idles_cons (o : option byte) (l : list (option byte)) :
  idles (o :: l) = ((if is_idle o then 1 else 0) + idles l)%nat.
Proof. unfold idles. simpl. destruct (is_idle o); reflexivity. Qed.

Lemma not_close_after (o : option byte) :
  Arduino.not_close (Some (bytes_of o)) = negb (is_close o).
Proof. destruct o; reflexivity. Qed.

(** On a port that stays idle the loop makes the reads that are left to
    reach [read_attempts], and no more. *)
Lemma read_loop_idle (k : nat) :
  forall (m budget : nat) (v : Arduino.loop_vars) (self : ArduinoController),
    is_open (inst self) = true ->
    pending (inst self) = repeat None m ->
    Arduino.not_close (Arduino.curr v) = true ->
    Arduino.resp_len v = List.length (Arduino.resp v) ->
    (read_attempts self - Arduino.attempts v = Z.of_nat k)%Z ->
    (k <= budget)%nat ->
    exists v',
      Arduino.read_loop budget v self =
        (Ok v', consumed (repeat None k) (repeat None (m - k)) self) /\
      Arduino.resp v' = Arduino.resp v /\
      Arduino.attempts v' = read_attempts self.
Proof.
  induction k as [|k IH]; intros m budget v self Hopen Hpend Hcurr Hlen Hk Hb.
  - exists v. rewrite read_loop_exit by (right; lia).
    rewrite Nat.sub_0_r, <- Hpend, consumed_nothing.
    repeat split. lia.
  - destruct budget as [|budget]; [lia|].
    rewrite read_loop_iter by (assumption || lia).
    assert (Hnext : next (pending (inst self)) = (None, repeat None (m - 1))).
    { rewrite Hpend. destruct m; simpl; [reflexivity|]. rewrite Nat.sub_0_r. reflexivity. }
    rewrite Hnext. cbn [fst snd].
    destruct (IH (m - 1)%nat budget (after_read None v)
                (consumed [None] (repeat None (m - 1)) self))
      as (v' & Hloop & Hresp & Hatt).
    + exact Hopen.
    + reflexivity.
    + reflexivity.
    + reflexivity.
    + cbn. lia.
    + lia.
    + exists v'. rewrite Hloop, consumed_consumed.
      replace (m - 1 - k)%nat with (m - S k)%nat by lia.
      split; [reflexivity|]. split.
      * rewrite Hresp. cbn. apply app_nil_r.
      * exact Hatt.
Qed.

(** Up to the closing brace: the loop stops right after the read that
    delivers it. *)
Lemma read_loop_until_close (pre : list (option byte)) :
  forall (post : list (option byte)) (budget : nat) (v : Arduino.loop_vars)
         (self : ArduinoController),
    is_open (inst self) = true ->
    pending (inst self) = (pre ++ Some Arduino.close_brace :: post)%list ->
    no_close pre = true ->
    Arduino.not_close (Arduino.curr v) = true ->
    Arduino.resp_len v = List.length (Arduino.resp v) ->
    (Arduino.attempts v + Z.of_nat (idles pre) < read_attempts self)%Z ->
    (List.length pre < budget)%nat ->
    exists v',
      Arduino.read_loop budget v self =
        (Ok v', consumed (pre ++ [Some Arduino.close_brace]) post self) /\
      Arduino.resp v' = (Arduino.resp v ++ received pre ++ [Arduino.close_brace])%list /\
      (Arduino.attempts v' < read_attempts self)%Z.
Proof.
  induction pre as [|o pre IH];
    intros post budget v self Hopen Hpend Hnc Hcurr Hlen Hatt Hb.
  - destruct budget as [|budget]; [simpl in Hb; lia|].
    rewrite read_loop_iter by (assumption || (cbn in Hatt; lia)).
    rewrite Hpend. cbn [app next fst snd].
    rewrite read_loop_exit by (left; reflexivity).
    eexists. split; [reflexivity|]. split; [reflexivity|].
    cbn in *. lia.
  - destruct budget as [|budget]; [simpl in Hb; lia|].
    rewrite idles_cons in Hatt.
    cbn [no_close forallb] in Hnc. apply andb_true_iff in Hnc as [Ho Hnc].
    rewrite read_loop_iter by (assumption || lia).
    rewrite Hpend. cbn [app next fst snd].
    destruct (IH post budget (after_read o v)
                (consumed [o] (pre ++ Some Arduino.close_brace :: post) self))
      as (v' & Hloop & Hresp & Hatt').
    + exact Hopen.
    + reflexivity.
    + exact Hnc.
    + cbn [after_read Arduino.curr]. rewrite not_close_after. exact Ho.
    + reflexivity.
    + cbn [after_read Arduino.attempts read_attempts consumed Arduino.with_inst].
      destruct (is_idle o); lia.
    + simpl in Hb. lia.
    + exists v'. rewrite Hloop, consumed_consumed.
      split; [reflexivity|]. split; [|exact Hatt'].
      rewrite Hresp. cbn [after_read Arduino.resp].
      change (received (o :: pre)) with (bytes_of o ++ received pre)%list.
      rewrite <- !app_assoc. reflexivity.
Qed.

Lemma limit_reached_cons (ra : Z) (o : option byte) (l : list (option byte)) :
  is_close o = false ->
  limit_reached ra (o :: l) <-> limit_reached (if is_idle o then ra - 1 else ra)%Z l.
Proof.
  intros Hc. unfold limit_reached. cbn [idle_before_close]. rewrite Hc.
  destruct (idle_before_close l) as [k|]; [|tauto].
  destruct (is_idle o); [|tauto]. lia.
Qed.

(** The loop in general: it ends, and ends with [attempts] at the limit
    exactly when the idle reads reach it before a closing brace. *)
Lemma read_loop_outcome (l : list (option byte)) :
  forall (budget : nat) (v : Arduino.loop_vars) (self : ArduinoController),
    is_open (inst self) = true ->
    pending (inst self) = l ->
    Arduino.not_close (Arduino.curr v) = true ->
    Arduino.resp_len v = List.length (Arduino.resp v) ->
    (Arduino.attempts v < read_attempts self)%Z ->
    (List.length l + Z.to_nat (read_attempts self - Arduino.attempts v) <= budget)%nat ->
    exists (v' : Arduino.loop_vars) (done rest : list (option byte)) (m : nat),
      Arduino.read_loop budget v self = (Ok v', consumed done rest self) /\
      Arduino.resp v' = (Arduino.resp v ++ received done)%list /\
      (done ++ rest = l ++ repeat None m)%list /\
      (Arduino.attempts v' = read_attempts self <->
       limit_reached (read_attempts self - Arduino.attempts v) l).
Proof.
  induction l as [|o l IH]; intros budget v self Hopen Hpend Hcurr Hlen Hatt Hb.
  - destruct (read_loop_idle
                (Z.to_nat (read_attempts self - Arduino.attempts v)) 0 budget v self)
      as (v' & Hloop & Hresp & Hatt'); try assumption; try lia.
    exists v', (repeat None (Z.to_nat (read_attempts self - Arduino.attempts v))), [],
      (Z.to_nat (read_attempts self - Arduino.attempts v)).
    split; [exact Hloop|]. split; [|split].
    + rewrite Hresp, received_idle, app_nil_r. reflexivity.
    + rewrite app_nil_r. reflexivity.
    + unfold limit_reached. cbn. tauto.
  - destruct budget as [|budget]; [simpl in Hb; lia|].
    rewrite read_loop_iter by assumption.
    rewrite Hpend. cbn [next fst snd].
    destruct (is_close o) eqn:Hc.
    + rewrite read_loop_exit
        by (left; cbn [after_read Arduino.curr]; rewrite not_close_after, Hc; reflexivity).
      exists (after_read o v), [o], l, 0%nat.
      split; [reflexivity|]. split; [|split].
      * cbn. rewrite app_nil_r. reflexivity.
      * cbn. rewrite app_nil_r. reflexivity.
      * unfold limit_reached. cbn [idle_before_close]. rewrite Hc.
        destruct o as [b|]; [|discriminate Hc]. cbn. lia.
    + destruct (Z.ltb_spec (Arduino.attempts (after_read o v)) (read_attempts self))
        as [Hlt|Hge].
      * destruct (IH budget (after_read o v) (consumed [o] l self))
          as (v' & done & rest & m & Hloop & Hresp & Hsplit & Hiff).
        -- exact Hopen.
        -- reflexivity.
        -- cbn [after_read Arduino.curr]. rewrite not_close_after, Hc. reflexivity.
        -- reflexivity.
        -- exact Hlt.
        -- cbn [read_attempts consumed Arduino.with_inst].
           cbn [after_read Arduino.attempts] in Hlt |- *. simpl in Hb.
           destruct (is_idle o); lia.
        -- exists v', (o :: done), rest, m.
           rewrite Hloop, consumed_consumed.
           split; [reflexivity|]. split; [|split].
           ++ rewrite Hresp. cbn [after_read Arduino.resp].
              change (received (o :: done)) with (bytes_of o ++ received done)%list.
              rewrite <- app_assoc. reflexivity.
           ++ cbn. rewrite Hsplit. reflexivity.
           ++ rewrite Hiff, (limit_reached_cons _ o l Hc).
              cbn [read_attempts consumed Arduino.with_inst after_read Arduino.attempts].
              destruct (is_idle o).
              ** replace (read_attempts self - (Arduino.attempts v + 1))%Z
                   with (read_attempts self - Arduino.attempts v - 1)%Z by lia.
                 tauto.
              ** tauto.
      * rewrite read_loop_exit by (right; exact Hge).
        exists (after_read o v), [o], l, 0%nat.
        split; [reflexivity|]. split; [|split].
        -- cbn. rewrite app_nil_r. reflexivity.
        -- cbn. rewrite app_nil_r. reflexivity.
        -- cbn [after_read Arduino.attempts] in Hge |- *.
           unfold limit_reached. cbn [idle_before_close]. rewrite Hc.
           destruct (is_idle o); [|lia].
           destruct (idle_before_close l); split; intros; try exact I; lia.
Qed.

Lemma limit_reached_nonpos (ra : Z) (l : list (option byte)) :
  (ra <= 0)%Z -> limit_reached ra l.
Proof.
  intros Hra. unfold limit_reached. destruct (idle_before_close l); [lia|exact I].
Qed.

Lemma reads_consumed (done rest : list (option byte)) (self : ArduinoController) :
  reads (inst (consumed done rest self)) = (reads (inst self) + List.length done)%nat.
Proof.
  unfold reads, consumed, Arduino.with_inst. cbn [inst wire].
  rewrite filter_app, length_app. f_equal.
  induction done as [|o done IH]; [reflexivity|]. cbn. f_equal. exact IH.
Qed.

Lemma write_command_open (name : string) (args : list json) (self : ArduinoController) :
  is_open (inst self) = true ->
  exists self1,
    Arduino.write_command name args self = (Ok tt, self1) /\
    is_open (inst self1) = true /\
    pending (inst self1) = pending (inst self) /\
    read_attempts self1 = read_attempts self /\
    reads (inst self1) = reads (inst self).
Proof.
  intros Hopen. unfold Arduino.write_command, Arduino.on_inst, SerialPort.write.
  unfold_py. rewrite Hopen. eexists. split; [reflexivity|].
  cbn. rewrite Hopen. repeat split.
  unfold reads. cbn. rewrite filter_app, length_app. cbn. lia.
Qed.

Lemma write_command_closed (name : string) (args : list json) (self : ArduinoController) :
  is_open (inst self) = false ->
  fst (Arduino.write_command name args self) = Raise PortNotOpenError.
Proof.
  intros Hclosed. unfold Arduino.write_command, Arduino.on_inst, SerialPort.write.
  unfold_py. rewrite Hclosed. reflexivity.
Qed.

Section ReadResponse.

Context {decoder : JsonDecoder}.

Lemma read_response_unfold (self : ArduinoController) :
  Arduino.read_response self =
  match Arduino.read_loop (Arduino.budget_of self) start self with
  | (Ok v, self') =>
      if (Arduino.attempts v =? read_attempts self')%Z
      then (Raise (ReadTimeout (Arduino.resp v)), self')
      else (decoded (Arduino.resp v), self')
  | (Raise e, self') => (Raise e, self')
  end.
Proof.
  unfold Arduino.read_response, decoded, start. unfold_py. cbn [List.length].
  destruct (Arduino.read_loop _ _ self) as [[v|e] self']; [|reflexivity].
  destruct (Arduino.attempts v =? read_attempts self')%Z; [reflexivity|].
  destruct (json_loads (Arduino.resp v)); reflexivity.
Qed.

Lemma decoded_not_timeout (b buf : list byte) : decoded b <> Raise (ReadTimeout buf).
Proof. unfold decoded. destruct (json_loads b); discriminate. Qed.

Lemma decoded_within_budget (b : list byte) : decoded b <> Raise LoopBudget.
Proof. unfold decoded. destruct (json_loads b); discriminate. Qed.

(** The decode cycle started on an open port with the script [l]. *)
Lemma read_response_outcome (self : ArduinoController) :
  is_open (inst self) = true -> (0 <= read_attempts self)%Z ->
  exists (v : Arduino.loop_vars) (done rest : list (option byte)) (m : nat),
    Arduino.read_response self =
      (if (Arduino.attempts v =? read_attempts self)%Z
       then Raise (ReadTimeout (received done))
       else decoded (received done),
       consumed done rest self) /\
    (done ++ rest = pending (inst self) ++ repeat None m)%list /\
    (Arduino.attempts v = read_attempts self <->
     limit_reached (read_attempts self) (pending (inst self))).
Proof.
  intros Hopen Hra. rewrite read_response_unfold.
  destruct (Z.eq_dec (read_attempts self) 0) as [E0|Hne].
  - rewrite read_loop_exit by (right; rewrite E0; cbn; lia).
    exists start, [], (pending (inst self)), 0%nat.
    rewrite E0. cbn [start Arduino.attempts Arduino.resp Z.eqb received flat_map].
    rewrite consumed_nothing.
    split; [reflexivity|]. split; [cbn; rewrite app_nil_r; reflexivity|].
    split; [intros _; apply limit_reached_nonpos; lia|reflexivity].
  - destruct (read_loop_outcome (pending (inst self)) (Arduino.budget_of self) start self)
      as (v & done & rest & m & Hloop & Hresp & Hsplit & Hiff);
      try reflexivity; try assumption.
    + cbn. lia.
    + unfold Arduino.budget_of. cbn [start Arduino.attempts].
      rewrite Z.sub_0_r. lia.
    + exists v, done, rest, m. rewrite Hloop.
      cbn [start Arduino.resp app] in Hresp. rewrite Hresp.
      cbn [start Arduino.attempts] in Hiff. rewrite Z.sub_0_r in Hiff.
      change (read_attempts (consumed done rest self)) with (read_attempts self).
      split; [|split; assumption].
      destruct (Arduino.attempts v =? read_attempts self)%Z; reflexivity.
Qed.

Lemma read_response_stops_at_close (self : ArduinoController)
    (pre post : list (option byte)) :
  is_open (inst self) = true ->
  pending (inst self) = (pre ++ Some Arduino.close_brace :: post)%list ->
  no_close pre = true ->
  (Z.of_nat (idles pre) < read_attempts self)%Z ->
  Arduino.read_response self =
    (decoded (received pre ++ [Arduino.close_brace]),
     consumed (pre ++ [Some Arduino.close_brace]) post self).
Proof.
  intros Hopen Hpend Hnc Hidle. rewrite read_response_unfold.
  destruct (read_loop_until_close pre post (Arduino.budget_of self) start self)
    as (v & Hloop & Hresp & Hatt); try reflexivity; try assumption.
  - unfold Arduino.budget_of. rewrite Hpend, length_app. cbn. lia.
  - rewrite Hloop.
    change (read_attempts (consumed _ post self)) with (read_attempts self).
    destruct (Z.eqb_spec (Arduino.attempts v) (read_attempts self)); [lia|].
    rewrite Hresp. reflexivity.
Qed.

Lemma read_response_idle_port (self : ArduinoController) (m : nat) :
  is_open (inst self) = true ->
  (0 <= read_attempts self)%Z ->
  pending (inst self) = repeat None m ->
  Arduino.read_response self =
    (Raise (ReadTimeout []),
     consumed (repeat None (Z.to_nat (read_attempts self)))
              (repeat None (m - Z.to_nat (read_attempts self))) self).
Proof.
  intros Hopen Hra Hpend. rewrite read_response_unfold.
  destruct (read_loop_idle (Z.to_nat (read_attempts self)) m
              (Arduino.budget_of self) start self)
    as (v & Hloop & Hresp & Hatt); try reflexivity; try assumption.
  - cbn. lia.
  - unfold Arduino.budget_of. lia.
  - rewrite Hloop.
    change (read_attempts (consumed _ _ self)) with (read_attempts self).
    rewrite Hatt, Z.eqb_refl, Hresp. reflexivity.
Qed.

(** C2, as the code has it. [read_response] reads one byte at a time,
    appends what each read delivers to the buffer and stops right after
    the read that delivers [}]; [attempts] counts every read that adds
    nothing and is never set back, so the read-timeout error, with the
    bytes received so far, is raised exactly when the total of such
    reads reaches [read_attempts] before a [}] arrives, consecutive or
    not. On a port that delivers nothing it is raised after exactly
    [read_attempts] reads. The loop always ends. *)
Theorem read_response_counts_every_idle_read :
  forall (self : ArduinoController),
    is_open (inst self) = true ->
    (0 <= read_attempts self)%Z ->
    ((exists buf, fst (Arduino.read_response self) = Raise (ReadTimeout buf)) <->
     limit_reached (read_attempts self) (pending (inst self))) /\
    (exists (done rest : list (option byte)) (m : nat),
       snd (Arduino.read_response self) = consumed done rest self /\
       (done ++ rest = pending (inst self) ++ repeat None m)%list /\
       (fst (Arduino.read_response self) = Raise (ReadTimeout (received done)) \/
        fst (Arduino.read_response self) = decoded (received done))) /\
    (forall pre post : list (option byte),
       pending (inst self) = (pre ++ Some Arduino.close_brace :: post)%list ->
       no_close pre = true ->
       (Z.of_nat (idles pre) < read_attempts self)%Z ->
       Arduino.read_response self =
         (decoded (received pre ++ [Arduino.close_brace]),
          consumed (pre ++ [Some Arduino.close_brace]) post self)) /\
    (forall m : nat,
       pending (inst self) = repeat None m ->
       fst (Arduino.read_response self) = Raise (ReadTimeout []) /\
       reads (inst (snd (Arduino.read_response self)))
         = (reads (inst self) + Z.to_nat (read_attempts self))%nat) /\
    (forall (m : nat) (name : string) (args : list json),
       pending (inst self) = repeat None m ->
       fst (Arduino.run name args self) = Raise (ReadTimeout []) /\
       reads (inst (snd (Arduino.run name args self)))
         = (reads (inst self) + Z.to_nat (read_attempts self))%nat) /\
    fst (Arduino.read_response self) <> Raise LoopBudget.
Proof.
  intros self Hopen Hra.
  destruct (read_response_outcome self Hopen Hra)
    as (v & done & rest & m & Hrr & Hsplit & Hiff).
  split; [|split; [|split; [|split; [|split]]]].
  - rewrite Hrr, <- Hiff. cbn [fst].
    destruct (Z.eqb_spec (Arduino.attempts v) (read_attempts self)) as [E|E].
    + split; [intros _; exact E|intros _; eexists; reflexivity].
    + split; [|contradiction].
      intros (buf & Hbuf). exfalso. exact (decoded_not_timeout _ _ Hbuf).
  - exists done, rest, m. rewrite Hrr. cbn [fst snd].
    split; [reflexivity|]. split; [exact Hsplit|].
    destruct (Arduino.attempts v =? read_attempts self)%Z; [left|right]; reflexivity.
  - intros pre post Hpend Hnc Hidle.
    apply read_response_stops_at_close; assumption.
  - intros m' Hpend.
    rewrite (read_response_idle_port self m' Hopen Hra Hpend). cbn [fst snd].
    split; [reflexivity|]. rewrite reads_consumed, repeat_length. reflexivity.
  - intros m' name args Hpend.
    destruct (write_command_open name args self Hopen)
      as (self1 & Hw & Hopen1 & Hpend1 & Hra1 & Hreads1).
    rewrite run_unfold, Hw.
    rewrite (read_response_idle_port self1 m'); try assumption.
    + cbn [fst snd]. split; [reflexivity|].
      rewrite reads_consumed, repeat_length, Hreads1, Hra1. reflexivity.
    + rewrite Hra1. exact Hra.
    + rewrite Hpend1. exact Hpend.
  - rewrite Hrr. cbn [fst].
    destruct (Arduino.attempts v =? read_attempts self)%Z;
      [discriminate|apply decoded_within_budget].
Qed.

End ReadResponse.

Lemma read_response_counts_every_idle_read_witness :
  let self := Arduino.init (device (repeat None 5)) "COM4" 9600 10 3 None in
  fst (@Arduino.read_response loads self) = Raise (ReadTimeout []) /\
  reads (inst (snd (@Arduino.read_response loads self))) = 3%nat.
Proof.
  intros self.
  destruct (@read_response_counts_every_idle_read loads self eq_refl)
    as (_ & _ & _ & Hidle & _ & _).
  - discriminate.
  - exact (Hidle 5%nat eq_refl).
Defined.

(** C2 as it is stated fails with [read_attempts = 2] on a port whose
    reads deliver nothing, the byte [a], nothing, and then [}]: the
    time-out is raised after the third read although no two consecutive
    reads were idle, and the [}] is never read. *)
Lemma read_response_times_out_on_separate_idle_reads :
  let self := Arduino.init (device [None; Some x61; None; Some x7d])
                "COM4" 9600 10 2 None in
  fst (@Arduino.read_response loads self) = Raise (ReadTimeout [x61]) /\
  wire (inst (snd (@Arduino.read_response loads self)))
    = [ReadBytes []; ReadBytes [x61]; ReadBytes []] /\
  (longest_idle_run (wire (inst (snd (@Arduino.read_response loads self))))
     < Z.to_nat (read_attempts self))%nat.
Proof.
  vm_compute. repeat split. apply le_n.
Qed.

(** ** A response without gaps *)

Lemma first_close (bytes : list byte) :
  In Arduino.close_brace bytes ->
  exists b1 b2 : list byte,
    bytes = (b1 ++ Arduino.close_brace :: b2)%list /\
    no_close (map Some b1) = true /\
    idles (map Some b1) = 0%nat.
Proof.
  induction bytes as [|b bytes IH]; intros Hin; [destruct Hin|].
  destruct (Byte.eqb b Arduino.close_brace) eqn:E.
  - apply Byte.byte_dec_bl in E. subst b.
    exists [], bytes. repeat split.
  - destruct Hin as [Hb|Hin].
    + subst b. rewrite (Byte.byte_dec_lb eq_refl) in E. discriminate E.
    + destruct (IH Hin) as (b1 & b2 & Hsplit & Hnc & Hidle).
      exists (b :: b1), b2. subst bytes.
      split; [reflexivity|]. split; [|exact Hidle].
      cbn. rewrite E. exact Hnc.
Qed.

Section Gapless.

Context {decoder : JsonDecoder}.

Lemma read_response_closed (self : ArduinoController) :
  is_open (inst self) = false ->
  (0 < read_attempts self)%Z ->
  fst (Arduino.read_response self) = Raise PortNotOpenError.
Proof.
  intros Hclosed Hra. rewrite read_response_unfold.
  unfold Arduino.budget_of.
  destruct (Z.to_nat (read_attempts self)) as [|k] eqn:E; [lia|].
  rewrite Nat.add_succ_r.
  cbn [Arduino.read_loop start Arduino.curr Arduino.attempts Arduino.not_close andb].
  destruct (Z.ltb_spec 0 (read_attempts self)); [|lia].
  pose proof (read_closed self Hclosed) as Hread.
  destruct (Arduino.on_inst SerialPort.read self) as [[c|e] self']; cbn in Hread.
  - discriminate Hread.
  - inversion Hread. reflexivity.
Qed.

(** The budget of the loop is enough in every state. *)
Lemma read_response_total (self : ArduinoController) :
  fst (Arduino.read_response self) <> Raise LoopBudget.
Proof.
  destruct (Z.ltb_spec 0 (read_attempts self)) as [Hpos|Hneg].
  - destruct (is_open (inst self)) eqn:Hopen.
    + destruct (read_response_outcome self Hopen) as (v & done & rest & m & Hrr & _);
        [lia|].
      rewrite Hrr. cbn [fst].
      destruct (Arduino.attempts v =? read_attempts self)%Z;
        [discriminate|apply decoded_within_budget].
    + rewrite read_response_closed by assumption. discriminate.
  - rewrite read_response_unfold.
    rewrite read_loop_exit by (right; cbn; lia).
    destruct (Arduino.attempts start =? read_attempts self)%Z; cbn [fst];
      [discriminate|apply decoded_within_budget].
Qed.

Lemma run_total (name : string) (args : list json) (self : ArduinoController) :
  fst (Arduino.run name args self) <> Raise LoopBudget.
Proof.
  rewrite run_unfold.
  unfold Arduino.write_command, Arduino.on_inst, SerialPort.write. unfold_py.
  destruct (is_open (inst self)); [|discriminate].
  match goal with
  | |- context [Arduino.read_response ?s] =>
      pose proof (read_response_total s) as Htot;
      destruct (Arduino.read_response s) as [[resp|e] self2]
  end; [|exact Htot].
  cbn [fst]. unfold getitem.
  destruct resp as [| | | | |kv]; try discriminate.
  destruct (assoc "status" kv) as [status|]; [|discriminate].
  destruct (eq_str status "error").
  - destruct (assoc "command" kv); discriminate.
  - destruct (assoc "response" kv), (assoc "id" kv); discriminate.
Qed.

(** A time-out of [run] is a time-out of its decode cycle. *)
Lemma run_timeout (name : string) (args : list json) (self : ArduinoController)
    (buf : list byte) :
  fst (Arduino.run name args self) = Raise (ReadTimeout buf) ->
  (exists self1,
     Arduino.write_command name args self = (Raise (ReadTimeout buf), self1)) \/
  exists self1,
    Arduino.write_command name args self = (Ok tt, self1) /\
    fst (Arduino.read_response self1) = Raise (ReadTimeout buf).
Proof.
  rewrite run_unfold.
  destruct (Arduino.write_command name args self) as [[[]|e] self1];
    [|intros H; left; exists self1; cbn in H; inversion H; reflexivity].
  intros H. right. exists self1. split; [reflexivity|].
  destruct (Arduino.read_response self1) as [[resp|e] self2]; [|exact H].
  exfalso. cbn [fst] in H. unfold getitem in H.
  destruct resp as [| | | | |kv]; try discriminate H.
  destruct (assoc "status" kv) as [status|]; [|discriminate H].
  destruct (eq_str status "error").
  - destruct (assoc "command" kv); discriminate H.
  - destruct (assoc "response" kv), (assoc "id" kv); discriminate H.
Qed.

(** C9. With [read_attempts > 0], when the reads deliver the bytes of a
    response that contains [}] one at a time and without a gap, neither
    the decode cycle nor [run] raises the read-timeout error; on an open
    port the cycle ends on the bytes up to the first [}]. *)
Theorem gapless_response_never_times_out :
  forall (self : ArduinoController) (bytes : list byte) (rest : list (option byte))
         (name : string) (args : list json),
    (0 < read_attempts self)%Z ->
    pending (inst self) = (map Some bytes ++ rest)%list ->
    In Arduino.close_brace bytes ->
    (forall buf, fst (Arduino.read_response self) <> Raise (ReadTimeout buf)) /\
    (forall buf, fst (Arduino.run name args self) <> Raise (ReadTimeout buf)) /\
    (is_open (inst self) = true ->
     exists b1 b2 : list byte,
       bytes = (b1 ++ Arduino.close_brace :: b2)%list /\
       ~ In Arduino.close_brace b1 /\
       fst (Arduino.read_response self) = decoded (b1 ++ [Arduino.close_brace])).
Proof.
  intros self bytes rest name args Hra Hpend Hin.
  destruct (first_close bytes Hin) as (b1 & b2 & Hsplit & Hnc & Hidle).
  assert (Hscript : forall s : ArduinoController,
            pending (inst s) = pending (inst self) ->
            pending (inst s)
            = (map Some b1 ++ Some Arduino.close_brace :: (map Some b2 ++ rest))%list).
  { intros s Hs. rewrite Hs, Hpend, Hsplit, map_app, <- app_assoc. reflexivity. }
  assert (Hrecv : received (map Some b1) = b1).
  { clear. induction b1 as [|b b1 IH]; [reflexivity|]. cbn. f_equal. exact IH. }
  assert (Hread : forall s : ArduinoController,
            pending (inst s) = pending (inst self) ->
            read_attempts s = read_attempts self ->
            forall buf, fst (Arduino.read_response s) <> Raise (ReadTimeout buf)).
  { intros s Hs Hr buf.
    destruct (is_open (inst s)) eqn:Hopen.
    - rewrite (read_response_stops_at_close s (map Some b1) (map Some b2 ++ rest));
        try assumption.
      + apply decoded_not_timeout.
      + apply Hscript, Hs.
      + rewrite Hidle, Hr. exact Hra.
    - rewrite read_response_closed; try assumption.
      + discriminate.
      + rewrite Hr. exact Hra. }
  split; [apply Hread; reflexivity|]. split.
  - intros buf Hrun.
    destruct (run_timeout name args self buf Hrun) as [(self1 & Hw)|(self1 & Hw & Hr)].
    + destruct (is_open (inst self)) eqn:Hopen.
      * destruct (write_command_open name args self Hopen) as (s1 & Hs1 & _).
        rewrite Hs1 in Hw. discriminate Hw.
      * pose proof (write_command_closed name args self Hopen) as Hc.
        rewrite Hw in Hc. discriminate Hc.
    + destruct (is_open (inst self)) eqn:Hopen.
      * destruct (write_command_open name args self Hopen) as (s1 & Hs1 & _ & Hp & Hr1 & _).
        rewrite Hs1 in Hw. inversion Hw; subst s1.
        exact (Hread self1 Hp Hr1 buf Hr).
      * pose proof (write_command_closed name args self Hopen) as Hc.
        rewrite Hw in Hc. discriminate Hc.
  - intros Hopen. exists b1, b2. split; [exact Hsplit|]. split.
    + intros Hb1. clear - Hnc Hb1.
      induction b1 as [|b b1 IH]; [destruct Hb1|].
      cbn in Hnc. apply andb_true_iff in Hnc as [Hb Hnc].
      destruct Hb1 as [E|Hb1]; [|exact (IH Hnc Hb1)].
      subst b. cbn [is_close] in Hb. rewrite (Byte.byte_dec_lb eq_refl) in Hb. discriminate Hb.
    + rewrite (read_response_stops_at_close self (map Some b1) (map Some b2 ++ rest));
        try assumption.
      * rewrite Hrecv. reflexivity.
      * apply Hscript. reflexivity.
      * rewrite Hidle. exact Hra.
Qed.

End Gapless.

Lemma gapless_response_never_times_out_witness :
  fst (@Arduino.run loads "home" []
         (Arduino.init (device (stream [ok "home"])) "COM4" 9600 10 1 None))
  = Ok JNull.
Proof.
  destruct (@gapless_response_never_times_out loads
              (Arduino.init (device (stream [ok "home"])) "COM4" 9600 10 1 None)
              (text (ok "home")) [] "home" [])
    as (_ & Hrun & _).
  - reflexivity.
  - vm_compute. reflexivity.
  - vm_compute. tauto.
  - destruct (fst (@Arduino.run loads "home" []
         (Arduino.init (device (stream [ok "home"])) "COM4" 9600 10 1 None))) eqn:E.
    + vm_compute in E. inversion E. reflexivity.
    + vm_compute in E. discriminate E.
Defined.

(** ** The position model *)

Lemma Qeq_bool_nonzero (x : Q) : ~ x == 0 -> Qeq_bool x 0 = false.
Proof.
  intros Hx. destruct (Qeq_bool x 0) eqn:E; [|reflexivity].
  apply Qeq_bool_eq in E. contradiction.
Qed.

Lemma wrapped_range (p steps spr : Q) :
  0 < spr -> 0 <= wrapped p steps spr /\ wrapped p steps spr < spr.
Proof.
  intros Hspr. unfold wrapped. set (x := p + steps).
  pose proof (Qfloor_le (x / spr)) as Hlo.
  pose proof (Qlt_floor (x / spr)) as Hhi.
  assert (Hx : x == x / spr * spr).
  { field. intro E. rewrite E in Hspr. discriminate Hspr. }
  set (q := Qfloor (x / spr)) in *.
  split.
  - assert (inject_Z q * spr <= x).
    { apply Qle_trans with (x / spr * spr).
      - apply Qmult_le_compat_r; [exact Hlo|apply Qlt_le_weak, Hspr].
      - rewrite <- Hx. apply Qle_refl. }
    lra.
  - assert (H : x < inject_Z (q + 1) * spr).
    { apply Qle_lt_trans with (x / spr * spr).
      - rewrite <- Hx. apply Qle_refl.
      - apply Qmult_lt_compat_r; assumption. }
    rewrite inject_Z_plus, Qmult_plus_distr_l in H. change (inject_Z 1) with 1 in H.
    lra.
Qed.

Section Operations.

Context {decoder : JsonDecoder}.

Lemma is_enabled_unfold (self : SampleHolderController) :
  Holder.is_enabled self =
  match Arduino.run "is_enabled" [] (base self) with
  | (Ok r, b) => (Ok (eq_str r "1"), Holder.with_base (fun _ => b) self)
  | (Raise e, b) => (Raise e, Holder.with_base (fun _ => b) self)
  end.
Proof.
  unfold Holder.is_enabled, Holder.inherited. unfold_py.
  destruct (Arduino.run "is_enabled" [] (base self)) as [[r|e] b]; reflexivity.
Qed.

(** [move] in terms of the two invocations it makes. *)
Lemma move_unfold (steps : Q) (self : SampleHolderController) :
  Holder.move steps self =
  match Arduino.run "is_enabled" [] (base self) with
  | (Raise e, b1) => (Raise e, Holder.with_base (fun _ => b1) self)
  | (Ok r, b1) =>
      if eq_str r "1" then
        match Arduino.run "move" [JNum steps] b1 with
        | (Raise e, b2) => (Raise e, Holder.with_base (fun _ => b2) self)
        | (Ok _, b2) =>
            match as_num (position self) with
            | Raise e => (Raise e, Holder.with_base (fun _ => b2) self)
            | Ok p =>
                match as_num (SPR self) with
                | Raise e => (Raise e, Holder.with_base (fun _ => b2) self)
                | Ok spr =>
                    if Qeq_bool spr 0
                    then (Raise ZeroDivisionError, Holder.with_base (fun _ => b2) self)
                    else (Ok tt,
                          Holder.set_position (JNum (wrapped p steps spr))
                            (Holder.with_base (fun _ => b2) self))
                end
            end
        end
      else (Raise NotEnabled, Holder.with_base (fun _ => b1) self)
  end.
Proof.
  unfold Holder.move. unfold bind at 1. rewrite is_enabled_unfold.
  destruct (Arduino.run "is_enabled" [] (base self)) as [[r|e] b1]; [|reflexivity].
  destruct (eq_str r "1"); [|reflexivity]. cbn [negb].
  unfold Holder.inherited, mod_. unfold_py. cbn [base Holder.with_base].
  destruct (Arduino.run "move" [JNum steps] b1) as [[v|e] b2]; [|reflexivity].
  cbn [position SPR Holder.with_base].
  destruct (as_num (position self)) as [p|e]; [|reflexivity].
  destruct (as_num (SPR self)) as [spr|e]; [|reflexivity].
  destruct (Qeq_bool spr 0); reflexivity.
Qed.

Lemma move_inv (steps : Q) (self self' : SampleHolderController) :
  Holder.move steps self = (Ok tt, self') ->
  exists (r v : json) (b1 b2 : ArduinoController) (p spr : Q),
    Arduino.run "is_enabled" [] (base self) = (Ok r, b1) /\
    eq_str r "1" = true /\
    Arduino.run "move" [JNum steps] b1 = (Ok v, b2) /\
    as_num (position self) = Ok p /\
    as_num (SPR self) = Ok spr /\
    Qeq_bool spr 0 = false /\
    self' = Holder.set_position (JNum (wrapped p steps spr))
              (Holder.with_base (fun _ => b2) self).
Proof.
  rewrite move_unfold.
  destruct (Arduino.run "is_enabled" [] (base self)) as [[r|e] b1] eqn:H1; [|discriminate].
  destruct (eq_str r "1") eqn:Hr; [|discriminate].
  destruct (Arduino.run "move" [JNum steps] b1) as [[v|e] b2] eqn:H2; [|discriminate].
  destruct (as_num (position self)) as [p|e] eqn:Hp; [|discriminate].
  destruct (as_num (SPR self)) as [spr|e] eqn:Hs; [|discriminate].
  destruct (Qeq_bool spr 0) eqn:Hz; [discriminate|].
  intros H. inversion H.
  exists r, v, b1, b2, p, spr. repeat split; first [assumption|reflexivity].
Qed.

Lemma step_unfold (num : Z) (self : SampleHolderController) (spr : Q) :
  SPR self = JNum spr -> (samples self <> 0)%Z ->
  Holder.step num self =
    Holder.move (inject_Z num * (spr / inject_Z (samples self))) self.
Proof.
  intros Hs Hn. unfold Holder.step. unfold_py. rewrite Hs. cbn [as_num].
  unfold truediv.
  assert (E : Qeq_bool (inject_Z (samples self)) 0 = false).
  { apply Qeq_bool_nonzero. intros H. unfold Qeq in H. cbn in H. lia. }
  rewrite E. reflexivity.
Qed.

Lemma goto_inv (num : Z) (self self' : SampleHolderController) :
  Holder.goto num self = (Ok tt, self') ->
  (0 <= num <= samples self)%Z /\
  exists cur d : Z,
    fst (Holder.sample self) = Ok (Some cur) /\
    Holder.goto_steps num cur (samples self) = Ok d /\
    Holder.step d self = (Ok tt, self').
Proof.
  unfold Holder.goto. unfold_py.
  destruct (Z.ltb_spec num 0) as [|Hlo]; [discriminate|].
  destruct (Z.gtb_spec num (samples self)) as [|Hhi]; [discriminate|]. cbn [orb].
  pose proof (sample_state self) as Hst.
  destruct (Holder.sample self) as [[[cur|]|e] st]; cbn in Hst; subst st;
    try discriminate.
  destruct (Holder.goto_steps num cur (samples self)) as [d|e] eqn:Hd; [|discriminate].
  intros Hstep. split; [lia|]. exists cur, d. repeat split; assumption.
Qed.

Lemma offset_unfold (num : Q) (self : SampleHolderController) :
  Holder.offset num self =
  match Holder.move num self with
  | (Raise e, mid) => (Raise e, mid)
  | (Ok _, mid) =>
      match Arduino.run "offset" [JNum (- num)] (base mid) with
      | (Raise e, b3) => (Raise e, Holder.with_base (fun _ => b3) mid)
      | (Ok _, b3) =>
          (Ok tt, Holder.set_position (position self)
                    (Holder.with_base (fun _ => b3) mid))
      end
  end.
Proof.
  unfold Holder.offset, Holder.inherited. unfold_py.
  destruct (Holder.move num self) as [[[]|e] mid]; [|reflexivity].
  destruct (Arduino.run "offset" [JNum (- num)] (base mid)) as [[v|e] b3]; reflexivity.
Qed.

End Operations.

(** ** What goes over the port *)

Lemma sent_app (s : Serial) (e : event) (rest : list (option byte)) :
  sent (SerialPort.log e rest s) =
  (sent s ++ match e with
             | Wrote f => [(cmd_name f, cmd_args f)]
             | ReadBytes _ => []
             end)%list.
Proof.
  unfold sent, SerialPort.log. cbn [wire]. rewrite flat_map_app. cbn.
  rewrite app_nil_r. reflexivity.
Qed.

Lemma sent_read (s : ArduinoController) :
  sent (inst (snd (Arduino.on_inst SerialPort.read s))) = sent (inst s).
Proof.
  unfold Arduino.on_inst, SerialPort.read.
  destruct (is_open (inst s)); [|reflexivity].
  destruct (pending (inst s)) as [|[b|] rest]; cbn [snd inst Arduino.with_inst];
    rewrite sent_app; apply app_nil_r.
Qed.

Lemma sent_read_loop (budget : nat) :
  forall (v : Arduino.loop_vars) (s : ArduinoController),
    sent (inst (snd (Arduino.read_loop budget v s))) = sent (inst s).
Proof.
  induction budget as [|budget IH]; intros v s; cbn [Arduino.read_loop];
    destruct (Arduino.not_close (Arduino.curr v)
              && (Arduino.attempts v <? read_attempts s)%Z); try reflexivity.
  pose proof (sent_read s) as Hread.
  destruct (Arduino.on_inst SerialPort.read s) as [[c|e] s']; cbn [snd] in Hread.
  - rewrite IH. exact Hread.
  - exact Hread.
Qed.

Lemma baud_read_loop (budget : nat) :
  forall (v : Arduino.loop_vars) (s : ArduinoController),
    baud_ (snd (Arduino.read_loop budget v s)) = baud_ s.
Proof.
  induction budget as [|budget IH]; intros v s; cbn [Arduino.read_loop];
    destruct (Arduino.not_close (Arduino.curr v)
              && (Arduino.attempts v <? read_attempts s)%Z); try reflexivity.
  unfold Arduino.on_inst.
  destruct (SerialPort.read (inst s)) as [[c|e] s']; [|reflexivity].
  rewrite IH. reflexivity.
Qed.

Section Wire.

Context {decoder : JsonDecoder}.

Lemma baud_read_response (s : ArduinoController) :
  baud_ (snd (Arduino.read_response s)) = baud_ s.
Proof.
  rewrite read_response_unfold.
  pose proof (baud_read_loop (Arduino.budget_of s) start s) as Hloop.
  destruct (Arduino.read_loop (Arduino.budget_of s) start s) as [[v|e] s'];
    cbn [snd] in Hloop; [|exact Hloop].
  destruct (Arduino.attempts v =? read_attempts s')%Z; exact Hloop.
Qed.

Lemma sent_read_response (s : ArduinoController) :
  sent (inst (snd (Arduino.read_response s))) = sent (inst s).
Proof.
  rewrite read_response_unfold.
  pose proof (sent_read_loop (Arduino.budget_of s) start s) as Hloop.
  destruct (Arduino.read_loop (Arduino.budget_of s) start s) as [[v|e] s'];
    cbn [snd] in Hloop; [|exact Hloop].
  destruct (Arduino.attempts v =? read_attempts s')%Z; exact Hloop.
Qed.

Lemma run_state (name : string) (args : list json) (s : ArduinoController) :
  snd (Arduino.run name args s) =
  match Arduino.write_command name args s with
  | (Ok _, s1) => snd (Arduino.read_response s1)
  | (Raise _, s1) => s1
  end.
Proof.
  rewrite run_unfold.
  destruct (Arduino.write_command name args s) as [[[]|e] s1]; [|reflexivity].
  destruct (Arduino.read_response s1) as [[resp|e] s2]; [|reflexivity].
  destruct (getitem resp "status") as [status|e]; [|reflexivity].
  destruct (eq_str status "error").
  - destruct (getitem resp "command"); reflexivity.
  - destruct resp; reflexivity.
Qed.

(** A successful invocation has written its command, and nothing else. *)
Lemma run_sent (name : string) (args : list json) (s s' : ArduinoController) (r : json) :
  Arduino.run name args s = (Ok r, s') ->
  sent (inst s') = (sent (inst s) ++ [(name, args)])%list.
Proof.
  intros Hrun.
  pose proof (run_state name args s) as Hst. rewrite Hrun in Hst. cbn [snd] in Hst.
  rewrite run_unfold in Hrun.
  unfold Arduino.write_command, Arduino.on_inst, SerialPort.write in Hst, Hrun.
  unfold_py.
  destruct (is_open (inst s)); [|discriminate Hrun].
  subst s'. rewrite sent_read_response.
  cbn [inst Arduino.with_inst]. rewrite sent_app. reflexivity.
Qed.

(** C7, as the code has it. [move] asks the device whether the motor
    is enabled: it writes the [is_enabled] command and decodes the
    response, and when the invocation returns something other than ['1']
    it raises the not-enabled error with that exchange made, the [move]
    command not written and the motor position unchanged. *)
Theorem move_refuses_after_asking_the_device :
  forall (self : SampleHolderController) (steps : Q) (r : json) (b1 : ArduinoController),
    Arduino.run "is_enabled" [] (base self) = (Ok r, b1) ->
    eq_str r "1" = false ->
    Holder.move steps self = (Raise NotEnabled, Holder.with_base (fun _ => b1) self) /\
    position (snd (Holder.move steps self)) = position self /\
    sent (inst (base (snd (Holder.move steps self))))
      = (sent (inst (base self)) ++ [("is_enabled"%string, [])])%list.
Proof.
  intros self steps r b1 Hrun Hr.
  assert (Hmove : Holder.move steps self
                  = (Raise NotEnabled, Holder.with_base (fun _ => b1) self)).
  { rewrite move_unfold, Hrun, Hr. reflexivity. }
  rewrite Hmove. cbn [snd position base Holder.with_base].
  split; [reflexivity|]. split; [reflexivity|].
  exact (run_sent _ _ _ _ _ Hrun).
Qed.


End Wire.

Lemma move_refuses_after_asking_the_device_witness :
  let self := holder 10 200 (JNum 50) (stream [ok_str "is_enabled" "0"]) in
  fst (@Holder.move loads 5 self) = Raise NotEnabled /\
  position (snd (@Holder.move loads 5 self)) = JNum 50 /\
  sent (inst (base (snd (@Holder.move loads 5 self)))) = [("is_enabled"%string, [])].
Proof.
  intros self.
  destruct (@move_refuses_after_asking_the_device loads self 5 (JStr "0")
              (snd (@Arduino.run loads "is_enabled" [] (base self))))
    as (Hmove & Hpos & Hsent).
  - vm_compute. reflexivity.
  - reflexivity.
  - split; [rewrite Hmove; reflexivity|]. split; [exact Hpos|exact Hsent].
Defined.

(** C7 as it is stated fails on a connected holder whose motor is not
    enabled: the not-enabled error is raised only after the [is_enabled]
    command has been written and the 53 bytes of its response read. *)
Lemma move_not_enabled_after_io :
  let self := holder 10 200 (JNum 50) (stream [ok_str "is_enabled" "0"]) in
  fst (@Holder.move loads 5 self) = Raise NotEnabled /\
  wire (inst (base self)) = [] /\
  sent (inst (base (snd (@Holder.move loads 5 self)))) = [("is_enabled"%string, [])] /\
  reads (inst (base (snd (@Holder.move loads 5 self)))) = 53%nat /\
  wire (inst (base (snd (@Holder.move loads 5 self)))) <> wire (inst (base self)).
Proof.
  vm_compute. repeat split. discriminate.
Qed.


(** ** The [timeout] property *)

Section TimeoutProperty.

Context {decoder : JsonDecoder}.

Lemma set_timeout_keeps_baud (t' : Q) (self : ArduinoController) :
  baud_ (snd (Arduino.set_timeout t' self)) = baud_ self.
Proof.
  unfold Arduino.set_timeout, Arduino.is_connected. unfold_py.
  pose proof (run_state "is_connected" [] self) as Hst.
  destruct (Arduino.run "is_connected" [] self) as [[c|e] s1]; cbn [snd] in Hst.
  - assert (Hb : baud_ s1 = baud_ self).
    { subst s1. unfold Arduino.write_command, Arduino.on_inst. unfold_py.
      destruct (SerialPort.write _ (inst self)) as [[[]|e] s]; cbn [snd].
      - rewrite baud_read_response. reflexivity.
      - reflexivity. }
    destruct (truthy c); cbn [snd baud_]; exact Hb.
  - subst s1. unfold Arduino.write_command, Arduino.on_inst. unfold_py.
    destruct (SerialPort.write _ (inst self)) as [[[]|e'] s]; cbn [snd].
    + rewrite baud_read_response. reflexivity.
    + reflexivity.
Qed.

(** C10. Reading the property [timeout] of a client constructed with
    baud rate [b] and timeout [t] returns [b], whatever [t] is: when [b]
    and [t] differ it is not the configured timeout. A call of the setter
    does not change what the getter returns, and when it stores its
    argument (the device answering the [is_connected] command the setter
    runs with a false value) the stored value is not what the getter
    returns either. *)
Theorem timeout_getter_returns_baud :
  forall (device : Serial) (port : string) (b t : Q) (ra : Z) (tc : option string),
    let self := Arduino.init device port b t ra tc in
    Arduino.get_timeout self = (Ok b, self) /\
    timeout_ self = t /\
    (~ b == t -> forall r s, Arduino.get_timeout self = (Ok r, s) -> ~ r == timeout_ self) /\
    (forall t' : Q,
       let self' := snd (Arduino.set_timeout t' self) in
       Arduino.get_timeout self' = (Ok b, self') /\
       (forall (c : json) (s1 : ArduinoController),
          Arduino.run "is_connected" [] self = (Ok c, s1) ->
          truthy c = false ->
          timeout_ self' = t')).
Proof.
  intros device port b t ra tc self.
  split; [reflexivity|].
  split; [reflexivity|].
  split.
  - intros Hbt r s Hget. unfold Arduino.get_timeout in Hget. unfold_py.
    inversion Hget; subst. exact Hbt.
  - intros t' self'. split.
    + unfold Arduino.get_timeout. unfold_py. subst self'.
      rewrite set_timeout_keeps_baud. reflexivity.
    + intros c s1 Hrun Hc. subst self'.
      unfold Arduino.set_timeout, Arduino.is_connected. unfold_py.
      rewrite Hrun, Hc. reflexivity.
Qed.

End TimeoutProperty.

Lemma timeout_getter_returns_baud_witness :
  let self := Arduino.init (device (stream [ok "is_connected"]))
                "COM4" 9600 2 3 None in
  fst (Arduino.get_timeout self) = Ok 9600%Q /\
  fst (@Arduino.set_timeout loads 5 self) = Raise TypeError /\
  timeout_ (snd (@Arduino.set_timeout loads 5 self)) = 5%Q /\
  fst (Arduino.get_timeout (snd (@Arduino.set_timeout loads 5 self))) = Ok 9600%Q.
Proof.
  intros self.
  destruct (@timeout_getter_returns_baud loads (device (stream [ok "is_connected"]))
              "COM4" 9600 2 3 None) as (Hget & _ & Hne & Hset).
  destruct (Hset 5%Q) as (Hget' & Hstored).
  assert (Hdiff : ~ (9600 == 2)%Q) by (intro H; discriminate H).
  pose proof (Hne Hdiff _ _ Hget) as _.
  split; [exact (f_equal fst Hget)|].
  split; [vm_compute; reflexivity|].
  split; [|exact (f_equal fst Hget')].
  apply (Hstored JNull (snd (@Arduino.run loads "is_connected" [] self))).
  - vm_compute. reflexivity.
  - reflexivity.
Defined.

(** ** [goto] and the sample reached *)

Lemma Qfloor_add_Z (x : Q) (k : Z) : Qfloor (x + inject_Z k) = (Qfloor x + k)%Z.
Proof.
  pose proof (Qfloor_le x) as Hlo. pose proof (Qlt_floor x) as Hhi.
  assert (H1 : (Qfloor x + k <= Qfloor (x + inject_Z k))%Z).
  { rewrite <- (Qfloor_Z (Qfloor x + k)). apply Qfloor_resp_le.
    rewrite inject_Z_plus. lra. }
  assert (H2 : (Qfloor (x + inject_Z k) < Qfloor x + k + 1)%Z).
  { rewrite Zlt_Qlt. eapply Qle_lt_trans; [apply Qfloor_le|].
    rewrite !inject_Z_plus in *. lra. }
  lia.
Qed.

Lemma inject_Z_nonzero (n : Z) : (n <> 0)%Z -> ~ inject_Z n == 0.
Proof. intros Hn H. unfold Qeq in H. cbn in H. lia. Qed.

(** Moving by [d] sample widths and wrapping shifts the sector by [d],
    up to a multiple of the sample count. *)
Lemma sector_after_step (p spr : Q) (n d : Z) :
  0 < spr -> (0 < n)%Z ->
  exists j : Z,
    Spec.sector (wrapped p (inject_Z d * (spr / inject_Z n)) spr) spr n
    = (Spec.sector p spr n + d + j * n)%Z.
Proof.
  intros Hspr Hn.
  set (steps := inject_Z d * (spr / inject_Z n)).
  set (q := Qfloor ((p + steps) / spr)).
  exists (- q)%Z. unfold Spec.sector.
  rewrite <- Z.add_assoc, <- Qfloor_add_Z. apply Qfloor_comp.
  unfold wrapped. fold q. subst steps.
  rewrite inject_Z_plus, inject_Z_mult, inject_Z_opp.
  field. split.
  - apply inject_Z_nonzero. lia.
  - intro E. rewrite E in Hspr. discriminate Hspr.
Qed.

Lemma shortest_congruent (num cur n : Z) :
  (0 < n)%Z -> exists j : Z, Spec.shortest num cur n = (num - cur + j * n)%Z.
Proof.
  intros Hn. unfold Spec.shortest.
  pose proof (Z.div_mod (num - cur) n) as Hdm.
  destruct (n <? 2 * ((num - cur) mod n))%Z.
  - exists (- ((num - cur) / n) - 1)%Z. lia.
  - exists (- ((num - cur) / n))%Z. lia.
Qed.

Section GotoRoundTrip.

Context {decoder : JsonDecoder}.

(** C3, as the code has it. With [SPR] a whole multiple of the sample
    count, an integral position, both of magnitude at most [2^48], and
    [0 <= num <= samples], when the two invocations of [goto num]
    succeed - [is_enabled] answering ['1'] and [move] - [goto] returns
    and the property [sample] is then congruent to [num] modulo the
    sample count and lies in [[0, samples]]; it is [num] itself for
    [0 < num < samples]. *)
Theorem goto_reaches_sample_modulo_count :
  forall (self : SampleHolderController) (num w : Z) (p spr : Q) (r v : json)
         (b1 b2 : ArduinoController),
    (0 < samples self)%Z ->
    0 < spr ->
    SPR self = JNum spr ->
    spr == inject_Z (samples self * w) ->
    Exact.small_int spr ->
    position self = JNum p ->
    Exact.small_int p ->
    (0 <= num <= samples self)%Z ->
    Arduino.run "is_enabled" [] (base self) = (Ok r, b1) ->
    eq_str r "1" = true ->
    Arduino.run "move"
      [JNum (inject_Z (Spec.shortest num (Spec.sector p spr (samples self)) (samples self))
             * (spr / inject_Z (samples self)))] b1 = (Ok v, b2) ->
    exists (self' : SampleHolderController) (s' : Z),
      Holder.goto num self = (Ok tt, self') /\
      fst (Holder.sample self') = Ok (Some s') /\
      (s' mod samples self = num mod samples self)%Z /\
      (0 <= s' <= samples self)%Z /\
      ((0 < num < samples self)%Z -> s' = num).
Proof.
  intros self num w p spr r v b1 b2 Hn Hspr Hs Hdiv _ Hp _ Hnum H1 Hr H2.
  set (n := samples self) in *.
  set (cur := Spec.sector p spr n) in *.
  set (d := Spec.shortest num cur n) in *.
  set (steps := inject_Z d * (spr / inject_Z n)) in *.
  pose proof (sample_number self p spr Hp Hs Hspr Hn) as Hsample.
  assert (Hspr0 : Qeq_bool spr 0 = false) by (apply Qeq_bool_pos; exact Hspr).
  assert (Hgoto : Holder.goto num self =
                  (Ok tt, Holder.set_position (JNum (wrapped p steps spr))
                            (Holder.with_base (fun _ => b2) self))).
  { rewrite (goto_delegates self num cur Hn Hnum)
      by (rewrite Hsample; reflexivity).
    rewrite (step_unfold _ self spr Hs) by (fold n; lia).
    fold n cur d steps.
    rewrite move_unfold, H1, Hr, H2, Hp, Hs. cbn [as_num]. rewrite Hspr0.
    reflexivity. }
  destruct (wrapped_range p steps spr Hspr) as (Hlo & Hhi).
  set (self' := Holder.set_position (JNum (wrapped p steps spr))
                  (Holder.with_base (fun _ => b2) self)) in *.
  exists self', (Spec.sector (wrapped p steps spr) spr n).
  split; [exact Hgoto|].
  split.
  { rewrite (sample_number self' (wrapped p steps spr) spr); try reflexivity; assumption. }
  destruct (sector_after_step p spr n d Hspr Hn) as (j & Hj).
  destruct (shortest_congruent num cur n Hn) as (k & Hk).
  fold steps cur in Hj. fold d in Hk.
  pose proof (sector_range (wrapped p steps spr) spr n Hspr Hn Hlo Hhi) as Hrange.
  assert (Hmod : (Spec.sector (wrapped p steps spr) spr n mod n = num mod n)%Z).
  { rewrite Hj, Hk.
    replace (cur + (num - cur + k * n) + j * n)%Z with (num + (k + j) * n)%Z by lia.
    apply Z_mod_plus_full. }
  split; [exact Hmod|]. split; [exact Hrange|].
  intros Hin.
  destruct (Z.eq_dec (Spec.sector (wrapped p steps spr) spr n) n) as [E|E].
  - rewrite E, Z_mod_same_full in Hmod.
    rewrite (Z.mod_small num n) in Hmod by lia. lia.
  - rewrite !Z.mod_small in Hmod by lia. exact Hmod.
Qed.

End GotoRoundTrip.

Lemma goto_reaches_sample_modulo_count_witness :
  let self := holder 10 200 (JNum 40)
                (stream [ok_str "is_enabled" "1"; ok "move"]) in
  exists self' : SampleHolderController,
    @Holder.goto loads 8 self = (Ok tt, self') /\
    fst (Holder.sample self') = Ok (Some 8%Z).
Proof.
  intros self.
  set (b1 := snd (@Arduino.run loads "is_enabled" [] (base self))).
  set (b2 := snd (@Arduino.run loads "move"
                    [JNum (inject_Z (Spec.shortest 8 (Spec.sector 40 200 10) 10)
                           * (200 / inject_Z 10))] b1)).
  destruct (@goto_reaches_sample_modulo_count loads self 8 20 40 200 (JStr "1") JNull
              b1 b2) as (self' & s' & Hgoto & Hsample & _ & _ & Hexact).
  - reflexivity.
  - reflexivity.
  - reflexivity.
  - reflexivity.
  - apply (small_int_inject 200). vm_compute. split; discriminate.
  - reflexivity.
  - apply (small_int_inject 40). vm_compute. split; discriminate.
  - split; discriminate.
  - vm_compute. reflexivity.
  - reflexivity.
  - vm_compute. reflexivity.
  - exists self'. split; [exact Hgoto|].
    rewrite Hsample, Hexact; [reflexivity|]. split; reflexivity.
Defined.

(** C3 as it is stated fails at both ends of the range of targets, with
    10 samples and 200 steps per revolution: [goto(10)] from position 0
    returns with the sample at 0, and [goto(0)] from position 195, where
    the sample is 10, returns without a move and leaves it at 10. *)
Lemma goto_misses_sample_at_the_ends :
  let script := stream [ok_str "is_enabled" "1"; ok "move"] in
  (fst (@Holder.goto loads 10 (holder 10 200 (JNum 0) script)) = Ok tt /\
   fst (Holder.sample (snd (@Holder.goto loads 10 (holder 10 200 (JNum 0) script))))
     = Ok (Some 0%Z)) /\
  (fst (@Holder.goto loads 0 (holder 10 200 (JNum 195) script)) = Ok tt /\
   fst (Holder.sample (snd (@Holder.goto loads 0 (holder 10 200 (JNum 195) script))))
     = Ok (Some 10%Z)).
Proof.
  vm_compute. repeat split.
Qed.

(** ** The range of the motor position *)

Lemma integral_inject (z : Z) : integral (inject_Z z).
Proof. exists z. reflexivity. Qed.

Lemma integral_add (x y : Q) : integral x -> integral y -> integral (x + y).
Proof.
  intros (a & Ha) (b & Hb). exists (a + b)%Z.
  rewrite Ha, Hb, inject_Z_plus. reflexivity.
Qed.

Lemma integral_mul (x y : Q) : integral x -> integral y -> integral (x * y).
Proof.
  intros (a & Ha) (b & Hb). exists (a * b)%Z.
  rewrite Ha, Hb, inject_Z_mult. reflexivity.
Qed.

Lemma integral_sub (x y : Q) : integral x -> integral y -> integral (x - y).
Proof.
  intros (a & Ha) (b & Hb). exists (a - b)%Z.
  rewrite Ha, Hb. unfold Z.sub. rewrite inject_Z_plus, inject_Z_opp. reflexivity.
Qed.

Lemma integral_wrapped (p steps spr : Q) :
  integral p -> integral steps -> integral spr -> integral (wrapped p steps spr).
Proof.
  intros Hp Hsteps Hspr. unfold wrapped.
  apply integral_sub; [apply integral_add; assumption|].
  apply integral_mul; [apply integral_inject|assumption].
Qed.

Lemma integral_width (spr : Q) (n w d : Z) :
  (0 < n)%Z -> spr == inject_Z (n * w) -> integral (inject_Z d * (spr / inject_Z n)).
Proof.
  intros Hn Hdiv. exists (d * w)%Z.
  rewrite Hdiv, !inject_Z_mult. field. apply inject_Z_nonzero. lia.
Qed.

Section PositionRange.

Context {decoder : JsonDecoder}.

Lemma move_position (steps : Q) (self self' : SampleHolderController) (spr : Q) :
  SPR self = JNum spr ->
  Holder.move steps self = (Ok tt, self') ->
  SPR self' = SPR self /\ samples self' = samples self /\
  exists p : Q,
    as_num (position self) = Ok p /\
    position self' = JNum (wrapped p steps spr).
Proof.
  intros Hs Hmove.
  destruct (move_inv steps self self' Hmove)
    as (r & v & b1 & b2 & p & spr' & _ & _ & _ & Hp & Hs' & _ & Hself).
  rewrite Hs in Hs'. cbn in Hs'. inversion Hs'; subst spr'. subst self'.
  repeat split. exists p. split; [exact Hp|reflexivity].
Qed.

(** C8, as the code has it. With [SPR > 0] and [samples > 0], a
    successful [home] sets the motor position to 0, [offset] leaves it
    as it was and [enable] stores what the device answers to [get_pos]
    as it is. A successful [move] leaves an integer in [[0, SPR)] when
    the position before, the steps and [SPR] are integers of magnitude
    at most [2^48]; so do [step] and [goto] when moreover [SPR] is a
    whole multiple of the sample count. *)
Theorem position_after_operation :
  forall (self self' : SampleHolderController) (o : Holder.operation) (spr : Q),
    SPR self = JNum spr ->
    0 < spr ->
    (0 < samples self)%Z ->
    Holder.perform o self = (Ok tt, self') ->
    SPR self' = SPR self /\
    samples self' = samples self /\
    match o with
    | Holder.Home => position self' = JNum 0
    | Holder.Offset _ => position self' = position self
    | Holder.Enable =>
        exists (v0 v : json) (b1 b2 : ArduinoController),
          Arduino.run "enable" [] (base self) = (Ok v0, b1) /\
          Arduino.run "get_pos" [] b1 = (Ok v, b2) /\
          position self' = v
    | Holder.Move steps =>
        forall p : Q,
          position self = JNum p -> Exact.small_int p ->
          Exact.small_int spr -> Exact.small_int steps ->
          Exact.step_of_revolution (position self') spr
    | Holder.Step num =>
        forall p : Q,
          position self = JNum p -> Exact.small_int p ->
          Exact.small_int spr -> Exact.whole_sectors spr (samples self) ->
          Exact.small_int (inject_Z num * (spr / inject_Z (samples self))) ->
          Exact.step_of_revolution (position self') spr
    | Holder.Goto num =>
        forall p : Q,
          position self = JNum p -> Exact.small_int p ->
          Exact.small_int spr -> Exact.whole_sectors spr (samples self) ->
          Exact.step_of_revolution (position self') spr
    end.
Proof.
  intros self self' o spr Hs Hspr Hn Hperf.
  assert (Hmoved : forall steps,
            Holder.move steps self = (Ok tt, self') ->
            SPR self' = SPR self /\ samples self' = samples self /\
            (forall p, position self = JNum p -> integral p -> integral spr ->
                       integral steps ->
                       Exact.step_of_revolution (position self') spr)).
  { intros steps Hmove.
    destruct (move_position steps self self' spr Hs Hmove)
      as (HS & HN & p0 & Hp0 & Hpos).
    split; [exact HS|]. split; [exact HN|].
    intros p Hp Hip Hispr Histeps. rewrite Hp in Hp0. cbn in Hp0.
    assert (p0 = p) by congruence. subst p0.
    exists (wrapped p steps spr). split; [exact Hpos|].
    split; [apply integral_wrapped; assumption|].
    apply wrapped_range, Hspr. }
  assert (Hstepped : forall d,
            Holder.step d self = (Ok tt, self') ->
            SPR self' = SPR self /\ samples self' = samples self /\
            (forall p, position self = JNum p -> integral p -> integral spr ->
                       Exact.whole_sectors spr (samples self) ->
                       Exact.step_of_revolution (position self') spr)).
  { intros d Hstep. rewrite (step_unfold d self spr Hs) in Hstep by lia.
    destruct (Hmoved _ Hstep) as (HS & HN & Hint).
    split; [exact HS|]. split; [exact HN|].
    intros p Hp Hip Hispr (w & Hw).
    apply (Hint p Hp Hip Hispr). apply (integral_width spr (samples self) w d Hn Hw). }
  destruct o as [| |steps|num|num|num]; cbn [Holder.perform] in Hperf.
  - unfold Holder.enable, Holder.inherited in Hperf. unfold_py.
    destruct (Arduino.run "enable" [] (base self)) as [[v0|e] b1] eqn:H1;
      [|discriminate Hperf].
    cbn [base Holder.with_base] in Hperf.
    destruct (Arduino.run "get_pos" [] b1) as [[v|e] b2] eqn:H2; [|discriminate Hperf].
    inversion Hperf; subst self'. cbn.
    repeat split. exists v0, v, b1, b2. repeat split; assumption.
  - unfold Holder.home, Holder.inherited in Hperf. unfold_py.
    destruct (Arduino.run "home" [] (base self)) as [[v0|e] b1]; [|discriminate Hperf].
    inversion Hperf; subst self'. cbn. repeat split.
  - destruct (Hmoved steps Hperf) as (HS & HN & Hint).
    split; [exact HS|]. split; [exact HN|].
    intros p Hp Hip Hispr Histeps.
    apply (Hint p Hp); apply small_int_integral; assumption.
  - destruct (Hstepped num Hperf) as (HS & HN & Hint).
    split; [exact HS|]. split; [exact HN|].
    intros p Hp Hip Hispr Hdiv _.
    apply (Hint p Hp); [apply small_int_integral; assumption ..|exact Hdiv].
  - destruct (goto_inv num self self' Hperf) as (_ & cur & d & _ & _ & Hstep).
    destruct (Hstepped d Hstep) as (HS & HN & Hint).
    split; [exact HS|]. split; [exact HN|].
    intros p Hp Hip Hispr Hdiv.
    apply (Hint p Hp); [apply small_int_integral; assumption ..|exact Hdiv].
  - rewrite offset_unfold in Hperf.
    destruct (Holder.move num self) as [[[]|e] mid] eqn:Hmove; [|discriminate Hperf].
    destruct (Arduino.run "offset" [JNum (- num)] (base mid)) as [[v|e] b3];
      [|discriminate Hperf].
    inversion Hperf; subst self'. cbn.
    destruct (move_position num self mid spr Hs Hmove) as (HS & HN & _).
    repeat split; assumption.
Qed.

End PositionRange.

Lemma position_after_operation_witness :
  let self := holder 10 200 (JNum 190)
                (stream [ok_str "is_enabled" "1"; ok "move"]) in
  Exact.step_of_revolution
    (position (snd (@Holder.perform loads (Holder.Move 15) self))) 200 /\
  position (snd (@Holder.perform loads (Holder.Move 15) self)) = JNum (wrapped 190 15 200) /\
  wrapped 190 15 200 == 5.
Proof.
  intros self.
  destruct (@position_after_operation loads self
              (snd (@Holder.perform loads (Holder.Move 15) self))
              (Holder.Move 15) 200) as (_ & _ & Hrange).
  - reflexivity.
  - reflexivity.
  - reflexivity.
  - vm_compute. reflexivity.
  - split; [|split; [vm_compute; reflexivity|reflexivity]].
    apply (Hrange 190 eq_refl).
    + apply (small_int_inject 190). vm_compute. split; discriminate.
    + apply (small_int_inject 200). vm_compute. split; discriminate.
    + apply (small_int_inject 15). vm_compute. split; discriminate.
Defined.

(** C8 as it is stated fails in two ways. For a holder of 16 samples
    with 200 steps per revolution, one successful [step] from position 0
    leaves the motor position at 12.5, which is not an integer. And with
    200 steps per revolution a successful [enable], to which the device
    answers [get_pos] with 450, leaves the motor position at 450, which
    is not below [SPR]. *)
Lemma position_leaves_the_steps_of_a_revolution :
  (let self := holder 16 200 (JNum 0)
                 (stream [ok_str "is_enabled" "1"; ok "move"]) in
   fst (@Holder.step loads 1 self) = Ok tt /\
   exists p : Q,
     position (snd (@Holder.step loads 1 self)) = JNum p /\
     p == 25 # 2 /\
     ~ integral p) /\
  (let self := holder 10 200 (JNum 0)
                 (stream [ok "enable"; Wire.ok_num "get_pos" "450" 450]) in
   fst (@Holder.enable Wire.loads self) = Ok tt /\
   position (snd (@Holder.enable Wire.loads self)) = JNum 450 /\
   ~ in_revolution (position (snd (@Holder.enable Wire.loads self))) 200).
Proof.
  split.
  - intros self. split; [vm_compute; reflexivity|].
    eexists. split; [vm_compute; reflexivity|].
    split; [reflexivity|].
    intros (z & Hz). unfold Qeq in Hz. cbn in Hz. lia.
  - intros self.
    assert (Hpos : position (snd (@Holder.enable Wire.loads self)) = JNum 450)
      by (vm_compute; reflexivity).
    split; [vm_compute; reflexivity|]. split; [exact Hpos|].
    rewrite Hpos. intros (p & Hp & _ & Hlt).
    assert (p = 450) by congruence. subst p. discriminate Hlt.
Qed.

(** * Further properties of the code *)

(** ** The sectors of [sample] *)

Lemma Qfloor_div_bounds (y w : Q) :
  0 < w -> inject_Z (Qfloor (y / w)) * w <= y /\ y < inject_Z (Qfloor (y / w) + 1) * w.
Proof.
  intros Hw.
  assert (Hy : y == y / w * w).
  { field. intro E. rewrite E in Hw. discriminate Hw. }
  split.
  - apply Qle_trans with (y / w * w).
    + apply Qmult_le_compat_r; [apply Qfloor_le|apply Qlt_le_weak, Hw].
    + rewrite <- Hy. apply Qle_refl.
  - apply Qle_lt_trans with (y / w * w).
    + rewrite <- Hy. apply Qle_refl.
    + apply Qmult_lt_compat_r; [exact Hw|apply Qlt_floor].
Qed.

(** X1. For an integral position and an [SPR] that is a whole multiple
    of the sample count, both of magnitude at most [2^48], [sample]
    rounds to the nearest sample: it is [k] exactly on the sector of one
    width centred on the nominal position [k * width] of sample [k], the
    lower end included and the upper end excluded. *)
Theorem sample_is_nearest :
  forall (self : SampleHolderController) (p spr : Q) (k : Z),
    position self = JNum p ->
    SPR self = JNum spr ->
    0 < spr ->
    (0 < samples self)%Z ->
    Exact.small_int p ->
    Exact.small_int spr ->
    Exact.whole_sectors spr (samples self) ->
    let width := spr / inject_Z (samples self) in
    fst (Holder.sample self) = Ok (Some k) <->
    inject_Z k * width - width / 2 <= p /\ p < inject_Z k * width + width / 2.
Proof.
  intros self p spr k Hp Hs Hspr Hn _ _ _ width.
  rewrite (sample_number self p spr Hp Hs Hspr Hn). cbn [fst].
  pose proof (width_pos spr (samples self) Hspr Hn) as Hw.
  unfold Spec.sector. fold width.
  split.
  - intros H.
    assert (Hk : Qfloor ((p + width / 2) / width) = k) by congruence.
    destruct (Qfloor_div_bounds (p + width / 2) width Hw) as (Hlo & Hhi).
    rewrite Hk in Hlo, Hhi.
    rewrite inject_Z_plus, Qmult_plus_distr_l in Hhi. change (inject_Z 1) with 1 in Hhi.
    set (kw := inject_Z k * width) in *. clearbody kw width. split; qlra.
  - intros (Hlo & Hhi). do 2 f_equal.
    apply Qfloor_div_eq; [exact Hw| |].
    + set (kw := inject_Z k * width) in *. clearbody kw width. qlra.
    + rewrite inject_Z_plus, Qmult_plus_distr_l. change (inject_Z 1) with 1.
      set (kw := inject_Z k * width) in *. clearbody kw width. qlra.
Qed.

Lemma sample_is_nearest_witness :
  fst (Holder.sample (holder 10 200 (JNum 29) [])) = Ok (Some 1%Z).
Proof.
  apply (sample_is_nearest (holder 10 200 (JNum 29) []) 29 200 1
           eq_refl eq_refl eq_refl eq_refl
           (small_int_inject 29 ltac:(vm_compute; split; discriminate))
           (small_int_inject 200 ltac:(vm_compute; split; discriminate))
           (whole_sectors_inject 10 20)).
  split; vm_compute; congruence.
Defined.

Lemma sector_shift (p spr : Q) (n : Z) :
  0 < spr -> (0 < n)%Z -> Spec.sector (p + spr) spr n = (Spec.sector p spr n + n)%Z.
Proof.
  intros Hspr Hn. unfold Spec.sector.
  rewrite <- Qfloor_add_Z. apply Qfloor_comp.
  field. split.
  - apply inject_Z_nonzero. lia.
  - intro E. rewrite E in Hspr. discriminate Hspr.
Qed.

(** X2. [sample] does not wrap: for integral positions and an [SPR]
    that is a whole multiple of the sample count, all of magnitude at
    most [2^48], it is larger by the sample count one revolution
    further, at [p + SPR]. *)
Theorem sample_grows_by_count_per_revolution :
  forall (self self' : SampleHolderController) (p spr : Q) (k : Z),
    position self = JNum p ->
    position self' = JNum (p + spr) ->
    SPR self = JNum spr -> SPR self' = JNum spr ->
    samples self' = samples self ->
    0 < spr ->
    (0 < samples self)%Z ->
    Exact.small_int p ->
    Exact.small_int (p + spr) ->
    Exact.small_int spr ->
    Exact.whole_sectors spr (samples self) ->
    fst (Holder.sample self) = Ok (Some k) ->
    fst (Holder.sample self') = Ok (Some (k + samples self)%Z).
Proof.
  intros self self' p spr k Hp Hp' Hs Hs' Hn' Hspr Hn _ _ _ _.
  rewrite (sample_number self p spr Hp Hs Hspr Hn).
  rewrite (sample_number self' (p + spr) spr Hp' Hs' Hspr) by (rewrite Hn'; exact Hn).
  cbn [fst]. intros H. inversion H. rewrite Hn', sector_shift by assumption.
  reflexivity.
Qed.

Lemma sample_grows_by_count_per_revolution_witness :
  fst (Holder.sample (holder 10 200 (JNum (29 + 200)) [])) = Ok (Some (1 + 10)%Z).
Proof.
  apply (sample_grows_by_count_per_revolution
           (holder 10 200 (JNum 29) []) (holder 10 200 (JNum (29 + 200)) []) 29 200 1);
    try reflexivity.
  - apply (small_int_inject 29). vm_compute. split; discriminate.
  - exists 229%Z. split; [reflexivity|vm_compute; split; discriminate].
  - apply (small_int_inject 200). vm_compute. split; discriminate.
  - apply (whole_sectors_inject 10 20).
Defined.

(** ** The distance of [goto] *)

(** X3. The distance [goto] computes is the one integer congruent to
    [num - cur] modulo the sample count in the half-open range
    [(-samples/2, samples/2]]: when the two ways round are equally long
    it goes forward. *)
Theorem goto_steps_is_the_centred_residue :
  forall (num cur n : Z),
    (0 < n)%Z ->
    exists d : Z,
      Holder.goto_steps num cur n = Ok d /\
      (- n < 2 * d <= n)%Z /\
      ((d - (num - cur)) mod n = 0)%Z /\
      (forall d' : Z,
         (- n < 2 * d' <= n)%Z -> ((d' - (num - cur)) mod n = 0)%Z -> d' = d).
Proof.
  intros num cur n Hn. exists (Spec.shortest num cur n).
  split; [apply goto_steps_shortest, Hn|].
  destruct (shortest_congruent num cur n Hn) as (j & Hj).
  assert (Hrange : (- n < 2 * Spec.shortest num cur n <= n)%Z).
  { unfold Spec.shortest.
    pose proof (Z.mod_pos_bound (num - cur) n Hn) as Hd.
    destruct (Z.ltb_spec n (2 * ((num - cur) mod n))); lia. }
  split; [exact Hrange|]. split.
  - rewrite Hj. replace (num - cur + j * n - (num - cur))%Z with (0 + j * n)%Z by lia.
    rewrite Z_mod_plus_full. apply Z.mod_0_l. lia.
  - intros d' Hr' Hm'.
    apply Z.mod_divide in Hm'; [|lia]. destruct Hm' as (j' & Hj').
    rewrite Hj in Hrange |- *.
    assert (Hjj : (j' = j)%Z).
    { assert (H1 : ((j' - j) * n < 1 * n)%Z) by lia.
      assert (H2 : (-1 * n < (j' - j) * n)%Z) by lia.
      apply Z.mul_lt_mono_pos_r in H1; [|exact Hn].
      apply Z.mul_lt_mono_pos_r in H2; [|exact Hn]. lia. }
    subst j'. lia.
Qed.

Lemma goto_steps_is_the_centred_residue_witness :
  Holder.goto_steps 7 2 10 = Ok 5%Z /\ Holder.goto_steps 2 7 10 = Ok 5%Z.
Proof.
  destruct (goto_steps_is_the_centred_residue 7 2 10 eq_refl) as (d & Hd & _ & _ & Hu).
  destruct (goto_steps_is_the_centred_residue 2 7 10 eq_refl) as (d' & Hd' & _ & _ & Hu').
  rewrite Hd, Hd'.
  rewrite <- (Hu 5%Z) by (try split; first [reflexivity|discriminate]).
  rewrite <- (Hu' 5%Z) by (try split; first [reflexivity|discriminate]).
  split; reflexivity.
Defined.

(** ** What [goto] refuses *)

Section GotoRefusals.

Context {decoder : JsonDecoder}.

(** X4. A target below 0 or above the sample count is refused with the
    invalid-sample error before anything else happens: nothing is
    written or read and the holder is as it was. *)
Theorem goto_refuses_invalid_sample :
  forall (self : SampleHolderController) (num : Z),
    (num < 0 \/ samples self < num)%Z ->
    Holder.goto num self = (Raise (InvalidSample (samples self)), self).
Proof.
  intros self num Hnum. unfold Holder.goto. unfold_py.
  destruct (Z.ltb_spec num 0) as [Hlo|Hlo]; [reflexivity|].
  destruct (Z.gtb_spec num (samples self)) as [Hhi|Hhi]; [reflexivity|lia].
Qed.

(** X5. While the motor position is unknown, a valid target is refused with
    a type error, again with nothing written or read. *)
Theorem goto_needs_known_position :
  forall (self : SampleHolderController) (num : Z),
    (0 <= num <= samples self)%Z ->
    position self = JNull ->
    Holder.goto num self = (Raise TypeError, self).
Proof.
  intros self num Hnum Hp.
  assert (Hsample : Holder.sample self = (Ok None, self)).
  { unfold Holder.sample. unfold_py. rewrite Hp. reflexivity. }
  unfold Holder.goto. unfold_py.
  destruct (Z.ltb_spec num 0) as [Hlo|Hlo]; [lia|].
  destruct (Z.gtb_spec num (samples self)) as [Hhi|Hhi]; [lia|].
  cbn [orb]. rewrite Hsample. reflexivity.
Qed.

End GotoRefusals.

Lemma goto_refuses_invalid_sample_witness :
  @Holder.goto loads 11 (holder 10 200 (JNum 0) (stream [ok_str "is_enabled" "1"]))
  = (Raise (InvalidSample 10), holder 10 200 (JNum 0) (stream [ok_str "is_enabled" "1"])).
Proof.
  apply (@goto_refuses_invalid_sample loads). right. reflexivity.
Defined.

Lemma goto_needs_known_position_witness :
  @Holder.goto loads 3 (holder 10 200 JNull (stream [ok_str "is_enabled" "1"]))
  = (Raise TypeError, holder 10 200 JNull (stream [ok_str "is_enabled" "1"])).
Proof.
  apply (@goto_needs_known_position loads); [split; discriminate|reflexivity].
Defined.

(** ** Failed operations *)

Section Failures.

Context {decoder : JsonDecoder}.

Lemma move_failure (steps : Q) (self self' : SampleHolderController) (e : exn) :
  Holder.move steps self = (Raise e, self') -> position self' = position self.
Proof.
  rewrite move_unfold.
  destruct (Arduino.run "is_enabled" [] (base self)) as [[r|e1] b1];
    [|intros H; inversion H; reflexivity].
  destruct (eq_str r "1"); [|intros H; inversion H; reflexivity].
  destruct (Arduino.run "move" [JNum steps] b1) as [[v|e2] b2];
    [|intros H; inversion H; reflexivity].
  destruct (as_num (position self)) as [p|e3]; [|intros H; inversion H; reflexivity].
  destruct (as_num (SPR self)) as [spr|e4]; [|intros H; inversion H; reflexivity].
  destruct (Qeq_bool spr 0); intros H; inversion H; reflexivity.
Qed.

Lemma step_failure (num : Z) (self self' : SampleHolderController) (e : exn) :
  Holder.step num self = (Raise e, self') -> position self' = position self.
Proof.
  unfold Holder.step. unfold_py.
  destruct (as_num (SPR self)) as [spr|e1]; [|intros H; inversion H; reflexivity].
  destruct (truediv spr (inject_Z (samples self))) as [w|e2];
    [|intros H; inversion H; reflexivity].
  apply move_failure.
Qed.

(** X6. [enable], [home], [move], [step] and [goto] store a new motor
    position as their last statement: when one of them raises, whatever
    the error, the position is the one it was before the call. *)
Theorem failed_operation_keeps_position :
  forall (o : Holder.operation) (self self' : SampleHolderController) (e : exn),
    (forall num, o <> Holder.Offset num) ->
    Holder.perform o self = (Raise e, self') ->
    position self' = position self.
Proof.
  intros o self self' e Hoff.
  destruct o as [| |steps|num|num|num]; cbn [Holder.perform].
  - unfold Holder.enable, Holder.inherited. unfold_py.
    destruct (Arduino.run "enable" [] (base self)) as [[v0|e1] b1];
      [|intros H; inversion H; reflexivity].
    cbn [base Holder.with_base].
    destruct (Arduino.run "get_pos" [] b1) as [[v|e2] b2]; [discriminate|].
    intros H; inversion H; reflexivity.
  - unfold Holder.home, Holder.inherited. unfold_py.
    destruct (Arduino.run "home" [] (base self)) as [[v0|e1] b1]; [discriminate|].
    intros H; inversion H; reflexivity.
  - apply move_failure.
  - apply step_failure.
  - unfold Holder.goto. unfold_py.
    destruct ((num <? 0)%Z || (num >? samples self)%Z);
      [intros H; inversion H; reflexivity|].
    pose proof (sample_state self) as Hst.
    destruct (Holder.sample self) as [[[cur|]|e1] st]; cbn in Hst; subst st;
      try (intros H; inversion H; reflexivity).
    destruct (Holder.goto_steps num cur (samples self)) as [d|e2];
      [|intros H; inversion H; reflexivity].
    apply step_failure.
  - exfalso. exact (Hoff num eq_refl).
Qed.


End Failures.

Lemma failed_operation_keeps_position_witness :
  position (snd (@Holder.perform loads (Holder.Move 5)
                   (holder 10 200 (JNum 50)
                      (stream [ok_str "is_enabled" "1"; failed "move"]))))
  = JNum 50.
Proof.
  apply (@failed_operation_keeps_position loads (Holder.Move 5)
           (holder 10 200 (JNum 50) (stream [ok_str "is_enabled" "1"; failed "move"]))
           _ (CommandFailed (JStr "move"))).
  - intros num H. discriminate H.
  - vm_compute. reflexivity.
Defined.


(** ** Moves that add up *)

Lemma wrapped_unique (p steps spr r : Q) (k : Z) :
  0 < spr -> 0 <= r -> r < spr ->
  p + steps == r + inject_Z k * spr ->
  wrapped p steps spr == r.
Proof.
  intros Hspr Hlo Hhi Hx. unfold wrapped.
  assert (Hk : Qfloor ((p + steps) / spr) = k).
  { apply Qfloor_div_eq; [exact Hspr| |].
    - rewrite Hx. lra.
    - rewrite Hx, inject_Z_plus, Qmult_plus_distr_l. change (inject_Z 1) with 1. lra. }
  rewrite Hk, Hx. ring.
Qed.

Lemma wrapped_split (p steps spr : Q) :
  p + steps == wrapped p steps spr + inject_Z (Qfloor ((p + steps) / spr)) * spr.
Proof. unfold wrapped. ring. Qed.

Lemma wrapped_twice (p a b spr : Q) :
  0 < spr -> wrapped (wrapped p a spr) b spr == wrapped p (a + b) spr.
Proof.
  intros Hspr.
  destruct (wrapped_range p (a + b) spr Hspr) as (Hlo & Hhi).
  apply (wrapped_unique _ _ _ _
           (Qfloor ((p + (a + b)) / spr) - Qfloor ((p + a) / spr))%Z Hspr Hlo Hhi).
  pose proof (wrapped_split p a spr) as Ha.
  pose proof (wrapped_split p (a + b) spr) as Hab.
  unfold Z.sub. rewrite inject_Z_plus, inject_Z_opp.
  set (ka := inject_Z (Qfloor ((p + a) / spr))) in *.
  set (kab := inject_Z (Qfloor ((p + (a + b)) / spr))) in *.
  set (wa := wrapped p a spr) in *. set (wab := wrapped p (a + b) spr) in *.
  clearbody ka kab wa wab.
  setoid_replace (wab + (kab + - ka) * spr) with (wab + kab * spr - ka * spr) by ring.
  rewrite <- Hab.
  setoid_replace (wa + b) with (p + a - ka * spr + b) by (rewrite Ha; ring).
  ring.
Qed.

Section Composition.

Context {decoder : JsonDecoder}.

(** X8. With an integral position, integral steps and an integral
    [SPR], all of magnitude at most [2^48], two successful moves in a
    row end at the position one move by the sum of their steps ends
    at. *)
Theorem moves_add_up :
  forall (self s1 s2 s3 : SampleHolderController) (a b p spr : Q),
    SPR self = JNum spr ->
    0 < spr ->
    position self = JNum p ->
    Exact.small_int p -> Exact.small_int spr ->
    Exact.small_int a -> Exact.small_int b ->
    Holder.move a self = (Ok tt, s1) ->
    Holder.move b s1 = (Ok tt, s2) ->
    Holder.move (a + b) self = (Ok tt, s3) ->
    exists p2 p3 : Q,
      position s2 = JNum p2 /\ position s3 = JNum p3 /\ p2 == p3.
Proof.
  intros self s1 s2 s3 a b p0 spr Hs Hspr _ _ _ _ _ H1 H2 H3.
  destruct (move_position a self s1 spr Hs H1) as (HS1 & _ & p & Hp & Hp1).
  assert (Hs1 : SPR s1 = JNum spr) by (rewrite HS1; exact Hs).
  destruct (move_position b s1 s2 spr Hs1 H2) as (_ & _ & p1 & Hp1' & Hp2).
  destruct (move_position (a + b) self s3 spr Hs H3) as (_ & _ & p' & Hp' & Hp3).
  rewrite Hp in Hp'. inversion Hp'; subst p'.
  rewrite Hp1 in Hp1'. cbn in Hp1'. inversion Hp1'; subst p1.
  exists (wrapped (wrapped p a spr) b spr), (wrapped p (a + b) spr).
  split; [exact Hp2|]. split; [exact Hp3|]. apply wrapped_twice, Hspr.
Qed.

(** X9. With an integral position in [[0, SPR)] and an [SPR] that is a
    whole multiple of the sample count, a successful move by [k] whole
    revolutions, or step by [k] times the sample count, leaves the
    position where it is, as long as [k * SPR] and [SPR] are of
    magnitude at most [2^48]. *)
Theorem whole_revolutions_keep_position :
  forall (self self' : SampleHolderController) (p spr : Q) (k : Z),
    position self = JNum p ->
    SPR self = JNum spr ->
    0 < spr ->
    (0 < samples self)%Z ->
    0 <= p -> p < spr ->
    Exact.small_int p ->
    Exact.small_int spr ->
    Exact.whole_sectors spr (samples self) ->
    Exact.small_int (inject_Z k * spr) ->
    Holder.move (inject_Z k * spr) self = (Ok tt, self') \/
      Holder.step (k * samples self) self = (Ok tt, self') ->
    exists p' : Q, position self' = JNum p' /\ p' == p.
Proof.
  intros self self' p spr k Hp Hs Hspr Hn Hlo Hhi _ _ _ _ Hop.
  assert (Hmove : exists steps : Q,
            steps == inject_Z k * spr /\ Holder.move steps self = (Ok tt, self')).
  { destruct Hop as [Hm|Hst].
    - exists (inject_Z k * spr). split; [reflexivity|exact Hm].
    - rewrite (step_unfold _ self spr Hs) in Hst by lia.
      eexists. split; [|exact Hst].
      rewrite inject_Z_mult. field. apply inject_Z_nonzero. lia. }
  destruct Hmove as (steps & Hsteps & Hm).
  destruct (move_position steps self self' spr Hs Hm) as (_ & _ & p0 & Hp0 & Hpos).
  rewrite Hp in Hp0. cbn in Hp0. inversion Hp0; subst p0.
  exists (wrapped p steps spr). split; [exact Hpos|].
  apply (wrapped_unique p steps spr p k Hspr Hlo Hhi).
  rewrite Hsteps. reflexivity.
Qed.

End Composition.

Lemma moves_add_up_witness :
  let script := stream [ok_str "is_enabled" "1"; ok "move";
                        ok_str "is_enabled" "1"; ok "move"] in
  let self := holder 10 200 (JNum 190) script in
  exists p2 p3 : Q,
    position (snd (@Holder.move loads 7 (snd (@Holder.move loads 15 self)))) = JNum p2 /\
    position (snd (@Holder.move loads (15 + 7) self)) = JNum p3 /\
    p2 == p3.
Proof.
  intros script self.
  apply (@moves_add_up loads self (snd (@Holder.move loads 15 self))
           (snd (@Holder.move loads 7 (snd (@Holder.move loads 15 self))))
           (snd (@Holder.move loads (15 + 7) self)) 15 7 190 200).
  - reflexivity.
  - reflexivity.
  - reflexivity.
  - apply (small_int_inject 190). vm_compute. split; discriminate.
  - apply (small_int_inject 200). vm_compute. split; discriminate.
  - apply (small_int_inject 15). vm_compute. split; discriminate.
  - apply (small_int_inject 7). vm_compute. split; discriminate.
  - vm_compute. reflexivity.
  - vm_compute. reflexivity.
  - vm_compute. reflexivity.
Defined.

Lemma whole_revolutions_keep_position_witness :
  let self := holder 10 200 (JNum 35) (stream [ok_str "is_enabled" "1"; ok "move"]) in
  exists p' : Q,
    position (snd (@Holder.step loads (-2 * 10) self)) = JNum p' /\ p' == 35.
Proof.
  intros self.
  apply (@whole_revolutions_keep_position loads self
           (snd (@Holder.step loads (-2 * 10) self)) 35 200 (-2)).
  - reflexivity.
  - reflexivity.
  - reflexivity.
  - reflexivity.
  - discriminate.
  - reflexivity.
  - apply (small_int_inject 35). vm_compute. split; discriminate.
  - apply (small_int_inject 200). vm_compute. split; discriminate.
  - apply (whole_sectors_inject 10 20).
  - exists (-400)%Z. split; [reflexivity|vm_compute; split; discriminate].
  - right. vm_compute. reflexivity.
Defined.

(** ** Where [goto] ends *)

Lemma shortest_zero (num cur n : Z) :
  (0 < n)%Z -> ((num - cur) mod n = 0)%Z -> Spec.shortest num cur n = 0%Z.
Proof.
  intros Hn Hmod. unfold Spec.shortest. rewrite Hmod.
  destruct (Z.ltb_spec n (2 * 0)); [lia|reflexivity].
Qed.

Lemma sector_aligned (spr : Q) (n cur : Z) (p : Q) :
  0 < spr -> (0 < n)%Z -> p == inject_Z cur * (spr / inject_Z n) ->
  Spec.sector p spr n = cur.
Proof.
  intros Hspr Hn Hp.
  pose proof (width_pos spr n Hspr Hn) as Hw.
  unfold Spec.sector. set (w := spr / inject_Z n) in *.
  apply Qfloor_div_eq; [exact Hw| |].
  - rewrite Hp. set (cw := inject_Z cur * w). clearbody cw w. qlra.
  - rewrite Hp, inject_Z_plus, Qmult_plus_distr_l. change (inject_Z 1) with 1.
    set (cw := inject_Z cur * w). clearbody cw w. qlra.
Qed.

Section GotoEnds.

Context {decoder : JsonDecoder}.

(** X10. A [goto] to a target congruent modulo the sample count to the
    sample that the property [sample] returns is a [move] by no steps:
    the exchange with the device is made all the same, and a position
    in [[0, SPR)], with [SPR] at most [2^48], stays where it is. *)
Theorem goto_current_sample_moves_nothing :
  forall (self self' : SampleHolderController) (num cur : Z) (p spr : Q),
    position self = JNum p ->
    SPR self = JNum spr ->
    0 < spr ->
    (0 < samples self)%Z ->
    (0 <= num <= samples self)%Z ->
    fst (Holder.sample self) = Ok (Some cur) ->
    ((num - cur) mod samples self = 0)%Z ->
    Holder.goto num self
      = Holder.move (inject_Z 0 * (spr / inject_Z (samples self))) self /\
    (0 <= p -> p < spr -> spr <= inject_Z Exact.limit ->
     Holder.goto num self = (Ok tt, self') ->
     exists p' : Q, position self' = JNum p' /\ p' == p).
Proof.
  intros self self' num cur p spr Hp Hs Hspr Hn Hnum Hcur Hmod.
  assert (Hgoto : Holder.goto num self
                  = Holder.move (inject_Z 0 * (spr / inject_Z (samples self))) self).
  { rewrite (goto_delegates self num cur Hn Hnum Hcur).
    rewrite (shortest_zero _ _ _ Hn Hmod).
    apply step_unfold; [exact Hs|lia]. }
  split; [exact Hgoto|].
  intros Hlo Hhi _ Hok. rewrite Hgoto in Hok.
  destruct (move_position _ self self' spr Hs Hok) as (_ & _ & p0 & Hp0 & Hpos).
  rewrite Hp in Hp0. cbn in Hp0. inversion Hp0; subst p0.
  eexists. split; [exact Hpos|].
  apply (wrapped_unique p _ spr p 0 Hspr Hlo Hhi).
  change (inject_Z 0) with 0. ring.
Qed.

(** X11. With an [SPR] that is a whole multiple of the sample count,
    from the nominal position of a sample, [cur * SPR / samples], both
    of magnitude at most [2^48], a successful [goto num] ends exactly
    on the nominal position of the target,
    [(num mod samples) * SPR / samples]. *)
Theorem goto_lands_on_nominal_position :
  forall (self self' : SampleHolderController) (num cur : Z) (p spr : Q),
    position self = JNum p ->
    SPR self = JNum spr ->
    0 < spr ->
    (0 < samples self)%Z ->
    Exact.small_int p ->
    Exact.small_int spr ->
    Exact.whole_sectors spr (samples self) ->
    p == inject_Z cur * (spr / inject_Z (samples self)) ->
    Holder.goto num self = (Ok tt, self') ->
    exists p' : Q,
      position self' = JNum p' /\
      p' == inject_Z (num mod samples self) * (spr / inject_Z (samples self)).
Proof.
  intros self self' num cur p spr Hp Hs Hspr Hn _ _ _ Hal Hok.
  set (n := samples self) in *.
  destruct (goto_inv num self self' Hok) as (Hnum & cur' & d & Hcur & Hd & Hstep).
  rewrite (sample_number self p spr Hp Hs Hspr Hn) in Hcur. cbn [fst] in Hcur.
  fold n in Hcur, Hd.
  rewrite (sector_aligned spr n cur p Hspr Hn Hal) in Hcur.
  assert (cur' = cur) by congruence. subst cur'.
  rewrite (goto_steps_shortest num cur n Hn) in Hd.
  assert (Hd' : d = Spec.shortest num cur n) by congruence. subst d.
  destruct (shortest_congruent num cur n Hn) as (j & Hj).
  rewrite (step_unfold _ self spr Hs) in Hstep by (fold n; lia). fold n in Hstep.
  destruct (move_position _ self self' spr Hs Hstep) as (_ & _ & p0 & Hp0 & Hpos).
  rewrite Hp in Hp0. cbn in Hp0. inversion Hp0; subst p0.
  eexists. split; [exact Hpos|].
  pose proof (width_pos spr n Hspr Hn) as Hw.
  pose proof (width_times spr n Hn) as Hnw.
  pose proof (Z.mod_pos_bound num n Hn) as Hm.
  apply (wrapped_unique p _ spr _ (j + num / n)%Z Hspr).
  - apply Qmult_le_0_compat; [|apply Qlt_le_weak, Hw].
    change 0 with (inject_Z 0). rewrite <- Zle_Qle. lia.
  - rewrite <- Hnw at 2. apply Qmult_lt_compat_r; [exact Hw|].
    rewrite <- Zlt_Qlt. lia.
  - rewrite Hal, Hj.
    pose proof (Z.div_mod num n ltac:(lia)) as Hdm.
    assert (HQ : inject_Z num == inject_Z n * inject_Z (num / n) + inject_Z (num mod n)).
    { rewrite <- inject_Z_mult, <- inject_Z_plus, <- Hdm. reflexivity. }
    unfold Z.sub. rewrite !inject_Z_plus, inject_Z_opp, inject_Z_mult, HQ.
    field. apply inject_Z_nonzero. lia.
Qed.

End GotoEnds.

Lemma goto_current_sample_moves_nothing_witness :
  let self := holder 10 200 (JNum 5) (stream [ok_str "is_enabled" "1"; ok "move"]) in
  sent (inst (base (snd (@Holder.goto loads 10 self))))
    = [("is_enabled"%string, []); ("move"%string, [JNum (inject_Z 0 * (200 / inject_Z 10))])] /\
  exists p' : Q, position (snd (@Holder.goto loads 10 self)) = JNum p' /\ p' == 5.
Proof.
  intros self.
  destruct (@goto_current_sample_moves_nothing loads self (snd (@Holder.goto loads 10 self))
              10 0 5 200) as (Hgoto & Hstay).
  - reflexivity.
  - reflexivity.
  - reflexivity.
  - reflexivity.
  - split; discriminate.
  - vm_compute. reflexivity.
  - reflexivity.
  - split.
    + rewrite Hgoto. vm_compute. reflexivity.
    + apply Hstay; [discriminate|reflexivity|discriminate|vm_compute; reflexivity].
Defined.

Lemma goto_lands_on_nominal_position_witness :
  let self := holder 10 200 (JNum 180) (stream [ok_str "is_enabled" "1"; ok "move"]) in
  exists p' : Q,
    position (snd (@Holder.goto loads 2 self)) = JNum p' /\
    p' == inject_Z (2 mod 10) * (200 / inject_Z 10).
Proof.
  intros self.
  apply (@goto_lands_on_nominal_position loads self (snd (@Holder.goto loads 2 self))
           2 9 180 200).
  - reflexivity.
  - reflexivity.
  - reflexivity.
  - reflexivity.
  - apply (small_int_inject 180). vm_compute. split; discriminate.
  - apply (small_int_inject 200). vm_compute. split; discriminate.
  - apply (whole_sectors_inject 10 20).
  - reflexivity.
  - vm_compute. reflexivity.
Defined.

(** ** What the operations leave alone *)

Lemma continues_refl (a : ArduinoController) : Wire.continues a a.
Proof.
  unfold Wire.continues. repeat split. exists []. split; [|constructor].
  rewrite app_nil_r. reflexivity.
Qed.

Lemma continues_trans (a b c : ArduinoController) :
  Wire.continues a b -> Wire.continues b c -> Wire.continues a c.
Proof.
  intros (P1 & B1 & T1 & R1 & C1 & O1 & S1 & n1 & F1 & A1)
         (P2 & B2 & T2 & R2 & C2 & O2 & S2 & n2 & F2 & A2).
  unfold Wire.continues.
  repeat split; try congruence.
  exists (n1 ++ n2)%list. split.
  - rewrite F2, F1, app_assoc. reflexivity.
  - apply Forall_app. split; [exact A1|]. rewrite <- C1. exact A2.
Qed.

Lemma frames_log (s : Serial) (e : event) (rest : list (option byte)) :
  Wire.frames (SerialPort.log e rest s) =
  (Wire.frames s ++ match e with Wrote f => [f] | ReadBytes _ => [] end)%list.
Proof.
  unfold Wire.frames, SerialPort.log. cbn [wire]. rewrite flat_map_app. cbn.
  rewrite app_nil_r. reflexivity.
Qed.

Lemma continues_log (a : ArduinoController) (e : event) (rest : list (option byte)) :
  match e with Wrote f => cmd_term f = termination_char a | ReadBytes _ => True end ->
  Wire.continues a (Arduino.with_inst (fun _ => SerialPort.log e rest (inst a)) a).
Proof.
  intros He. unfold Wire.continues.
  do 7 (split; [reflexivity|]).
  exists (match e with Wrote f => [f] | ReadBytes _ => [] end).
  split; [exact (frames_log (inst a) e rest)|].
  destruct e; [constructor; [exact He|constructor]|constructor].
Qed.

Lemma with_inst_same (a : ArduinoController) :
  Arduino.with_inst (fun _ => inst a) a = a.
Proof. destruct a. reflexivity. Qed.

Lemma continues_read (a : ArduinoController) :
  Wire.continues a (snd (Arduino.on_inst SerialPort.read a)).
Proof.
  unfold Arduino.on_inst, SerialPort.read.
  destruct (is_open (inst a)).
  - destruct (pending (inst a)) as [|[b|] rest]; cbn [snd];
      apply continues_log; exact I.
  - cbn [snd]. rewrite with_inst_same. apply continues_refl.
Qed.

Lemma continues_read_loop (budget : nat) :
  forall (v : Arduino.loop_vars) (a : ArduinoController),
    Wire.continues a (snd (Arduino.read_loop budget v a)).
Proof.
  induction budget as [|budget IH]; intros v a; cbn [Arduino.read_loop];
    destruct (Arduino.not_close (Arduino.curr v)
              && (Arduino.attempts v <? read_attempts a)%Z);
    try apply continues_refl.
  pose proof (continues_read a) as Hread.
  destruct (Arduino.on_inst SerialPort.read a) as [[c|e] a']; cbn [snd] in Hread.
  - eapply continues_trans; [exact Hread|apply IH].
  - exact Hread.
Qed.

Lemma continues_write (name : string) (args : list json) (a : ArduinoController) :
  Wire.continues a (snd (Arduino.write_command name args a)).
Proof.
  unfold Arduino.write_command, Arduino.on_inst, SerialPort.write. unfold_py.
  destruct (is_open (inst a)); cbn [snd].
  - apply continues_log. reflexivity.
  - rewrite with_inst_same. apply continues_refl.
Qed.

Section Settings.

Context {decoder : JsonDecoder}.

Lemma continues_read_response (a : ArduinoController) :
  Wire.continues a (snd (Arduino.read_response a)).
Proof.
  rewrite read_response_unfold.
  pose proof (continues_read_loop (Arduino.budget_of a) start a) as Hloop.
  destruct (Arduino.read_loop (Arduino.budget_of a) start a) as [[v|e] a'];
    cbn [snd] in Hloop; [|exact Hloop].
  destruct (Arduino.attempts v =? read_attempts a')%Z; exact Hloop.
Qed.

Lemma continues_run (name : string) (args : list json) (a : ArduinoController) :
  Wire.continues a (snd (Arduino.run name args a)).
Proof.
  rewrite run_state.
  pose proof (continues_write name args a) as Hw.
  destruct (Arduino.write_command name args a) as [[[]|e] a1]; cbn [snd] in Hw.
  - eapply continues_trans; [exact Hw|apply continues_read_response].
  - exact Hw.
Qed.

Lemma same_holder_base (h : SampleHolderController) (a : ArduinoController) :
  Wire.continues (base h) a -> Wire.same_holder h (Holder.with_base (fun _ => a) h).
Proof. intros Hc. split; [|split; [|split]]; try reflexivity. exact Hc. Qed.

Lemma same_holder_refl (h : SampleHolderController) : Wire.same_holder h h.
Proof. split; [|split; [|split]]; try reflexivity. apply continues_refl. Qed.

Lemma same_holder_trans (h1 h2 h3 : SampleHolderController) :
  Wire.same_holder h1 h2 -> Wire.same_holder h2 h3 -> Wire.same_holder h1 h3.
Proof.
  intros (N1 & S1 & D1 & C1) (N2 & S2 & D2 & C2).
  split; [|split; [|split]]; try congruence. eapply continues_trans; eassumption.
Qed.

Lemma same_holder_run (name : string) (args : list json) (h : SampleHolderController) :
  Wire.same_holder h (snd (Holder.inherited (Arduino.run name args) h)).
Proof.
  unfold Holder.inherited.
  pose proof (continues_run name args (base h)) as Hc.
  destruct (Arduino.run name args (base h)) as [r a]. cbn [snd] in *.
  apply same_holder_base, Hc.
Qed.

Lemma same_holder_position (p : json) (h h' : SampleHolderController) :
  Wire.same_holder h h' -> Wire.same_holder h (Holder.set_position p h').
Proof. intros (N & S & D & C). split; [|split; [|split]]; assumption. Qed.

Lemma same_holder_move (steps : Q) (h : SampleHolderController) :
  Wire.same_holder h (snd (Holder.move steps h)).
Proof.
  rewrite move_unfold.
  pose proof (continues_run "is_enabled" [] (base h)) as H1.
  destruct (Arduino.run "is_enabled" [] (base h)) as [[r|e] b1]; cbn [snd] in H1;
    [|apply same_holder_base, H1].
  destruct (eq_str r "1"); [|apply same_holder_base, H1].
  pose proof (continues_run "move" [JNum steps] b1) as H2.
  pose proof (continues_trans _ _ _ H1 H2) as H12.
  destruct (Arduino.run "move" [JNum steps] b1) as [[v|e] b2]; cbn [snd] in H12;
    [|apply same_holder_base, H12].
  destruct (as_num (position h)); [|apply same_holder_base, H12].
  destruct (as_num (SPR h)) as [spr|]; [|apply same_holder_base, H12].
  destruct (Qeq_bool spr 0); cbn [snd].
  - apply same_holder_base, H12.
  - apply same_holder_position, same_holder_base, H12.
Qed.

Lemma same_holder_step (num : Z) (h : SampleHolderController) :
  Wire.same_holder h (snd (Holder.step num h)).
Proof.
  unfold Holder.step. unfold_py.
  destruct (as_num (SPR h)); [|apply same_holder_refl].
  destruct (truediv _ _); [|apply same_holder_refl].
  apply same_holder_move.
Qed.

Lemma same_holder_perform (o : Holder.operation) (h : SampleHolderController) :
  Wire.same_holder h (snd (Holder.perform o h)).
Proof.
  destruct o as [| |steps|num|num|num]; cbn [Holder.perform].
  - unfold Holder.enable. unfold_py.
    pose proof (same_holder_run "enable" [] h) as H1.
    destruct (Holder.inherited (Arduino.run "enable" []) h) as [[v0|e] h1];
      cbn [snd] in H1; [|exact H1].
    pose proof (same_holder_run "get_pos" [] h1) as H2.
    destruct (Holder.inherited (Arduino.run "get_pos" []) h1) as [[v|e] h2];
      cbn [snd] in H2 |- *.
    + apply same_holder_position. eapply same_holder_trans; eassumption.
    + eapply same_holder_trans; eassumption.
  - unfold Holder.home. unfold_py.
    pose proof (same_holder_run "home" [] h) as H1.
    destruct (Holder.inherited (Arduino.run "home" []) h) as [[v0|e] h1];
      cbn [snd] in H1 |- *; [|exact H1].
    apply same_holder_position. exact H1.
  - apply same_holder_move.
  - apply same_holder_step.
  - unfold Holder.goto. unfold_py.
    destruct ((num <? 0)%Z || (num >? samples h)%Z); [apply same_holder_refl|].
    pose proof (sample_state h) as Hst.
    destruct (Holder.sample h) as [[[cur|]|e] st]; cbn in Hst; subst st;
      try apply same_holder_refl.
    destruct (Holder.goto_steps num cur (samples h)); [|apply same_holder_refl].
    apply same_holder_step.
  - rewrite offset_unfold.
    pose proof (same_holder_move num h) as H1.
    destruct (Holder.move num h) as [[[]|e] mid]; cbn [snd] in H1 |- *; [|exact H1].
    pose proof (same_holder_run "offset" [JNum (- num)] mid) as H2.
    unfold Holder.inherited in H2.
    destruct (Arduino.run "offset" [JNum (- num)] (base mid)) as [[v|e] b3];
      cbn [snd] in H2 |- *.
    + apply same_holder_position. eapply same_holder_trans; eassumption.
    + eapply same_holder_trans; eassumption.
Qed.

(** X12. Whatever the operations called and however they end, they change
    neither the sample count, [SPR] or its default, nor a setting of the
    client (port, baud rate, timeout, [read_attempts], terminator, the
    port being open or not), and every command they write carries the
    terminator set at construction. *)
Theorem operations_keep_settings :
  forall (ops : list Holder.operation) (self : SampleHolderController),
    let self' := snd (HolderLink.perform_all ops self) in
    samples self' = samples self /\
    SPR self' = SPR self /\
    DEFAULT_SPR self' = DEFAULT_SPR self /\
    Wire.continues (base self) (base self').
Proof.
  intros ops. induction ops as [|o ops IH]; intros self self'; subst self'.
  - apply same_holder_refl.
  - cbn [HolderLink.perform_all]. unfold bind.
    pose proof (same_holder_perform o self) as H1.
    destruct (Holder.perform o self) as [[[]|e] h1]; cbn [snd] in H1 |- *.
    + exact (same_holder_trans _ _ _ H1 (IH h1)).
    + exact H1.
Qed.

End Settings.

(** ** [is_enabled] *)

Section IsEnabled.

Context {decoder : JsonDecoder}.

(** X13. [is_enabled] answers [True] for the string ['1'] only: any other
    value the invocation returns, the number 1 and [true] included,
    counts as not enabled, and [move] then raises the not-enabled
    error. *)
Theorem is_enabled_only_for_the_string_one :
  forall (self : SampleHolderController) (r : json) (b1 : ArduinoController) (steps : Q),
    Arduino.run "is_enabled" [] (base self) = (Ok r, b1) ->
    (fst (Holder.is_enabled self) = Ok true <-> r = JStr "1") /\
    (r <> JStr "1" -> fst (Holder.move steps self) = Raise NotEnabled).
Proof.
  intros self r b1 steps Hrun.
  assert (Hstr : eq_str r "1" = true <-> r = JStr "1").
  { destruct r; cbn; try (split; [discriminate|intros H; discriminate H]).
    rewrite String.eqb_eq. split; [intros ->; reflexivity|intros H; inversion H; reflexivity]. }
  split.
  - rewrite is_enabled_unfold, Hrun. cbn [fst]. rewrite <- Hstr.
    split; [intros H; congruence|intros ->; reflexivity].
  - intros Hne. rewrite move_unfold, Hrun.
    destruct (eq_str r "1") eqn:E; [|reflexivity].
    exfalso. apply Hne, Hstr. reflexivity.
Qed.

End IsEnabled.

Lemma is_enabled_only_for_the_string_one_witness :
  let self := holder 10 200 (JNum 0) (stream [Wire.ok_num "is_enabled" "1" 1]) in
  fst (@Holder.move Wire.loads 5 self) = Raise NotEnabled.
Proof.
  intros self.
  destruct (@is_enabled_only_for_the_string_one Wire.loads self (JNum (inject_Z 1))
              (snd (@Arduino.run Wire.loads "is_enabled" [] (base self))) 5) as (_ & Hmove).
  - vm_compute. reflexivity.
  - apply Hmove. discriminate.
Defined.

(** ** Responses [run] cannot use *)

Section RunErrors.

Context {decoder : JsonDecoder}.

(** X14. Once a response has been decoded [run] consumes it whatever it is.
    A value that is not an object raises a type error, an object
    without [status] a key error on [status], and an object with the
    status [error] and without [command] a key error on [command]; an
    error of the decode cycle itself is passed on. *)
Theorem run_on_unusable_response :
  forall (name : string) (args : list json) (self self1 self2 : ArduinoController)
         (r : outcome json),
    Arduino.write_command name args self = (Ok tt, self1) ->
    Arduino.read_response self1 = (r, self2) ->
    snd (Arduino.run name args self) = self2 /\
    (forall e, r = Raise e -> fst (Arduino.run name args self) = Raise e) /\
    (forall resp, r = Ok resp -> (forall kv, resp <> JObj kv) ->
       fst (Arduino.run name args self) = Raise TypeError) /\
    (forall kv, r = Ok (JObj kv) -> assoc "status" kv = None ->
       fst (Arduino.run name args self) = Raise (KeyError "status")) /\
    (forall kv, r = Ok (JObj kv) -> assoc "status" kv = Some (JStr "error") ->
       assoc "command" kv = None ->
       fst (Arduino.run name args self) = Raise (KeyError "command")).
Proof.
  intros name args self self1 self2 r Hw Hr.
  split; [rewrite run_state, Hw, Hr; reflexivity|].
  rewrite run_unfold, Hw, Hr.
  split; [intros e ->; reflexivity|].
  split; [|split].
  - intros resp -> Hobj. destruct resp; try reflexivity.
    exfalso. exact (Hobj kv eq_refl).
  - intros kv -> Hs. cbn. rewrite Hs. reflexivity.
  - intros kv -> Hs Hc. cbn. rewrite Hs. cbn. rewrite Hc. reflexivity.
Qed.

End RunErrors.

Lemma run_on_unusable_response_witness :
  fst (@Arduino.run Wire.loads_empty_object "home" []
         (Arduino.init (device [Some x7b; Some x7d]) "COM4" 9600 10 3 None))
  = Raise (KeyError "status").
Proof.
  set (self := Arduino.init (device [Some x7b; Some x7d]) "COM4" 9600 10 3 None).
  destruct (@run_on_unusable_response Wire.loads_empty_object "home" [] self
              (snd (Arduino.write_command "home" [] self))
              (snd (@Arduino.read_response Wire.loads_empty_object
                      (snd (Arduino.write_command "home" [] self))))
              (Ok (JObj []))) as (_ & _ & _ & Hstatus & _).
  - reflexivity.
  - vm_compute. reflexivity.
  - exact (Hstatus [] eq_refl eq_refl).
Defined.

(** ** [read_attempts] of zero or less *)

Section NoAttempts.

Context {decoder : JsonDecoder}.

(** X15. With [read_attempts = 0] the decode cycle raises the read-timeout
    error at once, and with a negative [read_attempts] it hands the
    empty buffer to [json.loads]: in both cases without a single read,
    whatever the device has sent. *)
Theorem read_response_without_attempts :
  forall (self : ArduinoController),
    (read_attempts self <= 0)%Z ->
    Arduino.read_response self =
      (if (read_attempts self =? 0)%Z then Raise (ReadTimeout []) else decoded [], self).
Proof.
  intros self Hra. rewrite read_response_unfold.
  rewrite read_loop_exit by (right; cbn; lia).
  cbn [start Arduino.attempts Arduino.resp].
  rewrite Z.eqb_sym. destruct (read_attempts self =? 0)%Z; reflexivity.
Qed.

End NoAttempts.

Lemma read_response_without_attempts_witness :
  let self := Arduino.init (device (stream [ok "home"])) "COM4" 9600 10 0 None in
  @Arduino.read_response loads self = (Raise (ReadTimeout []), self).
Proof.
  intros self.
  rewrite (@read_response_without_attempts loads self); [reflexivity|].
  discriminate.
Defined.

(** ** A reply that comes late *)

Lemma read_loop_idle_prefix (k : nat) :
  forall (tail : list (option byte)) (budget : nat) (v : Arduino.loop_vars)
         (self : ArduinoController),
    is_open (inst self) = true ->
    pending (inst self) = (repeat None k ++ tail)%list ->
    Arduino.not_close (Arduino.curr v) = true ->
    Arduino.resp_len v = List.length (Arduino.resp v) ->
    (read_attempts self - Arduino.attempts v = Z.of_nat k)%Z ->
    (k <= budget)%nat ->
    exists v',
      Arduino.read_loop budget v self = (Ok v', consumed (repeat None k) tail self) /\
      Arduino.resp v' = Arduino.resp v /\
      Arduino.attempts v' = read_attempts self.
Proof.
  induction k as [|k IH]; intros tail budget v self Hopen Hpend Hcurr Hlen Hk Hb.
  - exists v. rewrite read_loop_exit by (right; lia).
    cbn [repeat app] in Hpend |- *. rewrite <- Hpend, consumed_nothing.
    repeat split. lia.
  - destruct budget as [|budget]; [lia|].
    rewrite read_loop_iter by (assumption || lia).
    rewrite Hpend. cbn [repeat app next fst snd].
    destruct (IH tail budget (after_read None v)
                (consumed [None] (repeat None k ++ tail) self))
      as (v' & Hloop & Hresp & Hatt).
    + exact Hopen.
    + reflexivity.
    + reflexivity.
    + reflexivity.
    + cbn. lia.
    + lia.
    + exists v'. rewrite Hloop, consumed_consumed.
      split; [reflexivity|]. split.
      * rewrite Hresp. cbn. apply app_nil_r.
      * exact Hatt.
Qed.

Lemma gapless_bytes (b : list byte) :
  ~ In Arduino.close_brace b ->
  no_close (map Some b) = true /\ idles (map Some b) = 0%nat /\ received (map Some b) = b.
Proof.
  induction b as [|x b IH]; intros Hin; [repeat split|].
  destruct IH as (Hnc & Hid & Hrc); [intros H; apply Hin; right; exact H|].
  split; [|split].
  - unfold no_close in *. cbn [map forallb is_close]. rewrite Hnc.
    destruct (Byte.eqb x Arduino.close_brace) eqn:E; [|reflexivity].
    exfalso. apply Hin. left. apply Byte.byte_dec_bl in E. exact E.
  - exact Hid.
  - cbn. f_equal. exact Hrc.
Qed.

Section LateReply.

Context {decoder : JsonDecoder}.

(** X16. Nothing discards what the port still holds before a command is
    written. When the device stays silent for [read_attempts] reads and
    only then sends its reply, the invocation raises the read-timeout
    error and the late reply is decoded as the response of the next
    invocation, whatever command that one runs. *)
Theorem late_reply_answers_the_next_command :
  forall (self : ArduinoController) (reply : list byte) (post : list (option byte))
         (name name' : string) (args args' : list json),
    is_open (inst self) = true ->
    (0 < read_attempts self)%Z ->
    pending (inst self)
      = (repeat None (Z.to_nat (read_attempts self))
         ++ map Some reply ++ Some Arduino.close_brace :: post)%list ->
    ~ In Arduino.close_brace reply ->
    exists s1 s2 s3 : ArduinoController,
      Arduino.run name args self = (Raise (ReadTimeout []), s1) /\
      Arduino.write_command name' args' s1 = (Ok tt, s2) /\
      Arduino.read_response s2 = (decoded (reply ++ [Arduino.close_brace]), s3) /\
      pending (inst s3) = post.
Proof.
  intros self reply post name name' args args' Hopen Hra Hpend Hin.
  destruct (gapless_bytes reply Hin) as (Hnc & Hid & Hrc).
  destruct (write_command_open name args self Hopen)
    as (w1 & Hw1 & Hopen1 & Hpend1 & Hra1 & _).
  set (tail := (map Some reply ++ Some Arduino.close_brace :: post)%list) in *.
  set (k := Z.to_nat (read_attempts self)) in *.
  destruct (read_loop_idle_prefix k tail (Arduino.budget_of w1) start w1)
    as (v & Hloop & Hresp & Hatt); try reflexivity; try assumption.
  { rewrite Hpend1. exact Hpend. }
  { cbn. rewrite Hra1. subst k. lia. }
  { unfold Arduino.budget_of. rewrite Hra1. fold k. lia. }
  set (s1 := consumed (repeat None k) tail w1) in *.
  assert (Hrun : Arduino.run name args self = (Raise (ReadTimeout []), s1)).
  { rewrite run_unfold, Hw1, read_response_unfold, Hloop.
    change (read_attempts s1) with (read_attempts w1).
    rewrite Hatt, Z.eqb_refl, Hresp. reflexivity. }
  destruct (write_command_open name' args' s1 Hopen1)
    as (s2 & Hw2 & Hopen2 & Hpend2 & Hra2 & _).
  exists s1, s2, (consumed (map Some reply ++ [Some Arduino.close_brace]) post s2).
  split; [exact Hrun|]. split; [exact Hw2|]. split; [|reflexivity].
  rewrite (read_response_stops_at_close s2 (map Some reply) post); try assumption.
  - rewrite Hrc. reflexivity.
  - rewrite Hid, Hra2. cbn. rewrite Hra1. exact Hra.
Qed.

End LateReply.

Lemma late_reply_answers_the_next_command_witness :
  let self := Arduino.init
                (device (repeat None 3 ++ stream [ok "move"; ok_str "is_enabled" "1"]))
                "COM4" 9600 10 3 None in
  fst (@Arduino.run loads "move" [JNum 5] self) = Raise (ReadTimeout []) /\
  fst (@Arduino.run loads "is_enabled" []
         (snd (@Arduino.run loads "move" [JNum 5] self))) = Ok JNull.
Proof.
  intros self.
  destruct (@late_reply_answers_the_next_command loads self
              (removelast (text (ok "move")))
              (stream [ok_str "is_enabled" "1"])
              "move" "is_enabled" [JNum 5] [])
    as (s1 & s2 & s3 & Hrun & Hw & Hr & _).
  - reflexivity.
  - reflexivity.
  - vm_compute. reflexivity.
  - vm_compute. intuition discriminate.
  - rewrite Hrun. split; [reflexivity|]. cbn [snd].
    rewrite run_unfold, Hw, Hr. vm_compute. reflexivity.
Defined.

(** ** The property [baud] *)

Section BaudProperty.

Context {decoder : JsonDecoder}.

(** X17. The setter of [baud] asks the device with the command
    [is_connected] before anything else. On a true answer it raises the
    configuration error, on a failed exchange the error of the exchange,
    and both rates are then the ones from before. On a false answer it
    stores the rate in the client before the port is given it: when the
    port rejects the rate the setter raises the error of the port and
    the getter gives the new rate all the same; when the port takes it
    the setter returns, the getter gives the new rate, and the rate of
    the port is the new one if that is an integer. *)
Theorem set_baud_asks_the_device_first :
  forall (self s1 : ArduinoController) (accepted : outcome unit) (b : Q),
    (forall c : json,
       Arduino.run "is_connected" [] self = (Ok c, s1) -> truthy c = true ->
       Arduino.set_baud accepted b self = (Raise ConfigurationLocked, s1) /\
       baud_ s1 = baud_ self /\ baudrate (inst s1) = baudrate (inst self)) /\
    (forall e : exn,
       Arduino.run "is_connected" [] self = (Raise e, s1) ->
       Arduino.set_baud accepted b self = (Raise e, s1) /\
       baud_ s1 = baud_ self /\ baudrate (inst s1) = baudrate (inst self)) /\
    (forall c : json,
       Arduino.run "is_connected" [] self = (Ok c, s1) -> truthy c = false ->
       exists s2 : ArduinoController,
         Arduino.set_baud accepted b self
           = (match accepted with Ok _ => Ok tt | Raise e => Raise e end, s2) /\
         Arduino.get_baud s2 = (Ok b, s2) /\
         (accepted = Ok tt -> integral b -> baudrate (inst s2) = b)).
Proof.
  intros self s1 accepted b.
  unfold Arduino.set_baud, Arduino.is_connected, Arduino.get_baud. unfold_py.
  pose proof (continues_run "is_connected" [] self) as Hc.
  split; [|split].
  - intros c Hrun Ht. rewrite Hrun in Hc |- *. cbn [snd] in Hc. rewrite Ht.
    destruct Hc as (_ & HB & _ & _ & _ & _ & HS & _). repeat split; assumption.
  - intros e Hrun. rewrite Hrun in Hc |- *. cbn [snd] in Hc.
    destruct Hc as (_ & HB & _ & _ & _ & _ & HS & _). repeat split; assumption.
  - intros c Hrun Ht. rewrite Hrun. rewrite Ht.
    destruct accepted as [[]|e]; eexists; (split; [reflexivity|]);
      (split; [reflexivity|]); intros Hok _; [reflexivity|discriminate Hok].
Qed.

End BaudProperty.

Lemma set_baud_asks_the_device_first_witness :
  let self := Arduino.init (device (stream [ok "is_connected"])) "COM4" 9600 2 3 None in
  fst (@Arduino.set_baud loads (Ok tt) 115200 self) = Ok tt /\
  fst (Arduino.get_baud (snd (@Arduino.set_baud loads (Ok tt) 115200 self))) = Ok 115200 /\
  fst (@Arduino.set_baud loads (Raise InvalidBaudrate) (-5) self) = Raise InvalidBaudrate /\
  fst (Arduino.get_baud (snd (@Arduino.set_baud loads (Raise InvalidBaudrate) (-5) self)))
    = Ok (-5).
Proof.
  intros self.
  set (s1 := snd (@Arduino.run loads "is_connected" [] self)).
  destruct (@set_baud_asks_the_device_first loads self s1 (Ok tt) 115200)
    as (_ & _ & Hok).
  destruct (@set_baud_asks_the_device_first loads self s1 (Raise InvalidBaudrate) (-5))
    as (_ & _ & Hbad).
  destruct (Hok JNull) as (s2 & Hset & Hget & _);
    [vm_compute; reflexivity|reflexivity|].
  destruct (Hbad JNull) as (s3 & Hset' & Hget' & _);
    [vm_compute; reflexivity|reflexivity|].
  rewrite Hset, Hset'. cbn [fst snd]. rewrite Hget, Hget'. repeat split.
Defined.

(** ** Connecting *)

Lemma with_base_same (h : SampleHolderController) :
  Holder.with_base (fun _ => base h) h = h.
Proof. destruct h. reflexivity. Qed.

Lemma sample_unfold (h : SampleHolderController) :
  Holder.sample h =
  (if match position h with JNull => true | _ => false end then Ok None
   else
     match as_num (SPR h) with
     | Raise e => Raise e
     | Ok spr =>
         match truediv spr (inject_Z (samples h)) with
         | Raise e => Raise e
         | Ok w =>
             match truediv w 2 with
             | Raise e => Raise e
             | Ok half =>
                 match as_num (position h) with
                 | Raise e => Raise e
                 | Ok p =>
                     match truediv (p + half) w with
                     | Raise e => Raise e
                     | Ok x => Ok (Some (Qfloor x))
                     end
                 end
             end
         end
     end, h).
Proof.
  unfold Holder.sample. unfold_py.
  destruct (position h); [reflexivity|..];
    (destruct (as_num (SPR h)) as [spr|]; [|reflexivity];
     destruct (truediv spr (inject_Z (samples h))) as [w|]; [|reflexivity];
     destruct (truediv w 2) as [half|]; [|reflexivity];
     cbn [as_num]; try reflexivity;
     destruct (truediv _ w); reflexivity).
Qed.

Lemma sample_reads_three_fields (h h' : SampleHolderController) :
  position h' = position h -> SPR h' = SPR h -> samples h' = samples h ->
  fst (Holder.sample h') = fst (Holder.sample h).
Proof.
  intros Hp Hs Hn. rewrite !sample_unfold. cbn [fst]. rewrite Hp, Hs, Hn. reflexivity.
Qed.

Section Connecting.

Context {decoder : JsonDecoder}.

(** X18. [connect] on a holder whose port is already open raises the
    already-connected error and changes nothing: no command is written
    and [SPR] is not queried again. When the port cannot be opened the
    error of [open()] is passed on, with the port closed, nothing
    written and [SPR] as it was. *)
Theorem connect_refused :
  forall (self : SampleHolderController) (available : bool),
    (is_open (inst (base self)) = true ->
     HolderLink.connect available self = (AlreadyConnected, self)) /\
    (is_open (inst (base self)) = false -> available = false ->
     fst (HolderLink.connect available self) = CannotOpen /\
     is_open (inst (base (snd (HolderLink.connect available self)))) = false /\
     wire (inst (base (snd (HolderLink.connect available self))))
       = wire (inst (base self)) /\
     SPR (snd (HolderLink.connect available self)) = SPR self).
Proof.
  intros self available. unfold HolderLink.connect, ArduinoLink.connect. split.
  - intros Hopen. rewrite Hopen, with_base_same. reflexivity.
  - intros Hclosed Hav. rewrite Hclosed, Hav. cbn. rewrite Hclosed. repeat split.
Qed.

(** X19. When the port opens, [connect] writes the one command [get_spr]:
    [SPR] becomes what that invocation returns, or the default when it
    fails for any reason, in which case the error about the default is
    raised. Either way the port stays open, and the motor position and
    the sample count are not touched. *)
Theorem connect_adopts_or_defaults_SPR :
  forall (self : SampleHolderController),
    is_open (inst (base self)) = false ->
    let opened := snd (ArduinoLink.connect true (base self)) in
    let self' := snd (HolderLink.connect true self) in
    is_open (inst (base self')) = true /\
    position self' = position self /\
    samples self' = samples self /\
    sent (inst (base self')) = (sent (inst (base self)) ++ [("get_spr"%string, [])])%list /\
    match fst (Arduino.run "get_spr" [] opened) with
    | Ok v => fst (HolderLink.connect true self) = Connected /\ SPR self' = v
    | Raise _ =>
        fst (HolderLink.connect true self) = DefaultSPR (DEFAULT_SPR self) /\
        SPR self' = JNum (DEFAULT_SPR self)
    end.
Proof.
  intros self Hclosed opened self'. subst opened self'.
  unfold HolderLink.connect, ArduinoLink.connect. rewrite Hclosed. cbn [fst snd].
  match goal with
  | |- context [Arduino.run "get_spr" [] ?a] => set (opened := a)
  end.
  pose proof (continues_run "get_spr" [] opened) as Hc.
  pose proof (run_state "get_spr" [] opened) as Hst.
  assert (Hopen : is_open (inst opened) = true) by reflexivity.
  destruct (write_command_open "get_spr" [] opened Hopen) as (w & Hw & _).
  rewrite Hw in Hst.
  assert (Hsent : sent (inst (snd (Arduino.run "get_spr" [] opened)))
                  = (sent (inst (base self)) ++ [("get_spr"%string, [])])%list).
  { rewrite Hst, sent_read_response.
    unfold Arduino.write_command, Arduino.on_inst, SerialPort.write in Hw.
    unfold_py. rewrite Hopen in Hw. inversion Hw.
    cbn [inst Arduino.with_inst]. rewrite sent_app. reflexivity. }
  destruct Hc as (_ & _ & _ & _ & _ & HO & _).
  destruct (Arduino.run "get_spr" [] opened) as [[v|e] a'];
    cbn [fst snd base HolderLink.set_SPR Holder.with_base position samples SPR] in *;
    (split; [rewrite HO; reflexivity|]);
    (split; [reflexivity|]); (split; [reflexivity|]);
    (split; [exact Hsent|]); split; reflexivity.
Qed.

(** X20. [disconnect] closes the port and nothing else: the motor position
    and [SPR] stay, [sample] goes on answering from them, and a
    [connect] that follows does not reset the position either. *)
Theorem position_survives_reconnect :
  forall (self : SampleHolderController) (available : bool),
    let closed := HolderLink.disconnect self in
    is_open (inst (base closed)) = false /\
    position closed = position self /\
    SPR closed = SPR self /\
    fst (Holder.sample closed) = fst (Holder.sample self) /\
    HolderLink.disconnect closed = closed /\
    position (snd (HolderLink.connect available closed)) = position self.
Proof.
  intros self available closed. subst closed.
  split; [reflexivity|]. split; [reflexivity|]. split; [reflexivity|].
  split; [|split].
  - apply sample_reads_three_fields; reflexivity.
  - reflexivity.
  - unfold HolderLink.connect, ArduinoLink.connect. cbn [is_open inst base
      HolderLink.disconnect ArduinoLink.disconnect Holder.with_base Arduino.with_inst].
    destruct available.
    + match goal with
      | |- context [Arduino.run "get_spr" [] ?a] =>
          destruct (Arduino.run "get_spr" [] a) as [[v|e] a']
      end; reflexivity.
    + reflexivity.
Qed.

End Connecting.

Lemma connect_refused_witness :
  let self := holder 10 200 (JNum 40) (stream [Wire.ok_num "get_spr" "400" 400]) in
  @HolderLink.connect Wire.loads true self = (AlreadyConnected, self).
Proof.
  intros self.
  destruct (@connect_refused Wire.loads self true) as (Hopen & _).
  apply Hopen. reflexivity.
Defined.

Lemma connect_adopts_or_defaults_SPR_witness :
  let port := {| baudrate := 9600; is_open := false; pending := []; wire := [] |} in
  let self := Holder.init port "COM4" 10 200 9600 10 in
  fst (@HolderLink.connect Wire.loads true self) = DefaultSPR 200 /\
  SPR (snd (@HolderLink.connect Wire.loads true self)) = JNum 200 /\
  is_open (inst (base (snd (@HolderLink.connect Wire.loads true self)))) = true.
Proof.
  intros port self.
  destruct (@connect_adopts_or_defaults_SPR Wire.loads self eq_refl)
    as (Hopen & _ & _ & _ & Hspr).
  assert (Hrun : fst (@Arduino.run Wire.loads "get_spr" []
                        (snd (ArduinoLink.connect true (base self))))
                 = Raise (ReadTimeout [])) by (vm_compute; reflexivity).
  rewrite Hrun in Hspr. destruct Hspr as (Hfst & Hdef).
  split; [exact Hfst|]. split; [exact Hdef|exact Hopen].
Defined.

(** ** Stepping over the occupied samples *)

Lemma index_item (x : Z) (l : list Z) (i : nat) :
  Interface.index x l = Some i -> nth_error l i = Some x.
Proof.
  revert i. induction l as [|y l IH]; intros i H; [discriminate H|].
  cbn in H. destruct (Z.eqb_spec y x) as [->|Hne].
  - inversion H. reflexivity.
  - destruct (Interface.index x l) as [j|]; [|discriminate H].
    inversion H. cbn. apply IH. reflexivity.
Qed.

Lemma index_none (x : Z) (l : list Z) :
  Interface.index x l = None <-> ~ In x l.
Proof.
  induction l as [|y l IH]; cbn; [tauto|].
  destruct (Z.eqb_spec y x) as [->|Hne].
  - split; [discriminate|intros H; exfalso; apply H; left; reflexivity].
  - destruct (Interface.index x l) as [j|]; cbn.
    + split; [discriminate|]. intros H. exfalso.
      assert (Hn : ~ In x l) by tauto. apply IH in Hn. discriminate Hn.
    + split; [|reflexivity]. intros _ [H|H]; [congruence|].
      destruct IH as (IH & _). exact (IH eq_refl H).
Qed.

Lemma index_first (x : Z) (l : list Z) (i : nat) :
  NoDup l -> nth_error l i = Some x -> Interface.index x l = Some i.
Proof.
  revert i. induction l as [|y l IH]; intros i Hnd Hi; [destruct i; discriminate Hi|].
  inversion Hnd as [|? ? Hy Hl]; subst. cbn.
  destruct i as [|i]; cbn in Hi.
  - inversion Hi. rewrite Z.eqb_refl. reflexivity.
  - destruct (Z.eqb_spec y x) as [->|Hne].
    + exfalso. apply Hy. eapply nth_error_In. exact Hi.
    + rewrite (IH i Hl Hi). reflexivity.
Qed.

Lemma item_mod (l : list Z) (k : Z) :
  l <> [] ->
  exists z : Z,
    Interface.item l (k mod Z.of_nat (List.length l)) = Some z /\ In z l.
Proof.
  intros Hl. unfold Interface.item.
  assert (Hlen : (0 < Z.of_nat (List.length l))%Z) by (destruct l; [contradiction|cbn; lia]).
  pose proof (Z.mod_pos_bound k _ Hlen) as Hk.
  destruct (nth_error l (Z.to_nat (k mod Z.of_nat (List.length l)))) as [z|] eqn:E.
  - exists z. split; [reflexivity|]. eapply nth_error_In. exact E.
  - apply nth_error_None in E. lia.
Qed.

Lemma insert_In (x y : Z) (l : list Z) : In y (Interface.insert x l) <-> y = x \/ In y l.
Proof.
  induction l as [|z l IH]; cbn; [intuition|].
  destruct (x <=? z)%Z; cbn; [intuition|]. rewrite IH. intuition.
Qed.

Lemma sort_In (y : Z) (l : list Z) : In y (Interface.sort l) <-> In y l.
Proof.
  induction l as [|x l IH]; cbn; [tauto|]. rewrite insert_In, IH. intuition.
Qed.

(** X21. Whatever the current sample and the step, the sample [step] hands
    to [goto] is one of the occupied ones; when those are sample numbers
    of the holder, [goto] accepts it and moves by the shortest distance
    from the current sample. *)
Theorem step_target_is_occupied :
  forall {decoder : JsonDecoder} (occupied : list Z) (sample step target : Z)
         (self : SampleHolderController),
    Interface.step_target occupied sample step = Interface.Goto target ->
    Forall (fun s => 0 <= s < samples self)%Z occupied ->
    fst (Holder.sample self) = Ok (Some sample) ->
    In target occupied /\
    Holder.goto target self
      = Holder.step (Spec.shortest target sample (samples self)) self.
Proof.
  intros decoder occupied sample step target self Ht Hocc Hs.
  assert (Hin : In target occupied).
  { unfold Interface.step_target in Ht.
    destruct occupied as [|o occupied']; [discriminate Ht|].
    set (occ := o :: occupied') in *.
    assert (Hfin : forall curr st,
              match Interface.item occ ((Z.of_nat curr + st) mod Z.of_nat (List.length occ)) with
              | Some new => Interface.Goto new
              | None => Interface.IndexError
              end = Interface.Goto target -> In target occ).
    { intros curr st H.
      destruct (item_mod occ (Z.of_nat curr + st)) as (z & Hz & Hzin); [discriminate|].
      rewrite Hz in H. inversion H; subst. exact Hzin. }
    destruct (Interface.index sample occ) as [curr|]; [exact (Hfin _ _ Ht)|].
    destruct (Interface.index sample (Interface.sort (occ ++ [sample]))) as [i|];
      [|discriminate Ht].
    destruct (Interface.item _ _) as [near|]; [|discriminate Ht].
    destruct (Interface.index near occ) as [curr|]; [|discriminate Ht].
    exact (Hfin _ _ Ht). }
  split; [exact Hin|].
  rewrite Forall_forall in Hocc. specialize (Hocc target Hin).
  apply goto_delegates; [lia|lia|exact Hs].
Qed.

Lemma step_target_is_occupied_witness :
  let self := holder 10 200 (JNum 100) (stream [ok_str "is_enabled" "1"; ok "move"]) in
  In 7%Z [1; 4; 7]%Z /\
  @Holder.goto loads 7 self = @Holder.step loads (Spec.shortest 7 5 10) self.
Proof.
  intros self.
  apply (@step_target_is_occupied loads [1; 4; 7]%Z 5 1 7 self).
  - reflexivity.
  - repeat constructor; discriminate.
  - reflexivity.
Defined.

(** X22. From an occupied sample, [step] counts along the list of occupied
    samples and wraps round at its ends; stepping by [step] and then by
    [-step] comes back to the sample it started from. *)
Theorem step_target_cycles_through_occupied :
  forall (occupied : list Z) (sample step : Z) (i : nat),
    NoDup occupied ->
    nth_error occupied i = Some sample ->
    exists target : Z,
      Interface.step_target occupied sample step = Interface.Goto target /\
      Interface.item occupied ((Z.of_nat i + step) mod Z.of_nat (List.length occupied))
        = Some target /\
      Interface.step_target occupied target (- step) = Interface.Goto sample.
Proof.
  intros occupied sample step i Hnd Hi.
  assert (Hne : occupied <> []) by (intros ->; destruct i; discriminate Hi).
  assert (Hlen : (0 < Z.of_nat (List.length occupied))%Z)
    by (destruct occupied; [contradiction|cbn; lia]).
  assert (Hil : (i < List.length occupied)%nat)
    by (apply nth_error_Some; rewrite Hi; discriminate).
  destruct (item_mod occupied (Z.of_nat i + step) Hne) as (target & Ht & Htin).
  exists target.
  assert (Hstep : forall s st j t,
            nth_error occupied j = Some s ->
            Interface.item occupied ((Z.of_nat j + st) mod Z.of_nat (List.length occupied))
              = Some t ->
            Interface.step_target occupied s st = Interface.Goto t).
  { intros s st j t Hj Hitem. unfold Interface.step_target.
    destruct occupied as [|o occ']; [contradiction|].
    rewrite (index_first s _ j Hnd Hj), Hitem. reflexivity. }
  split; [exact (Hstep _ _ _ _ Hi Ht)|]. split; [exact Ht|].
  unfold Interface.item in Ht.
  pose proof (Z.mod_pos_bound (Z.of_nat i + step) _ Hlen) as Hb.
  apply (Hstep target (- step)%Z _ sample Ht).
  rewrite Z2Nat.id by lia.
  rewrite Zplus_mod_idemp_l.
  replace (Z.of_nat i + step + - step)%Z with (Z.of_nat i) by lia.
  rewrite Z.mod_small by lia.
  unfold Interface.item. rewrite Nat2Z.id. exact Hi.
Qed.

Lemma step_target_cycles_through_occupied_witness :
  Interface.step_target [1; 4; 7]%Z 7 1 = Interface.Goto 1 /\
  Interface.step_target [1; 4; 7]%Z 1 (-1) = Interface.Goto 7.
Proof.
  destruct (step_target_cycles_through_occupied [1; 4; 7]%Z 7 1 2)
    as (target & Hgo & Hitem & Hback).
  - repeat constructor; cbn; intuition discriminate.
  - reflexivity.
  - cbv in Hitem. inversion Hitem; subst target.
    split; [exact Hgo|exact Hback].
Defined.

(** X23. When the holder is on a sample that is not occupied, a step of 0
    raises the value error of [list.index]: the position found next to
    the current one is the current one itself, which is not in the
    list. *)
Theorem step_of_zero_off_the_list_raises :
  forall (occupied : list Z) (sample : Z),
    occupied <> [] ->
    ~ In sample occupied ->
    Interface.step_target occupied sample 0 = Interface.ValueError.
Proof.
  intros occupied sample Hne Hin. unfold Interface.step_target.
  destruct occupied as [|o occ']; [contradiction|].
  set (occupied := o :: occ') in *.
  destruct (index_none sample occupied) as (_ & Hnone). rewrite (Hnone Hin).
  set (occ := Interface.sort (occupied ++ [sample])).
  assert (Hs : In sample occ).
  { apply sort_In, in_or_app. right. left. reflexivity. }
  destruct (Interface.index sample occ) as [i|] eqn:Ei;
    [|apply index_none in Ei; contradiction].
  pose proof (index_item _ _ _ Ei) as Hi.
  assert (Hil : (i < List.length occ)%nat)
    by (apply nth_error_Some; rewrite Hi; discriminate).
  cbn [Z.gtb Z.ltb Z.compare].
  rewrite Z.add_0_r, Z.mod_small by lia.
  unfold Interface.item. rewrite Nat2Z.id, Hi, (Hnone Hin). reflexivity.
Qed.

Lemma step_of_zero_off_the_list_raises_witness :
  Interface.step_target [1; 4; 7]%Z 5 0 = Interface.ValueError.
Proof.
  apply step_of_zero_off_the_list_raises; [discriminate|].
  cbn. intuition discriminate.
Defined.

Lemma insert_front (x : Z) (l : list Z) :
  Forall (fun y => x < y)%Z l -> Interface.insert x l = x :: l.
Proof.
  intros H. destruct l as [|y l]; [reflexivity|].
  inversion H; subst. cbn. destruct (Z.leb_spec x y); [reflexivity|lia].
Qed.

Lemma filter_all (f : Z -> bool) (l : list Z) :
  Forall (fun y => f y = true) l -> filter f l = l.
Proof.
  induction 1 as [|y l Hy _ IH]; [reflexivity|]. cbn. rewrite Hy, IH. reflexivity.
Qed.

Lemma filter_none (f : Z -> bool) (l : list Z) :
  Forall (fun y => f y = false) l -> filter f l = [].
Proof.
  induction 1 as [|y l Hy _ IH]; [reflexivity|]. cbn. rewrite Hy, IH. reflexivity.
Qed.

(** The sorted copy of [occupied] with the current sample appended, for
    a list in ascending order that does not hold the sample. *)
Lemma sort_with_sample (l : list Z) (s : Z) :
  StronglySorted Z.lt l -> ~ In s l ->
  Interface.sort (l ++ [s])
  = (filter (fun x => x <? s)%Z l ++ s :: filter (fun x => s <? x)%Z l)%list.
Proof.
  induction 1 as [|o l Hl IH Ho]; intros Hin; [reflexivity|].
  cbn [app Interface.sort filter].
  rewrite IH by (intros H; apply Hin; right; exact H).
  assert (Hne : o <> s) by (intros ->; apply Hin; left; reflexivity).
  destruct (Z.ltb_spec o s) as [Hlt|Hge].
  - destruct (Z.ltb_spec s o); [lia|].
    rewrite insert_front; [reflexivity|].
    apply Forall_app. split.
    + apply Forall_forall. intros y Hy. apply filter_In in Hy as (Hy & _).
      rewrite Forall_forall in Ho. exact (Ho y Hy).
    + constructor; [exact Hlt|].
      apply Forall_forall. intros y Hy. apply filter_In in Hy as (Hy & _).
      rewrite Forall_forall in Ho. exact (Ho y Hy).
  - destruct (Z.ltb_spec s o); [|lia].
    rewrite filter_none, filter_all.
    + cbn [app Interface.insert]. destruct (Z.leb_spec o s); [lia|].
      rewrite insert_front by exact Ho. reflexivity.
    + eapply Forall_impl; [|exact Ho]. cbn. intros y Hy. apply Z.ltb_lt. lia.
    + eapply Forall_impl; [|exact Ho]. cbn. intros y Hy. apply Z.ltb_ge. lia.
Qed.

Lemma index_middle (lo up : list Z) (s : Z) :
  ~ In s lo -> Interface.index s (lo ++ s :: up) = Some (List.length lo).
Proof.
  induction lo as [|y lo IH]; intros Hin; cbn.
  - rewrite Z.eqb_refl. reflexivity.
  - destruct (Z.eqb_spec y s) as [->|_]; [exfalso; apply Hin; left; reflexivity|].
    rewrite IH by (intros H; apply Hin; right; exact H). reflexivity.
Qed.

Lemma step_target_free (occupied : list Z) (sample step : Z) :
  occupied <> [] ->
  ~ In sample occupied ->
  Interface.step_target occupied sample step =
  let len := Z.of_nat (List.length occupied) in
  let occ := Interface.sort (occupied ++ [sample]) in
  let sign := if (step >? 0)%Z then 1%Z else if (step <? 0)%Z then (-1)%Z else 0%Z in
  match Interface.index sample occ with
  | None => Interface.ValueError
  | Some i =>
      match Interface.item occ ((Z.of_nat i + sign) mod Z.of_nat (List.length occ)) with
      | None => Interface.IndexError
      | Some near =>
          match Interface.index near occupied with
          | None => Interface.ValueError
          | Some curr =>
              match Interface.item occupied
                      ((Z.of_nat curr + (step + - sign * 1)) mod len) with
              | Some new => Interface.Goto new
              | None => Interface.IndexError
              end
          end
      end
  end.
Proof.
  intros Hne Hin. apply index_none in Hin. unfold Interface.step_target.
  destruct occupied as [|o occ']; [contradiction|]. rewrite Hin. reflexivity.
Qed.

(** X24. On a sample that is not occupied, the button Next goes to the
    nearest occupied sample above the current one, and to the lowest
    occupied sample when there is none above (the list of occupied
    samples is in ascending order, as the check boxes are). *)
Theorem next_from_a_free_sample :
  forall (occupied : list Z) (sample : Z),
    occupied <> [] ->
    StronglySorted Z.lt occupied ->
    ~ In sample occupied ->
    Interface.step_target occupied sample 1 =
      Interface.Goto
        match filter (fun x => sample <? x)%Z occupied with
        | above :: _ => above
        | [] => hd 0%Z occupied
        end.
Proof.
  intros occupied sample Hne Hsorted Hin.
  set (lo := filter (fun x => x <? sample)%Z occupied).
  set (up := filter (fun x => sample <? x)%Z occupied).
  assert (Hnd : NoDup occupied).
  { clear - Hsorted. induction Hsorted as [|o l Hl IH Ho]; constructor; [|exact IH].
    intros H. rewrite Forall_forall in Ho. specialize (Ho o H). lia. }
  assert (Hlo : ~ In sample lo).
  { intros H. apply filter_In in H as (H & _). contradiction. }
  set (near := match up with above :: _ => above | [] => hd 0%Z occupied end).
  assert (Hnear : In near occupied).
  { subst near. destruct up as [|a up'] eqn:E.
    - destruct occupied; [contradiction|left; reflexivity].
    - assert (H : In a up) by (rewrite E; left; reflexivity).
      apply filter_In in H as (H & _). exact H. }
  assert (Hitem : Interface.item (lo ++ sample :: up)
                    ((Z.of_nat (List.length lo) + 1)
                       mod Z.of_nat (List.length (lo ++ sample :: up)))
                  = Some near).
  { unfold Interface.item. rewrite length_app. cbn [List.length]. subst near.
    destruct up as [|a up'] eqn:E.
    - assert (Hall : lo = occupied).
      { apply filter_all. apply Forall_forall. intros y Hy.
        destruct (Z.ltb_spec y sample) as [|Hge]; [reflexivity|].
        assert (Hy' : In y up).
        { apply filter_In. split; [exact Hy|]. apply Z.ltb_lt.
          assert (y <> sample) by (intros ->; contradiction). lia. }
        rewrite E in Hy'. destruct Hy'. }
      cbn [List.length].
      replace (Z.of_nat (List.length lo) + 1)%Z
        with (Z.of_nat (List.length lo + 1)) by lia.
      rewrite Z_mod_same_full. cbn. rewrite Hall.
      destruct occupied; [contradiction|reflexivity].
    - cbn [List.length]. rewrite Z.mod_small by lia.
      replace (Z.to_nat (Z.of_nat (List.length lo) + 1)) with (List.length lo + 1)%nat by lia.
      rewrite nth_error_app2 by lia.
      replace (List.length lo + 1 - List.length lo)%nat with 1%nat by lia.
      reflexivity. }
  destruct (Interface.index near occupied) as [c|] eqn:Ec;
    [|apply index_none in Ec; contradiction].
  pose proof (index_item _ _ _ Ec) as Hc.
  assert (Hcl : (c < List.length occupied)%nat)
    by (apply nth_error_Some; rewrite Hc; discriminate).
  rewrite (step_target_free occupied sample 1 Hne Hin). cbv zeta.
  rewrite (sort_with_sample occupied sample Hsorted Hin). fold lo up.
  rewrite (index_middle lo up sample Hlo).
  cbn [Z.gtb Z.ltb Z.compare]. rewrite Hitem, Ec.
  replace (1 + - (1) * 1)%Z with 0%Z by reflexivity.
  rewrite Z.add_0_r, Z.mod_small by lia.
  unfold Interface.item. rewrite Nat2Z.id, Hc. reflexivity.
Qed.

Lemma next_from_a_free_sample_witness :
  Interface.step_target [1; 4; 7]%Z 5 1 = Interface.Goto 7 /\
  Interface.step_target [1; 4; 7]%Z 10 1 = Interface.Goto 1.
Proof.
  assert (Hs : StronglySorted Z.lt [1; 4; 7]%Z).
  { repeat constructor. }
  split.
  - rewrite (next_from_a_free_sample [1; 4; 7]%Z 5); [reflexivity|discriminate|exact Hs|].
    cbn. intuition discriminate.
  - rewrite (next_from_a_free_sample [1; 4; 7]%Z 10); [reflexivity|discriminate|exact Hs|].
    cbn. intuition discriminate.
Defined.

(** ** Binary64 in the exact range *)

Lemma inject_Z_pos (z : Z) : (0 < z)%Z -> 0 < inject_Z z.
Proof. intros H. change 0 with (inject_Z 0). rewrite <- Zlt_Qlt. exact H. Qed.

Lemma representable_int (z : Z) :
  (Z.abs z < 2 ^ 53)%Z -> Binary64.representable (inject_Z z).
Proof.
  intros H. exists z, 0%Z. split; [exact H|]. split; [lia|].
  unfold Binary64.scaled. cbn [Qpower]. ring.
Qed.

Lemma representable_fraction (m j : Z) :
  (Z.abs m < 2 ^ 53)%Z -> (0 < j <= 1074)%Z ->
  Binary64.representable (inject_Z m / inject_Z (2 ^ j)).
Proof.
  intros Hm Hj. exists m, (- j)%Z. split; [exact Hm|]. split; [lia|].
  unfold Binary64.scaled. rewrite Qpower_opp, Zpower_Qpower by lia. reflexivity.
Qed.

Section Rounding.

Variable fl : Q -> Q.
Hypothesis Hfl : Binary64.rounding fl.

(** A monotone rounding respects the equality of [Q]. *)
Lemma fl_compat (x y : Q) : x == y -> fl x == fl y.
Proof.
  intros E. apply Qle_antisym; apply (Binary64.monotone fl Hfl); rewrite E; apply Qle_refl.
Qed.

Lemma fl_int (q : Q) (z : Z) :
  (Z.abs z < 2 ^ 53)%Z -> q == inject_Z z -> fl q == inject_Z z.
Proof.
  intros Hz E. rewrite (fl_compat q (inject_Z z) E).
  apply (Binary64.fixes fl Hfl), representable_int, Hz.
Qed.

Lemma fl_half (q : Q) (m : Z) :
  (Z.abs m < 2 ^ 53)%Z -> q == inject_Z m / 2 -> fl q == inject_Z m / 2.
Proof.
  intros Hm E. rewrite (fl_compat q _ E).
  apply (Binary64.fixes fl Hfl). apply (representable_fraction m 1 Hm). lia.
Qed.

(** The rounding of a quotient of moderate integers does not reach the
    next integer: between the quotient and that integer lies the
    binary64 number [(k + 1) - 2^-j], with [2^j] the least power of two
    that is at least [b]. *)
Lemma Qfloor_fl (a b : Z) :
  (0 < b)%Z -> (2 * Z.abs a + 4 * b < 2 ^ 53)%Z ->
  Qfloor (fl (inject_Z a / inject_Z b)) = (a / b)%Z.
Proof.
  intros Hb Hbound.
  set (q := inject_Z a / inject_Z b). set (k := (a / b)%Z).
  pose proof (inject_Z_pos b Hb) as Hbq.
  assert (Hk1 : (b * k <= a)%Z) by (apply Z.mul_div_le; exact Hb).
  assert (Hk2 : (a < b * (k + 1))%Z).
  { pose proof (Z.mul_succ_div_gt a b Hb) as H. unfold Z.succ in H. exact H. }
  assert (Hkb : (Z.abs ((k + 1) * b) <= Z.abs a + b)%Z) by lia.
  assert (Hka : (Z.abs k <= Z.abs a)%Z) by nia.
  assert (Hlo : (k <= Qfloor (fl q))%Z).
  { rewrite <- (Qfloor_Z k). apply Qfloor_resp_le.
    rewrite <- (fl_int (inject_Z k) k) by (try reflexivity; lia).
    apply (Binary64.monotone fl Hfl). unfold q.
    apply Qle_shift_div_l; [exact Hbq|].
    rewrite <- inject_Z_mult, <- Zle_Qle. lia. }
  assert (Hhi : (Qfloor (fl q) < k + 1)%Z).
  { rewrite Zlt_Qlt. eapply Qle_lt_trans; [apply Qfloor_le|].
    destruct (Z.eq_dec b 1) as [Hb1|Hb1].
    - assert (E : q == inject_Z a).
      { unfold q. rewrite Hb1. field. }
      rewrite (fl_int q a) by (try exact E; lia).
      rewrite <- Zlt_Qlt. subst b. lia.
    - set (j := Z.log2_up b).
      destruct (Z.log2_up_spec b ltac:(lia)) as (Hj1 & Hj2). fold j in Hj1, Hj2.
      assert (Hj0 : (0 < j)%Z) by (apply Z.log2_up_pos; lia).
      set (P := (2 ^ j)%Z) in *.
      assert (HP : (2 ^ Z.pred j * 2 = P)%Z).
      { unfold P. replace j with (Z.succ (Z.pred j)) at 2 by lia.
        rewrite Z.pow_succ_r by lia. lia. }
      assert (HPb : (P < 2 * b)%Z) by lia.
      assert (HP0 : (0 < P)%Z) by lia.
      set (m := ((k + 1) * P - 1)%Z).
      assert (Hm : (Z.abs m < 2 ^ 53)%Z).
      { assert (H1 : (Z.abs ((k + 1) * P) <= Z.abs ((k + 1) * (2 * b)))%Z).
        { rewrite !Z.abs_mul. apply Z.mul_le_mono_nonneg_l; [apply Z.abs_nonneg|lia]. }
        assert (H2 : (Z.abs ((k + 1) * (2 * b)) = 2 * Z.abs ((k + 1) * b))%Z).
        { replace ((k + 1) * (2 * b))%Z with (2 * ((k + 1) * b))%Z by ring.
          rewrite Z.abs_mul. reflexivity. }
        unfold m. lia. }
      assert (Hj : (j <= 1074)%Z).
      { assert (H53 : (j <= Z.log2_up (2 ^ 53))%Z) by (apply Z.log2_up_le_mono; lia).
        rewrite Z.log2_up_pow2 in H53 by lia. lia. }
      pose proof (inject_Z_pos P HP0) as HPq.
      assert (Hr : fl (inject_Z m / inject_Z P) == inject_Z m / inject_Z P).
      { apply (Binary64.fixes fl Hfl). apply representable_fraction; [exact Hm|lia]. }
      apply Qle_lt_trans with (fl (inject_Z m / inject_Z P)).
      + apply (Binary64.monotone fl Hfl). unfold q.
        apply Qle_shift_div_l; [exact HPq|].
        unfold Qdiv. rewrite <- Qmult_assoc, (Qmult_comm (/ inject_Z b)), Qmult_assoc.
        apply Qle_shift_div_r; [exact Hbq|].
        rewrite <- !inject_Z_mult, <- Zle_Qle. unfold m. nia.
      + rewrite Hr. apply Qlt_shift_div_r; [exact HPq|].
        rewrite <- inject_Z_mult, <- Zlt_Qlt. unfold m. lia. }
  lia.
Qed.

End Rounding.

Section RoundedArithmetic.

Variable fl : Q -> Q.
Hypothesis Hfl : Binary64.rounding fl.

Lemma width_exact (spr : Q) (n wz : Z) :
  (0 < n)%Z -> (Z.abs wz < 2 ^ 53)%Z -> spr == inject_Z (n * wz) ->
  fl (spr / inject_Z n) == inject_Z wz.
Proof.
  intros Hn Hwz Hw. apply (fl_int fl Hfl); [exact Hwz|].
  rewrite Hw, inject_Z_mult. field. apply inject_Z_nonzero. lia.
Qed.

Lemma sample_exact (p spr : Q) (n : Z) :
  0 < spr -> (0 < n)%Z ->
  Exact.small_int p -> Exact.small_int spr -> Exact.whole_sectors spr n ->
  Binary64.sample fl p spr n = Spec.sector p spr n.
Proof.
  intros Hspr Hn (pz & Hp & Hpb) (sz & Hsz & Hsb) (wz & Hw).
  unfold Exact.limit in *.
  assert (Hwz : (0 < wz)%Z).
  { rewrite Hw in Hspr. change 0 with (inject_Z 0) in Hspr.
    rewrite <- Zlt_Qlt in Hspr. nia. }
  assert (Hsw : (n * wz = sz)%Z).
  { rewrite Hw in Hsz. unfold Qeq in Hsz. cbn [inject_Z Qnum Qden] in Hsz. lia. }
  assert (Hwb : (wz <= 2 ^ 48)%Z) by nia.
  assert (Hwq : ~ inject_Z wz == 0) by (apply inject_Z_nonzero; lia).
  assert (Hnq : ~ inject_Z n == 0) by (apply inject_Z_nonzero; lia).
  pose proof (width_exact spr n wz Hn ltac:(lia) Hw) as E1.
  assert (E2 : fl (fl (spr / inject_Z n) / 2) == inject_Z wz / 2).
  { apply (fl_half fl Hfl); [lia|]. rewrite E1. reflexivity. }
  assert (E3 : fl (p + fl (fl (spr / inject_Z n) / 2)) == inject_Z (2 * pz + wz) / 2).
  { apply (fl_half fl Hfl); [lia|].
    rewrite E2, Hp, inject_Z_plus, inject_Z_mult. field. }
  assert (E4 : fl (p + fl (fl (spr / inject_Z n) / 2)) / fl (spr / inject_Z n)
               == inject_Z (2 * pz + wz) / inject_Z (2 * wz)).
  { rewrite E3, E1, (inject_Z_mult 2 wz). field. exact Hwq. }
  unfold Binary64.sample, Spec.sector.
  rewrite (Qfloor_comp _ _ (fl_compat fl Hfl _ _ E4)).
  rewrite Qfloor_fl by (try exact Hfl; lia).
  rewrite Zdiv_Qdiv. apply Qfloor_comp.
  rewrite Hp, Hw, !inject_Z_plus, !inject_Z_mult. field. split; assumption.
Qed.

Lemma steps_exact (num : Z) (spr : Q) (n : Z) :
  0 < spr -> (0 < n)%Z ->
  Exact.small_int spr -> Exact.whole_sectors spr n ->
  Exact.small_int (inject_Z num * (spr / inject_Z n)) ->
  Binary64.steps fl num spr n == inject_Z num * (spr / inject_Z n).
Proof.
  intros Hspr Hn (sz & Hsz & Hsb) (wz & Hw) (z & Hz & Hzb).
  unfold Exact.limit in *.
  assert (Hwz : (0 < wz)%Z).
  { rewrite Hw in Hspr. change 0 with (inject_Z 0) in Hspr.
    rewrite <- Zlt_Qlt in Hspr. nia. }
  assert (Hsw : (n * wz = sz)%Z).
  { rewrite Hw in Hsz. unfold Qeq in Hsz. cbn [inject_Z Qnum Qden] in Hsz. lia. }
  pose proof (width_exact spr n wz Hn ltac:(nia) Hw) as E1.
  assert (Ew : spr / inject_Z n == inject_Z wz).
  { rewrite Hw, inject_Z_mult. field. apply inject_Z_nonzero. lia. }
  unfold Binary64.steps. rewrite Hz.
  apply (fl_int fl Hfl); [lia|].
  rewrite E1, <- Ew. exact Hz.
Qed.

End RoundedArithmetic.

(** The remainder of the truncated division is less than the divisor
    in magnitude. *)
Lemma fmod_range (x y : Q) :
  0 < y -> - y < Binary64.fmod x y /\ Binary64.fmod x y < y.
Proof.
  intros Hy.
  assert (Hx : x == x / y * y).
  { field. intro E. rewrite E in Hy. discriminate Hy. }
  unfold Binary64.fmod, Binary64.truncate.
  destruct (Qle_bool 0 (x / y)).
  - destruct (Qfloor_div_bounds x y Hy) as (Hlo & Hhi).
    rewrite inject_Z_plus, Qmult_plus_distr_l in Hhi. change (inject_Z 1) with 1 in Hhi.
    set (t := inject_Z (Qfloor (x / y)) * y) in *. clearbody t. split; lra.
  - pose proof (Qle_ceiling (x / y)) as Hhi. pose proof (Qceiling_lt (x / y)) as Hlo.
    apply (Qmult_le_compat_r _ _ y) in Hhi; [|apply Qlt_le_weak, Hy].
    apply (Qmult_lt_compat_r _ _ y Hy) in Hlo.
    rewrite <- Hx in Hhi, Hlo.
    unfold Z.sub in Hlo. rewrite inject_Z_plus, inject_Z_opp, Qmult_plus_distr_l in Hlo.
    change (inject_Z 1) with 1 in Hlo.
    set (t := inject_Z (Qceiling (x / y)) * y) in *. clearbody t. split; lra.
Qed.

Section RoundedMove.

Variable fl : Q -> Q.
Hypothesis Hfl : Binary64.rounding fl.

Lemma moved_exact (p steps spr : Q) :
  0 < spr ->
  Exact.small_int p -> Exact.small_int steps -> Exact.small_int spr ->
  Binary64.moved fl p steps spr == wrapped p steps spr.
Proof.
  intros Hspr (pz & Hp & Hpb) (tz & Ht & Htb) (sz & Hs & Hsb).
  unfold Exact.limit in *.
  assert (Ex : fl (p + steps) == p + steps).
  { assert (E : p + steps == inject_Z (pz + tz))
      by (rewrite Hp, Ht, inject_Z_plus; reflexivity).
    rewrite (fl_int fl Hfl _ (pz + tz)%Z) by (try exact E; lia).
    symmetry. exact E. }
  unfold Binary64.moved, Binary64.rem.
  set (x := fl (p + steps)) in *.
  destruct (fmod_range x spr Hspr) as (Hlo & Hhi).
  set (t := Binary64.truncate (x / spr)).
  assert (Em : Binary64.fmod x spr == inject_Z (pz + tz - t * sz)).
  { unfold Binary64.fmod. fold t. rewrite Ex, Hp, Ht, Hs.
    unfold Z.sub. rewrite !inject_Z_plus, inject_Z_opp, inject_Z_mult. reflexivity. }
  assert (Hsplit : p + steps == Binary64.fmod x spr + inject_Z t * spr).
  { unfold Binary64.fmod. fold t. rewrite Ex. ring. }
  set (m := Binary64.fmod x spr) in *.
  symmetry.
  destruct (Qeq_bool m 0) eqn:E0.
  - apply Qeq_bool_eq in E0.
    apply (wrapped_unique p steps spr 0 t Hspr); [lra|exact Hspr|].
    rewrite Hsplit, E0. reflexivity.
  - assert (Hs0 : Qle_bool 0 spr = true) by (apply Qle_bool_iff; lra).
    rewrite Hs0. cbn [negb xorb].
    destruct (Qle_bool 0 m) eqn:Em0; cbn [negb].
    + apply Qle_bool_iff in Em0.
      apply (wrapped_unique p steps spr m t Hspr); [exact Em0|exact Hhi|exact Hsplit].
    + assert (Hneg : m < 0).
      { apply Qnot_le_lt. intro H. apply Qle_bool_iff in H. congruence. }
      assert (Er : fl (m + spr) == m + spr).
      { set (mz := (pz + tz - t * sz)%Z) in *.
        assert (E : m + spr == inject_Z (mz + sz))
          by (rewrite Em, Hs, inject_Z_plus; reflexivity).
        assert (H1 : (- sz < mz)%Z).
        { rewrite Zlt_Qlt, inject_Z_opp, <- Em, <- Hs. exact Hlo. }
        assert (H2 : (mz < 0)%Z).
        { rewrite Zlt_Qlt, <- Em. exact Hneg. }
        rewrite (fl_int fl Hfl _ (mz + sz)%Z) by (try exact E; lia).
        symmetry. exact E. }
      rewrite Er.
      apply (wrapped_unique p steps spr (m + spr) (t - 1) Hspr); [lra|lra|].
      rewrite Hsplit. unfold Z.sub. rewrite inject_Z_plus, inject_Z_opp.
      change (inject_Z 1) with 1. ring.
Qed.

End RoundedMove.

(** ** Rounding to nearest *)

Lemma two_pos (e : Z) : 0 < 2 ^ e.
Proof. apply Qpower_0_lt. reflexivity. Qed.

Lemma two_add (a b : Z) : 2 ^ (a + b) == 2 ^ a * 2 ^ b.
Proof. apply Qpower_plus. intro H. discriminate H. Qed.

Lemma two_le (a b : Z) : (a <= b)%Z -> 2 ^ a <= 2 ^ b.
Proof. intros H. apply Qpower_le_compat_l; [exact H|]. discriminate. Qed.

Lemma two_lt_inv (a b : Z) : 2 ^ a < 2 ^ b -> (a < b)%Z.
Proof. intros H. apply (Qpower_lt_compat_l_inv 2); [exact H|reflexivity]. Qed.

Lemma two_int (e : Z) : (0 <= e)%Z -> 2 ^ e == inject_Z (2 ^ e).
Proof. intros H. rewrite Zpower_Qpower by exact H. reflexivity. Qed.

Lemma two_shift (N e k : Z) :
  (0 <= k)%Z -> inject_Z N * 2 ^ (e + k) == inject_Z (N * 2 ^ k) * 2 ^ e.
Proof.
  intros Hk. rewrite two_add, (two_int k Hk), inject_Z_mult. ring.
Qed.

(** [exponent q] is the binary exponent of [q]. *)
Lemma exponent_spec (q : Q) :
  ~ q == 0 ->
  2 ^ Binary64.exponent q <= Qabs q /\ Qabs q < 2 ^ (Binary64.exponent q + 1).
Proof.
  destruct q as [n d]. intros Hq. unfold Binary64.exponent. cbn [Qnum Qden].
  assert (Ha : (0 < Z.abs n)%Z).
  { unfold Qeq in Hq. cbn in Hq. lia. }
  set (a := Z.abs n) in *. set (la := Z.log2 a). set (ld := Z.log2 (Zpos d)).
  destruct (Z.log2_spec a Ha) as (Ha1 & Ha2). fold la in Ha1, Ha2.
  destruct (Z.log2_spec (Zpos d) eq_refl) as (Hd1 & Hd2). fold ld in Hd1, Hd2.
  pose proof (Z.log2_nonneg a) as Hla. fold la in Hla.
  pose proof (Z.log2_nonneg (Zpos d)) as Hld. fold ld in Hld.
  assert (Habs : Qabs (n # d) == inject_Z a / inject_Z (Zpos d)).
  { unfold Qabs. fold a. apply Qmake_Qdiv. }
  assert (Hdq : 0 < inject_Z (Zpos d)) by reflexivity.
  assert (Qa1 : 2 ^ la <= inject_Z a).
  { rewrite (two_int la Hla), <- Zle_Qle. exact Ha1. }
  assert (Qa2 : inject_Z a < 2 ^ (la + 1)).
  { rewrite (two_int (la + 1)) by lia. rewrite <- Zlt_Qlt. exact Ha2. }
  assert (Qd1 : 2 ^ ld <= inject_Z (Zpos d)).
  { rewrite (two_int ld Hld), <- Zle_Qle. exact Hd1. }
  assert (Qd2 : inject_Z (Zpos d) < 2 ^ (ld + 1)).
  { rewrite (two_int (ld + 1)) by lia. rewrite <- Zlt_Qlt. exact Hd2. }
  assert (Hlow : 2 ^ (la - ld - 1) <= Qabs (n # d)).
  { rewrite Habs. apply Qle_shift_div_l; [exact Hdq|].
    apply Qle_trans with (2 ^ (la - ld - 1) * 2 ^ (ld + 1)).
    - apply Qmult_le_l; [apply two_pos|]. apply Qlt_le_weak, Qd2.
    - rewrite <- two_add. replace (la - ld - 1 + (ld + 1))%Z with la by lia. exact Qa1. }
  assert (Hhigh : Qabs (n # d) < 2 ^ (la - ld + 1)).
  { rewrite Habs. apply Qlt_shift_div_r; [exact Hdq|].
    apply Qlt_le_trans with (2 ^ (la - ld + 1) * 2 ^ ld).
    - rewrite <- two_add. replace (la - ld + 1 + ld)%Z with (la + 1)%Z by lia. exact Qa2.
    - apply Qmult_le_l; [apply two_pos|]. exact Qd1. }
  destruct (Qle_bool (2 ^ (la - ld)) (Qabs (n # d))) eqn:E.
  - apply Qle_bool_iff in E. split; assumption.
  - replace (la - ld - 1 + 1)%Z with (la - ld)%Z by lia. split; [exact Hlow|].
    apply Qnot_le_lt. intro H. apply Qle_bool_iff in H. congruence.
Qed.

Lemma exponent_le (x y : Q) :
  ~ x == 0 -> ~ y == 0 -> Qabs x <= Qabs y ->
  (Binary64.exponent x <= Binary64.exponent y)%Z.
Proof.
  intros Hx Hy Hxy.
  destruct (exponent_spec x Hx) as (H1 & _). destruct (exponent_spec y Hy) as (_ & H2).
  assert (H : 2 ^ Binary64.exponent x < 2 ^ (Binary64.exponent y + 1)).
  { eapply Qle_lt_trans; [exact H1|]. eapply Qle_lt_trans; [exact Hxy|exact H2]. }
  apply two_lt_inv in H. lia.
Qed.

Lemma rint_Z (z : Z) : Binary64.rint (inject_Z z) = z.
Proof.
  unfold Binary64.rint. rewrite Qfloor_Z.
  destruct (Qcompare_spec (inject_Z z - inject_Z z) (1 # 2)) as [H|H|H];
    [exfalso; lra|reflexivity|exfalso; lra].
Qed.

Lemma rint_le (s s' : Q) : s <= s' -> (Binary64.rint s <= Binary64.rint s')%Z.
Proof.
  intros Hs. pose proof (Qfloor_resp_le s s' Hs) as Hf.
  unfold Binary64.rint.
  destruct (Z.eq_dec (Qfloor s) (Qfloor s')) as [E|E].
  - rewrite <- E.
    destruct (Qcompare_spec (s - inject_Z (Qfloor s)) (1 # 2)) as [H1|H1|H1];
      destruct (Qcompare_spec (s' - inject_Z (Qfloor s)) (1 # 2)) as [H2|H2|H2];
      try (destruct (Z.even (Qfloor s))); try lia; exfalso; lra.
  - assert (Hlt : (Qfloor s + 1 <= Qfloor s')%Z) by lia.
    destruct (Qcompare (s - inject_Z (Qfloor s)) (1 # 2));
      destruct (Qcompare (s' - inject_Z (Qfloor s')) (1 # 2));
      try (destruct (Z.even (Qfloor s))); try (destruct (Z.even (Qfloor s'))); lia.
Qed.

Lemma rint_compat (s s' : Q) : s == s' -> Binary64.rint s = Binary64.rint s'.
Proof.
  intros E. apply Z.le_antisymm; apply rint_le; rewrite E; apply Qle_refl.
Qed.

Lemma nearest_unfold (q : Q) :
  ~ q == 0 ->
  Binary64.nearest q
  = Binary64.scaled (Binary64.rint (q / 2 ^ Binary64.grid q)) (Binary64.grid q).
Proof.
  intros Hq. unfold Binary64.nearest.
  destruct (Qeq_bool q 0) eqn:E; [|reflexivity].
  apply Qeq_bool_eq in E. contradiction.
Qed.

Lemma nearest_zero (q : Q) : q == 0 -> Binary64.nearest q = 0.
Proof.
  intros Hq. unfold Binary64.nearest.
  destruct (Qeq_bool q 0) eqn:E; [reflexivity|].
  apply Qeq_eq_bool in Hq. congruence.
Qed.

(** Rounding does not cross a multiple of the grid. *)
Lemma nearest_le_bound (q : Q) (N : Z) :
  ~ q == 0 -> q <= inject_Z N * 2 ^ Binary64.grid q ->
  Binary64.nearest q <= inject_Z N * 2 ^ Binary64.grid q.
Proof.
  intros Hq Hb. rewrite (nearest_unfold q Hq). unfold Binary64.scaled.
  apply Qmult_le_compat_r; [|apply Qlt_le_weak, two_pos].
  rewrite <- Zle_Qle. rewrite <- (rint_Z N) at 1. apply rint_le.
  apply Qle_shift_div_r; [apply two_pos|exact Hb].
Qed.

Lemma nearest_ge_bound (q : Q) (N : Z) :
  ~ q == 0 -> inject_Z N * 2 ^ Binary64.grid q <= q ->
  inject_Z N * 2 ^ Binary64.grid q <= Binary64.nearest q.
Proof.
  intros Hq Hb. rewrite (nearest_unfold q Hq). unfold Binary64.scaled.
  apply Qmult_le_compat_r; [|apply Qlt_le_weak, two_pos].
  rewrite <- Zle_Qle. rewrite <- (rint_Z N) at 1. apply rint_le.
  apply Qle_shift_div_l; [apply two_pos|exact Hb].
Qed.

Lemma nearest_nonneg (q : Q) : 0 <= q -> 0 <= Binary64.nearest q.
Proof.
  intros Hq. destruct (Qeq_dec q 0) as [E|E].
  - rewrite (nearest_zero q E). apply Qle_refl.
  - setoid_replace 0 with (inject_Z 0 * 2 ^ Binary64.grid q) by ring.
    apply nearest_ge_bound; [exact E|]. change (inject_Z 0) with 0. lra.
Qed.

Lemma nearest_nonpos (q : Q) : q <= 0 -> Binary64.nearest q <= 0.
Proof.
  intros Hq. destruct (Qeq_dec q 0) as [E|E].
  - rewrite (nearest_zero q E). apply Qle_refl.
  - setoid_replace 0 with (inject_Z 0 * 2 ^ Binary64.grid q) by ring.
    apply nearest_le_bound; [exact E|]. change (inject_Z 0) with 0. lra.
Qed.

Lemma two_as_multiple (E g : Z) :
  (g <= E)%Z -> 2 ^ E == inject_Z (2 ^ (E - g)) * 2 ^ g.
Proof.
  intros H. replace E with (g + (E - g))%Z at 1 by lia.
  rewrite two_add, (two_int (E - g)) by lia. ring.
Qed.

Lemma nearest_fixes (q : Q) : Binary64.representable q -> Binary64.nearest q == q.
Proof.
  intros (m & e0 & Hm & He & Hq). unfold Binary64.scaled in Hq.
  destruct (Qeq_dec q 0) as [E|E].
  { rewrite (nearest_zero q E). symmetry. exact E. }
  rewrite (nearest_unfold q E).
  set (g := Binary64.grid q).
  assert (Hg : (g <= e0)%Z).
  { destruct (exponent_spec q E) as (H1 & _).
    assert (H2 : Qabs q < 2 ^ (53 + e0)).
    { rewrite Hq, Qabs_Qmult, (Qabs_pos (2 ^ e0)) by (apply Qlt_le_weak, two_pos).
      rewrite two_add. apply Qmult_lt_compat_r; [apply two_pos|].
      change (Qabs (inject_Z m)) with (inject_Z (Z.abs m)).
      rewrite (two_int 53) by lia. rewrite <- Zlt_Qlt. exact Hm. }
    assert (H3 : 2 ^ Binary64.exponent q < 2 ^ (53 + e0))
      by (eapply Qle_lt_trans; [exact H1|exact H2]).
    apply two_lt_inv in H3. unfold g, Binary64.grid. lia. }
  assert (Hs : q / 2 ^ g == inject_Z (m * 2 ^ (e0 - g))).
  { rewrite Hq. replace e0 with (g + (e0 - g))%Z at 1 by lia.
    rewrite two_shift by lia. field.
    intro H0. pose proof (two_pos g) as Hp. rewrite H0 in Hp. discriminate Hp. }
  rewrite (rint_compat _ _ Hs), rint_Z. unfold Binary64.scaled.
  rewrite <- two_shift by lia. replace (g + (e0 - g))%Z with e0 by lia.
  symmetry. exact Hq.
Qed.

Lemma nearest_same_grid (x y : Q) :
  ~ x == 0 -> ~ y == 0 -> x <= y -> Binary64.grid x = Binary64.grid y ->
  Binary64.nearest x <= Binary64.nearest y.
Proof.
  intros Hx Hy Hxy Eg. rewrite (nearest_unfold x Hx), (nearest_unfold y Hy), Eg.
  unfold Binary64.scaled.
  apply Qmult_le_compat_r; [|apply Qlt_le_weak, two_pos].
  rewrite <- Zle_Qle. apply rint_le.
  unfold Qdiv. apply Qmult_le_compat_r; [exact Hxy|].
  apply Qinv_le_0_compat, Qlt_le_weak, two_pos.
Qed.

(** Two numbers on the same grid are rounded in their order by [rint];
    two numbers on different grids are separated by zero or by a power
    of two, a multiple of both grids. *)
Lemma nearest_monotone (x y : Q) :
  x <= y -> Binary64.nearest x <= Binary64.nearest y.
Proof.
  intros Hxy.
  destruct (Qlt_le_dec 0 x) as [Hx|Hx].
  - assert (Hy : 0 < y) by lra.
    assert (Nx : ~ x == 0) by (intro E; rewrite E in Hx; discriminate Hx).
    assert (Ny : ~ y == 0) by (intro E; rewrite E in Hy; discriminate Hy).
    destruct (exponent_spec x Nx) as (_ & Hx2). destruct (exponent_spec y Ny) as (Hy1 & _).
    rewrite Qabs_pos in Hx2, Hy1 by lra.
    assert (Hexp : (Binary64.exponent x <= Binary64.exponent y)%Z).
    { apply exponent_le; [exact Nx|exact Ny|]. rewrite !Qabs_pos by lra. exact Hxy. }
    destruct (Z.eq_dec (Binary64.grid x) (Binary64.grid y)) as [Eg|Eg].
    { apply nearest_same_grid; assumption. }
    assert (Hgy : Binary64.grid y = (Binary64.exponent y - 52)%Z)
      by (unfold Binary64.grid in *; lia).
    assert (Hlt : (Binary64.exponent x + 1 <= Binary64.exponent y)%Z)
      by (unfold Binary64.grid in *; lia).
    assert (Hgx : (Binary64.grid x <= Binary64.exponent y)%Z)
      by (unfold Binary64.grid in *; lia).
    apply Qle_trans with (2 ^ Binary64.exponent y).
    + rewrite (two_as_multiple _ _ Hgx). apply nearest_le_bound; [exact Nx|].
      rewrite <- (two_as_multiple _ _ Hgx).
      apply Qle_trans with (2 ^ (Binary64.exponent x + 1)); [lra|apply two_le, Hlt].
    + assert (Hgy' : (Binary64.grid y <= Binary64.exponent y)%Z) by lia.
      rewrite (two_as_multiple _ _ Hgy'). apply nearest_ge_bound; [exact Ny|].
      rewrite <- (two_as_multiple _ _ Hgy'). exact Hy1.
  - destruct (Qlt_le_dec y 0) as [Hy|Hy].
    + assert (Nx : ~ x == 0) by (intro E; rewrite E in Hxy; lra).
      assert (Ny : ~ y == 0) by (intro E; rewrite E in Hy; discriminate Hy).
      destruct (exponent_spec x Nx) as (Hx1 & _). destruct (exponent_spec y Ny) as (_ & Hy2).
      rewrite Qabs_neg in Hx1, Hy2 by lra.
      assert (Hexp : (Binary64.exponent y <= Binary64.exponent x)%Z).
      { apply exponent_le; [exact Ny|exact Nx|]. rewrite !Qabs_neg by lra. lra. }
      destruct (Z.eq_dec (Binary64.grid x) (Binary64.grid y)) as [Eg|Eg].
      { apply nearest_same_grid; assumption. }
      assert (Hgx : Binary64.grid x = (Binary64.exponent x - 52)%Z)
        by (unfold Binary64.grid in *; lia).
      assert (Hlt : (Binary64.exponent y + 1 <= Binary64.exponent x)%Z)
        by (unfold Binary64.grid in *; lia).
      assert (Hgy : (Binary64.grid y <= Binary64.exponent x)%Z)
        by (unfold Binary64.grid in *; lia).
      assert (Hgx' : (Binary64.grid x <= Binary64.exponent x)%Z) by lia.
      assert (Hneg : forall g : Z, (g <= Binary64.exponent x)%Z ->
                - 2 ^ Binary64.exponent x
                == inject_Z (- 2 ^ (Binary64.exponent x - g)) * 2 ^ g).
      { intros g Hg. rewrite (two_as_multiple _ _ Hg), inject_Z_opp. ring. }
      apply Qle_trans with (- 2 ^ Binary64.exponent x).
      * rewrite (Hneg _ Hgx'). apply nearest_le_bound; [exact Nx|].
        rewrite <- (Hneg _ Hgx'). lra.
      * rewrite (Hneg _ Hgy). apply nearest_ge_bound; [exact Ny|].
        rewrite <- (Hneg _ Hgy).
        pose proof (two_le _ _ Hlt) as Hp. lra.
    + apply Qle_trans with 0; [apply nearest_nonpos, Hx|apply nearest_nonneg, Hy].
Qed.

(** Rounding to nearest, ties to even, is a rounding in the sense used
    here. *)
Lemma nearest_is_a_rounding : Binary64.rounding Binary64.nearest.
Proof.
  split; [exact nearest_fixes|exact nearest_monotone].
Qed.

(** ** The code on [float]s *)

(** X25. For an integral position and an [SPR] that is a whole multiple
    of the sample count, both of magnitude at most [2^48], the property
    [sample] computed on [float]s is the exact sector: rounding each of
    its four operations to binary64, by any monotone rounding that
    leaves the binary64 numbers as they are, changes nothing. *)
Theorem binary64_sample_is_exact :
  forall (fl : Q -> Q) (p spr : Q) (n : Z),
    Binary64.rounding fl ->
    0 < spr -> (0 < n)%Z ->
    Exact.small_int p -> Exact.small_int spr -> Exact.whole_sectors spr n ->
    Binary64.sample fl p spr n = Spec.sector p spr n.
Proof.
  intros fl p spr n Hfl. apply (sample_exact fl Hfl).
Qed.

Lemma binary64_sample_is_exact_witness :
  Binary64.sample Binary64.nearest 195 200 10 = 10%Z.
Proof.
  rewrite (binary64_sample_is_exact Binary64.nearest 195 200 10).
  - vm_compute. reflexivity.
  - exact nearest_is_a_rounding.
  - reflexivity.
  - reflexivity.
  - apply (small_int_inject 195). vm_compute. split; discriminate.
  - apply (small_int_inject 200). vm_compute. split; discriminate.
  - apply (whole_sectors_inject 10 20).
Defined.

(** X26. For an integral position, integral steps and an integral
    [SPR > 0], all of magnitude at most [2^48], the position that [move]
    computes on [float]s is the exact one, and so are the motor steps
    of [step] when [SPR] is a whole multiple of the sample count:
    rounding each operation to binary64 changes nothing. *)
Theorem binary64_move_is_exact :
  forall (fl : Q -> Q) (p steps spr : Q) (n num : Z),
    Binary64.rounding fl ->
    0 < spr ->
    Exact.small_int p -> Exact.small_int spr ->
    (Exact.small_int steps ->
     Binary64.moved fl p steps spr == wrapped p steps spr) /\
    ((0 < n)%Z -> Exact.whole_sectors spr n ->
     Exact.small_int (inject_Z num * (spr / inject_Z n)) ->
     Binary64.steps fl num spr n == inject_Z num * (spr / inject_Z n)).
Proof.
  intros fl p steps spr n num Hfl Hspr Hp Hs. split.
  - intros Hsteps. apply (moved_exact fl Hfl); assumption.
  - intros Hn Hw Hnum. apply (steps_exact fl Hfl); assumption.
Qed.

Lemma binary64_move_is_exact_witness :
  Binary64.moved Binary64.nearest 190 15 200 == 5 /\
  Binary64.steps Binary64.nearest (-3) 200 10 == -60.
Proof.
  destruct (binary64_move_is_exact Binary64.nearest 190 15 200 10 (-3)) as (Hmove & Hstep).
  - exact nearest_is_a_rounding.
  - reflexivity.
  - apply (small_int_inject 190). vm_compute. split; discriminate.
  - apply (small_int_inject 200). vm_compute. split; discriminate.
  - split.
    + rewrite Hmove; [reflexivity|].
      apply (small_int_inject 15). vm_compute. split; discriminate.
    + rewrite Hstep; [reflexivity|reflexivity|apply (whole_sectors_inject 10 20)|].
      exists (-60)%Z. split; [reflexivity|vm_compute; split; discriminate].
Defined.

Lemma wrapped_compat (p p' s s' spr : Q) :
  p == p' -> s == s' -> wrapped p s spr == wrapped p' s' spr.
Proof.
  intros Hp Hs. unfold wrapped.
  assert (E : Qfloor ((p + s) / spr) = Qfloor ((p' + s') / spr)).
  { apply Qfloor_comp. rewrite Hp, Hs. reflexivity. }
  rewrite E, Hp, Hs. reflexivity.
Qed.

Lemma sector_compat (p p' spr : Q) (n : Z) :
  p == p' -> Spec.sector p spr n = Spec.sector p' spr n.
Proof.
  intros Hp. unfold Spec.sector. apply Qfloor_comp. rewrite Hp. reflexivity.
Qed.

Lemma small_int_wrapped (p steps spr : Q) :
  0 < spr -> integral p -> integral steps -> Exact.small_int spr ->
  Exact.small_int (wrapped p steps spr).
Proof.
  intros Hspr Hp Hsteps (sz & Hs & Hsb).
  destruct (integral_wrapped p steps spr Hp Hsteps) as (z & Hz).
  { exists sz. exact Hs. }
  destruct (wrapped_range p steps spr Hspr) as (Hlo & Hhi).
  exists z. split; [exact Hz|].
  rewrite Hz in Hlo, Hhi. rewrite Hs in Hhi.
  change 0 with (inject_Z 0) in Hlo. rewrite <- Zle_Qle in Hlo. rewrite <- Zlt_Qlt in Hhi.
  unfold Exact.limit in *. lia.
Qed.

Section RoundedGoto.
Variable fl : Q -> Q.
Hypothesis Hfl : Binary64.rounding fl.

Lemma goto_exact (p spr : Q) (n num : Z) :
  0 < spr -> (0 < n)%Z ->
  Exact.small_int p -> Exact.small_int spr -> Exact.whole_sectors spr n ->
  let d := Spec.shortest num (Spec.sector p spr n) n in
  let steps := inject_Z d * (spr / inject_Z n) in
  Spec.shortest num (Binary64.sample fl p spr n) n = d /\
  Binary64.steps fl d spr n == steps /\
  Binary64.moved fl p (Binary64.steps fl d spr n) spr == wrapped p steps spr /\
  Binary64.sample fl (Binary64.moved fl p (Binary64.steps fl d spr n) spr) spr n
    = Spec.sector (wrapped p steps spr) spr n.
Proof.
  intros Hspr Hn Hp Hs Hw d steps.
  assert (Hsmall : Exact.small_int steps).
  { destruct Hs as (sz & Hsz & Hsb). destruct Hw as (wz & Hwz).
    assert (Hsw : (n * wz = sz)%Z).
    { rewrite Hwz in Hsz. unfold Qeq in Hsz. cbn [inject_Z Qnum Qden] in Hsz. lia. }
    assert (Hwpos : (0 < wz)%Z).
    { rewrite Hwz in Hspr. change 0 with (inject_Z 0) in Hspr.
      rewrite <- Zlt_Qlt in Hspr. nia. }
    pose proof (shortest_bound num (Spec.sector p spr n) n Hn) as Hd. fold d in Hd.
    exists (d * wz)%Z. split.
    - unfold steps. rewrite Hwz, !inject_Z_mult. field. apply inject_Z_nonzero. lia.
    - unfold Exact.limit in *. nia. }
  assert (E1 : Binary64.steps fl d spr n == steps)
    by (apply (steps_exact fl Hfl); assumption).
  assert (Hsmall' : Exact.small_int (Binary64.steps fl d spr n)).
  { destruct Hsmall as (z & Hz & Hzb). exists z. split; [|exact Hzb].
    rewrite E1. exact Hz. }
  assert (E2 : Binary64.moved fl p (Binary64.steps fl d spr n) spr == wrapped p steps spr).
  { rewrite (moved_exact fl Hfl) by assumption.
    apply wrapped_compat; [reflexivity|exact E1]. }
  assert (Hp' : Exact.small_int (wrapped p steps spr)).
  { apply small_int_wrapped; [exact Hspr| | |exact Hs];
      apply small_int_integral; assumption. }
  split; [rewrite (sample_exact fl Hfl) by assumption; reflexivity|].
  split; [exact E1|]. split; [exact E2|].
  rewrite (sample_exact fl Hfl); [apply sector_compat, E2|exact Hspr|exact Hn| |exact Hs|exact Hw].
  destruct Hp' as (z & Hz & Hzb). exists z. split; [|exact Hzb].
  rewrite E2. exact Hz.
Qed.

End RoundedGoto.

(** X27. For an integral position and an [SPR] that is a whole multiple
    of the sample count, both of magnitude at most [2^48], the
    arithmetic of [goto] on [float]s is exact: the sample it starts
    from, the position it ends at and the sample there are those of the
    exact arithmetic, whatever the monotone rounding that leaves the
    binary64 numbers as they are. *)
Theorem binary64_goto_is_exact :
  forall (fl : Q -> Q) (p spr : Q) (n num : Z),
    Binary64.rounding fl ->
    0 < spr -> (0 < n)%Z ->
    Exact.small_int p -> Exact.small_int spr -> Exact.whole_sectors spr n ->
    let cur := Binary64.sample fl p spr n in
    let steps := Binary64.steps fl (Spec.shortest num cur n) spr n in
    let p' := Binary64.moved fl p steps spr in
    let target :=
      wrapped p (inject_Z (Spec.shortest num (Spec.sector p spr n) n)
                 * (spr / inject_Z n)) spr in
    cur = Spec.sector p spr n /\
    p' == target /\
    Binary64.sample fl p' spr n = Spec.sector target spr n.
Proof.
  intros fl p spr n num Hfl Hspr Hn Hp Hs Hw. cbv zeta.
  rewrite (sample_exact fl Hfl p spr n) by assumption.
  destruct (goto_exact fl Hfl p spr n num Hspr Hn Hp Hs Hw) as (_ & _ & Hmoved & Hsample).
  split; [reflexivity|]. split; [exact Hmoved|exact Hsample].
Qed.

Lemma binary64_goto_is_exact_witness :
  let cur := Binary64.sample Binary64.nearest 40 200 10 in
  let steps := Binary64.steps Binary64.nearest (Spec.shortest 8 cur 10) 200 10 in
  let p' := Binary64.moved Binary64.nearest 40 steps 200 in
  cur = 2%Z /\ p' == 160 /\ Binary64.sample Binary64.nearest p' 200 10 = 8%Z.
Proof.
  destruct (binary64_goto_is_exact Binary64.nearest 40 200 10 8) as (Hcur & Hmoved & Hsample).
  - exact nearest_is_a_rounding.
  - reflexivity.
  - reflexivity.
  - apply (small_int_inject 40). vm_compute. split; discriminate.
  - apply (small_int_inject 200). vm_compute. split; discriminate.
  - apply (whole_sectors_inject 10 20).
  - cbv zeta in *. split; [|split].
    + rewrite Hcur. vm_compute. reflexivity.
    + rewrite Hmoved. vm_compute. reflexivity.
    + rewrite Hsample. vm_compute. reflexivity.
Defined.

(** X28. Off the exact range the code rounds, and [sample] is not the
    exact sector on a sector boundary. With 6 samples and 200 steps per
    revolution the width is not a binary64 number, and at position 150,
    exactly four and a half widths, the code returns 4 where the exact
    sector is 5; with 10 samples and 2048 steps per revolution it
    returns 2 at position 512, where the exact sector is 3. *)
Theorem binary64_sample_rounds_on_a_boundary :
  (Binary64.sample Binary64.nearest 150 200 6 = 4%Z /\ Spec.sector 150 200 6 = 5%Z) /\
  (Binary64.sample Binary64.nearest 512 2048 10 = 2%Z /\ Spec.sector 512 2048 10 = 3%Z).
Proof.
  vm_compute. repeat split.
Qed.

(** X29. Off the exact range the position that [move] stores is not
    always below [SPR], nor the exact one. With 3 samples and 200 steps
    per revolution, a [step] by -2 and then a [step] by -1 from position
    0 leave the position at 200, which is [SPR] itself; with 11 samples,
    a [step] by 11 from position 0 leaves it at [2^-45], not at 0. *)
Theorem binary64_position_reaches_SPR :
  (let p1 := Binary64.moved Binary64.nearest 0
               (Binary64.steps Binary64.nearest (-2) 200 3) 200 in
   let p2 := Binary64.moved Binary64.nearest p1
               (Binary64.steps Binary64.nearest (-1) 200 3) 200 in
   p2 == 200 /\ wrapped (wrapped 0 (-2 * (200 / 3)) 200) (-1 * (200 / 3)) 200 == 0) /\
  (Binary64.moved Binary64.nearest 0 (Binary64.steps Binary64.nearest 11 200 11) 200
   == 1 / inject_Z (2 ^ 45) /\
   wrapped 0 (11 * (200 / 11)) 200 == 0).
Proof.
  vm_compute. repeat split.
Qed.

(** X30. Off the exact range [goto] can miss its target. With 10
    samples and 200 steps per revolution, at the position
    [29.999999999999996], the [float] next below 30, the code sees
    sample 2 where the exact sector is 1; [goto( 1 )] then moves by -20
    and ends on sample 0. *)
Theorem binary64_goto_misses_from_a_fraction :
  let p := 8444249301319679 # 281474976710656 in
  let cur := Binary64.sample Binary64.nearest p 200 10 in
  let steps := Binary64.steps Binary64.nearest (Spec.shortest 1 cur 10) 200 10 in
  let p' := Binary64.moved Binary64.nearest p steps 200 in
  Binary64.nearest p == p /\
  cur = 2%Z /\ Spec.sector p 200 10 = 1%Z /\
  steps == -20 /\
  Binary64.sample Binary64.nearest p' 200 10 = 0%Z.
Proof.
  vm_compute. repeat split.
Qed.
